(** * Realtime update hub: task-status transitions, fan-out and team
      performance

    A shallow embedding of [server/websocket.ts]: the transition table
    ([validateTaskUpdate]), the team-performance computation
    ([calculateTeamPerformance]) and the WebSocket hub built by
    [setupWebSocket] (connection registry, performance subscriptions,
    message, authentication and close handlers, periodic timer).

    Conventions of the embedding.
    - A parsed message is a JavaScript value ([value]); [JSON.parse] itself
      is not modelled: a message event carries [None] when [JSON.parse]
      throws and [Some v] when it returns [v].  Numbers inside messages are
      integers: [VNum n] is the number that the literal [n] denotes, the
      double nearest to [n].
    - An [async] function is cut at its [await]s: a handler runs up to the
      first [await], issues a query and leaves a [pending] continuation that
      is resumed with the data store's reply, at which point it sees the hub
      as it is then.  Replies are arbitrary: the data store is external.
    - [ws.send] is recorded as a [Send] effect and does not throw (sockets
      accepted by a server are never in state CONNECTING); [console.error]
      is not recorded.
    - Numbers computed by [calculateTeamPerformance] are IEEE-754 doubles
      ([spec_float] at precision 53), as JavaScript numbers are. *)

From Stdlib Require Import ZArith String List Bool Lia SpecFloat.
From stdpp Require Import base option list strings gmap pretty.

Local Open Scope string_scope.
Local Open Scope Z_scope.
Local Set Warnings "-register-all".

(** ** JavaScript values *)

Inductive value : Type :=
| VUndefined
| VNull
| VBool (b : bool)
| VNum (n : Z)
| VStr (s : string)
| VArr (items : list value)
| VObj (fields : list (string * value)).

(** The outcome of evaluating an expression that may throw. *)
Inductive completion (A : Type) : Type :=
| Normal (a : A)
| Throw.
Arguments Normal {A} a.
Arguments Throw {A}.

(** ToBoolean, as used by [if], [&&], [!] and [?:]. *)
Definition truthy (v : value) : bool :=
  match v with
  | VUndefined | VNull => false
  | VBool b => b
  | VNum n => negb (n =? 0)
  | VStr s => negb (String.eqb s "")
  | VArr _ | VObj _ => true
  end.

Fixpoint assoc {V : Type} (k : string) (l : list (string * V)) : option V :=
  match l with
  | [] => None
  | (k', v) :: r => if String.eqb k' k then Some v else assoc k r
  end.

(** [v.k] for the property names the hub reads ([type], [taskId],
    [changes], [status], [completedAt], [updatedAt], [userId], [username]):
    none of them is a built-in property of a string, number, boolean or
    array, nor inherited from [Object.prototype]; reading a property of
    [null] or [undefined] throws a [TypeError]. *)
Definition get (v : value) (k : string) : completion value :=
  match v with
  | VUndefined | VNull => Throw
  | VObj fields => Normal (default VUndefined (assoc k fields))
  | _ => Normal VUndefined
  end.

(** [v === s] for a string literal [s]. *)
Definition strict_eq_str (v : value) (s : string) : bool :=
  match v with
  | VStr t => String.eqb t s
  | _ => false
  end.

(** [Array.prototype.join]. *)
Definition join (sep : string) (l : list string) : string := String.concat sep l.

(** ** JavaScript numbers *)

(** A JavaScript number is an IEEE-754 binary64 value; the arithmetic is
    the Standard Library's executable specification of it. *)
Definition number : Type := spec_float.

Definition prec : Z := 53.
Definition emax : Z := 1024.

(** The double nearest to the integer [z] (exact below 2^53). *)
Definition num (z : Z) : number := binary_normalize prec emax z 0 false.

Definition js_add : number -> number -> number := SFadd prec emax.
Definition js_mul : number -> number -> number := SFmul prec emax.
Definition js_div : number -> number -> number := SFdiv prec emax.

(** [Math.min] of two arguments: NaN if either is NaN, the smaller one
    otherwise, -0 being smaller than +0. *)
Definition Math_min (x y : number) : number :=
  match x, y with
  | S754_nan, _ | _, S754_nan => S754_nan
  | S754_zero sx, S754_zero sy => S754_zero (sx || sy)
  | _, _ => if SFltb y x then y else x
  end.

(** [Math.round]: the integer nearest to [x], a tie going to the larger
    one; infinities and NaN are returned unchanged. *)
Definition Math_round (x : number) : number :=
  match x with
  | S754_finite s m e =>
      let v := if s then Z.neg m else Z.pos m in
      if 0 <=? e then x
      else binary_normalize prec emax ((2 * v + 2 ^ (- e)) / 2 ^ (- e + 1)) 0 s
  | _ => x
  end.

(** Equality of the representations (not [===]: NaN equals itself here
    and the two zeros differ). *)
Definition number_eqb (x y : number) : bool :=
  match x, y with
  | S754_zero a, S754_zero b | S754_infinity a, S754_infinity b => Bool.eqb a b
  | S754_nan, S754_nan => true
  | S754_finite a m e, S754_finite b m' e' =>
      Bool.eqb a b && Pos.eqb m m' && Z.eqb e e'
  | _, _ => false
  end.

(** *** Number::toString for integers *)

(** The candidate with [k] significant digits: of the two multiples of
    [10^(digits - k)] around the positive integer [v], the one that reads
    back as the double nearest to [v]; when both do, the one nearer to [v],
    and the one with the even last digit when they are equally near. *)
Definition shortest_at (v : Z) (k : Z) : option Z :=
  let digits := Z.of_nat (String.length (pretty v)) in
  if digits <? k then None
  else
    let scale := 10 ^ (digits - k) in
    let lo := v / scale * scale in
    let hi := lo + scale in
    let ok c := number_eqb (num c) (num v) in
    match ok lo, ok hi with
    | true, true =>
        if v - lo <? hi - v then Some lo
        else if hi - v <? v - lo then Some hi
        else if Z.even (lo / scale) then Some lo else Some hi
    | true, false => Some lo
    | false, true => Some hi
    | false, false => None
    end.

(** The decimal number with the fewest significant digits that reads back
    as the double nearest to [v]; 17 digits always suffice. *)
Definition shortest (v : Z) : Z :=
  match omap (shortest_at v) (seqZ 1 17) with
  | c :: _ => c
  | [] => v
  end.

Fixpoint strip_zeros (fuel : nat) (c : Z) : Z :=
  match fuel with
  | O => c
  | S f => if (c mod 10 =? 0) && negb (c =? 0) then strip_zeros f (c / 10) else c
  end.

(** Number::toString of the number that the integer literal [n] denotes,
    which is the double nearest to [n]: up to 2^53 the integer itself in
    decimal; above, the shortest digits that read back as that double,
    followed by zeros below 10^21 and in exponent notation from 10^21 on;
    [Infinity] when the literal is beyond the doubles. *)
Definition Number_toString (n : Z) : string :=
  if Z.abs n <=? 2 ^ 53 then pretty n
  else
    let sign := if n <? 0 then "-" else "" in
    match num (Z.abs n) with
    | S754_finite _ m e =>
        let c := shortest (Z.pos m * 2 ^ e) in
        if c <? 10 ^ 21 then sign ++ pretty c
        else
          let n' := Z.of_nat (String.length (pretty c)) in
          match pretty (strip_zeros 400 c) with
          | String d "" => sign ++ String d "" ++ "e+" ++ pretty (n' - 1)
          | String d r => sign ++ String d "" ++ "." ++ r ++ "e+" ++ pretty (n' - 1)
          | "" => ""
          end
    | _ => sign ++ "Infinity"
    end.

(** ToString, as applied by a template literal. *)
Fixpoint to_string (v : value) : string :=
  match v with
  | VUndefined => "undefined"
  | VNull => "null"
  | VBool true => "true"
  | VBool false => "false"
  | VNum n => Number_toString n
  | VStr s => s
  | VArr items =>
      join ","
        ((fix elems (l : list value) : list string :=
            match l with
            | [] => []
            | (VUndefined | VNull) :: r => "" :: elems r
            | x :: r => to_string x :: elems r
            end) items)
  | VObj _ => "[object Object]"
  end.

(** ** validateTaskUpdate *)

Record Validation : Type := { isValid : bool; message : option string }.

(** The own properties of the object literal [validTransitions]. *)
Definition validTransitions : list (string * list string) :=
  [ ("pending", ["in_progress"; "completed"; "cancelled"]);
    ("in_progress", ["completed"; "cancelled"; "pending"]);
    ("completed", ["pending"]);
    ("cancelled", ["pending"]) ].

(** [validTransitions] is created by an object literal, so a property read
    that misses its own keys continues in [Object.prototype]. *)
Definition Object_prototype : list string :=
  [ "constructor"; "__defineGetter__"; "__defineSetter__"; "hasOwnProperty";
    "__lookupGetter__"; "__lookupSetter__"; "isPrototypeOf";
    "propertyIsEnumerable"; "toString"; "valueOf"; "__proto__";
    "toLocaleString" ].

Inductive property : Type :=
| OwnArray (targets : list string)   (* one of the four arrays *)
| Inherited                          (* a function or object of Object.prototype *)
| Missing.                           (* undefined *)

(** [validTransitions[currentStatus]]. *)
Definition validTransitions_get (currentStatus : string) : property :=
  match assoc currentStatus validTransitions with
  | Some targets => OwnArray targets
  | None =>
      if existsb (String.eqb currentStatus) Object_prototype
      then Inherited else Missing
  end.

(** [Array.prototype.includes] on an array of strings: the searched value
    is compared with SameValueZero, so only a string can be found. *)
Definition includes (l : list string) (v : value) : bool :=
  existsb (strict_eq_str v) l.

Definition validateTaskUpdate (currentStatus : string) (newStatus : value)
  : completion Validation :=
  match validTransitions_get currentStatus with
  | Missing =>
      Normal {| isValid := false;
                message := Some ("Invalid current status: " ++ currentStatus) |}
  | Inherited =>
      (* truthy, but it has no [includes] method: calling it is a TypeError *)
      Throw
  | OwnArray targets =>
      if negb (includes targets newStatus) then
        Normal {| isValid := false;
                  message := Some ("Cannot change task status from '" ++ currentStatus
                                   ++ "' to '" ++ to_string newStatus
                                   ++ "'. Valid transitions are: "
                                   ++ join ", " targets) |}
      else Normal {| isValid := true; message := None |}
  end.

(** The transition table of the specification, row by row. *)
Definition transition_table : list (string * string) :=
  [ ("pending", "in_progress"); ("pending", "completed"); ("pending", "cancelled");
    ("in_progress", "completed"); ("in_progress", "cancelled"); ("in_progress", "pending");
    ("completed", "pending");
    ("cancelled", "pending") ].

Definition task_statuses : list string :=
  ["pending"; "in_progress"; "completed"; "cancelled"].

(** ** The data store's tables *)

(** Modelled from the spec: the [users] table of [@db/schema], whose
    declaration is not part of the sources.  Here and below a row carries
    the columns that the hub and the performance queries read, a timestamp
    is in milliseconds since the epoch, and a nullable column is an
    [option]. *)
Record User : Type := {
  user_id : Z;
  user_username : string;
  user_fullName : string;
  user_role : string
}.

(** Modelled from the spec: the [tasks] table of [@db/schema], with the
    columns the hub and the performance queries read. *)
Record Task : Type := {
  task_id : Z;
  task_assignedTo : option Z;
  task_status : string;
  task_deadline : option Z;
  task_completedAt : option Z;
  task_updatedAt : option Z
}.

(** Modelled from the spec: the [taskActivities] table of [@db/schema]. *)
Record TaskActivity : Type := {
  activity_id : Z;
  activity_taskId : Z;
  activity_userId : Z;
  activity_action : string;
  activity_createdAt : Z
}.

(** Modelled from the spec: the [documentComments] table of [@db/schema]. *)
Record DocumentComment : Type := {
  comment_id : Z;
  comment_userId : Z
}.

(** Modelled from the spec: the tables of the data store that
    [calculateTeamPerformance] queries. *)
Record database : Type := {
  users : list User;
  tasks : list Task;
  taskActivities : list TaskActivity;
  documentComments : list DocumentComment
}.

(** ** calculateTeamPerformance *)

Record Metrics : Type := {
  tasksCompleted : number;
  onTimeCompletion : number;
  metrics_documentComments : number;
  collaborationScore : number;
  totalScore : number
}.

Record MemberPerformance : Type := {
  member_id : Z;
  member_username : string;
  member_fullName : string;
  member_role : string;
  metrics : Metrics
}.

(** SQL [column = x] on a nullable column: never true on NULL. *)
Definition sql_eq (column : option Z) (x : Z) : bool :=
  match column with
  | Some y => y =? x
  | None => false
  end.

(** SQL [a <= b] in a WHERE clause: a NULL operand rejects the row. *)
Definition sql_le (a b : option Z) : bool :=
  match a, b with
  | Some x, Some y => x <=? y
  | _, _ => false
  end.

(** [select count( * )::integer from t where p]. *)
Definition count {A : Type} (p : A -> bool) (t : list A) : Z :=
  Z.of_nat (length (filter (fun r => p r = true) t)).

Definition memberPerformance (db : database) (member : User) : MemberPerformance :=
  let tasksCompleted :=
    count (fun t => sql_eq (task_assignedTo t) (user_id member)
                    && String.eqb (task_status t) "completed") (tasks db) in
  let totalTasks :=
    count (fun t => sql_eq (task_assignedTo t) (user_id member)) (tasks db) in
  let onTimeTasks :=
    count (fun t => sql_eq (task_assignedTo t) (user_id member)
                    && String.eqb (task_status t) "completed"
                    && sql_le (task_completedAt t) (task_deadline t)) (tasks db) in
  let onTimeCompletionRate :=
    if 0 <? totalTasks   (* a count is an integer: [>] compares integers *)
    then Math_round (js_mul (js_div (num onTimeTasks) (num totalTasks)) (num 100))
    else num 100 in
  let comments :=
    count (fun c => comment_userId c =? user_id member) (documentComments db) in
  let activities :=
    count (fun a => activity_userId a =? user_id member) (taskActivities db) in
  let collaborationScore := Math_min (num 100) (num activities) in
  let totalScore :=
    Math_round
      (js_div
         (js_add
            (js_add
               (js_add (js_mul (num tasksCompleted) (num 40))
                       (js_mul onTimeCompletionRate (num 30)))
               (js_mul (Math_min (js_mul (num comments) (num 10)) (num 100)) (num 15)))
            (js_mul collaborationScore (num 15)))
         (num 100)) in
  {| member_id := user_id member;
     member_username := user_username member;
     member_fullName := user_fullName member;
     member_role := user_role member;
     metrics := {| tasksCompleted := num tasksCompleted;
                   onTimeCompletion := onTimeCompletionRate;
                   metrics_documentComments := num comments;
                   collaborationScore := collaborationScore;
                   totalScore := totalScore |} |}.

(** The queries of one call are taken to read one state of the tables. *)
Definition calculateTeamPerformance (db : database) : list MemberPerformance :=
  let teamMembers :=
    filter (fun u => String.eqb (user_role u) "team_member" = true) (users db) in
  map (memberPerformance db) teamMembers.

(** ** The hub: data *)

(** [Map] and [Set] of JavaScript keep their entries in insertion order,
    and [forEach] visits them in that order. *)
Definition Map_get {V : Type} (k : string) (m : list (string * V)) : option V :=
  assoc k m.

Fixpoint Map_set {V : Type} (k : string) (v : V) (m : list (string * V))
  : list (string * V) :=
  match m with
  | [] => [(k, v)]
  | (k', v') :: r =>
      if String.eqb k' k then (k', v) :: r else (k', v') :: Map_set k v r
  end.

Definition Map_delete {V : Type} (k : string) (m : list (string * V))
  : list (string * V) :=
  filter (fun kv => kv.1 ≠ k) m.

Definition Set_has (k : string) (s : list string) : bool :=
  existsb (String.eqb k) s.

Definition Set_add (k : string) (s : list string) : list string :=
  if Set_has k s then s else s ++ [k].

Definition Set_delete (k : string) (s : list string) : list string :=
  filter (fun x => x ≠ k) s.

Inductive ReadyState : Type := CONNECTING | OPEN | CLOSING | CLOSED.

Definition ReadyState_eqb (a b : ReadyState) : bool :=
  match a, b with
  | CONNECTING, CONNECTING | OPEN, OPEN | CLOSING, CLOSING | CLOSED, CLOSED => true
  | _, _ => false
  end.

(** A WebSocket of the [ws] library, with what the hub attached to it: the
    [once('message')] listener is still registered while [authPending]. *)
Record Socket : Type := {
  readyState : ReadyState;
  authPending : bool
}.

(** [interface Client]; [client_ws] names the socket, which the hub
    identifies by the connection id it was given. *)
Record Client : Type := {
  client_id : string;
  client_ws : string;
  client_userId : value;
  client_username : value
}.

Record ActivityInfo : Type := {
  info_id : Z;
  info_action : string;
  info_createdAt : Z;
  info_user_id : value;
  info_user_username : value
}.

(** What is serialised by [JSON.stringify] and sent. *)
Inductive outbound : Type :=
| MsgConnected (text : string)
| MsgError (code : string) (text : option string)
| MsgTaskUpdate (task : Task) (activity : ActivityInfo)
| MsgTaskUpdateSuccess (task : Task) (activity : ActivityInfo)
| MsgTeamPerformance (members : list MemberPerformance).

(** [new Date(v)] and [new Date()]. *)
Inductive Date : Type :=
| NewDate (v : value)
| NewDateNow.

(** The [set] clause of the update. *)
Record TaskChanges : Type := {
  set_status : value;
  set_completedAt : option Date;
  set_updatedAt : Date
}.

(** The statements the hub sends to the data store. *)
Inductive query : Type :=
| SelectTask (taskId : value)
    (* select().from(tasks).where(eq(tasks.id, taskId)).limit(1) *)
| UpdateTask (changes : TaskChanges) (taskId : value)
    (* update(tasks).set(changes).where(eq(tasks.id, taskId)).returning() *)
| InsertTaskActivity (taskId userId : value) (action : string) (createdAt : Date)
    (* insert(taskActivities).values(...).returning() *)
| TeamPerformanceQueries.
    (* the queries of calculateTeamPerformance() *)

Inductive effect : Type :=
| Send (socket : string) (m : outbound)     (* ws.send(JSON.stringify(m)) *)
| CloseSocket (socket : string)             (* ws.close() *)
| Query (q : query)
| UnhandledRejection.                       (* an async function failed, nobody awaits it *)

(** The variables a task update keeps across its awaits. *)
Record TaskUpdateCall : Type := {
  call_clientId : string;
  call_client : Client;
  call_message : value
}.

(** A suspended [async] function, by the [await] it stopped at. *)
Inductive pending : Type :=
| AwaitSelect (c : TaskUpdateCall)
| AwaitUpdate (c : TaskUpdateCall) (currentTask : Task)
| AwaitInsert (c : TaskUpdateCall) (updatedTask : option Task)
| AwaitTeamPerformance.

(** What the data store answers; [Throw] is a rejected promise. *)
Inductive reply : Type :=
| TaskRows (r : completion (list Task))
| ActivityRows (r : completion (list TaskActivity))
| Performance (r : completion (list MemberPerformance)).

Record server : Type := {
  clients : list (string * Client);
  performanceSubscribers : list string;
  sockets : gmap string Socket;
  suspended : list pending
}.

Definition initial : server :=
  {| clients := []; performanceSubscribers := []; sockets := ∅; suspended := [] |}.

Definition is_open (s : server) (socket : string) : bool :=
  match sockets s !! socket with
  | Some sock => ReadyState_eqb (readyState sock) OPEN
  | None => false
  end.

#[global] Instance completion_ret : MRet completion := fun _ a => Normal a.
#[global] Instance completion_bind : MBind completion :=
  fun _ _ f c => match c with Normal a => f a | Throw => Throw end.

(** ** The hub: operations *)

(** [broadcastTeamPerformance], after [await calculateTeamPerformance()]. *)
Definition afterTeamPerformance (s : server)
    (r : completion (list MemberPerformance)) : list effect :=
  match r with
  | Throw => [UnhandledRejection]
  | Normal performanceMetrics =>
      flat_map
        (fun clientId =>
           match Map_get clientId (clients s) with
           | Some client =>
               if is_open s (client_ws client)
               then [Send (client_ws client) (MsgTeamPerformance performanceMetrics)]
               else []
           | None => []
           end)
        (performanceSubscribers s)
  end.

(** [broadcastTeamPerformance()], up to its await. *)
Definition broadcastTeamPerformance (s : server) : server * list effect :=
  ({| clients := clients s;
      performanceSubscribers := performanceSubscribers s;
      sockets := sockets s;
      suspended := suspended s ++ [AwaitTeamPerformance] |},
   [Query TeamPerformanceQueries]).

Definition broadcastToClients (s : server) (m : outbound)
    (excludeClientId : option string) : list effect :=
  flat_map
    (fun entry : string * Client =>
       let (clientId, client) := entry in
       if match excludeClientId with
          | Some x => negb (String.eqb x "") && String.eqb clientId x
          | None => false
          end
       then []
       else if is_open s (client_ws client)
            then [Send (client_ws client) m]
            else [])
    (clients s).

(** The [catch] of the task-update branch. *)
Definition try_catch (ws : string)
    (body : completion (list effect * option pending))
  : list effect * option pending :=
  match body with
  | Normal r => r
  | Throw =>
      ([Send ws (MsgError "DATABASE_ERROR" (Some "Failed to update task in database"))],
       None)
  end.

(** The task update after [await db.select()...]. *)
Definition afterSelect (c : TaskUpdateCall) (r : completion (list Task))
  : list effect * option pending :=
  let ws := call_clientId c in
  let parsedMessage := call_message c in
  try_catch ws
    (rows ← r;
     match head rows with
     | None =>
         mret ([Send ws (MsgError "TASK_NOT_FOUND" (Some "Task not found"))], None)
     | Some currentTask =>
         changes ← get parsedMessage "changes";
         status ← get changes "status";
         validation ← validateTaskUpdate (task_status currentTask) status;
         if negb (isValid validation) then
           mret ([Send ws (MsgError "INVALID_STATUS_TRANSITION" (message validation))],
                 None)
         else
           completedAt ← get changes "completedAt";
           updatedAt ← get changes "updatedAt";
           taskId ← get parsedMessage "taskId";
           mret ([Query (UpdateTask
                           {| set_status := status;
                              set_completedAt :=
                                if truthy completedAt
                                then Some (NewDate completedAt) else None;
                              set_updatedAt := NewDate updatedAt |}
                           taskId)],
                 Some (AwaitUpdate c currentTask))
     end).

(** The task update after [await db.update()...]. *)
Definition afterUpdate (c : TaskUpdateCall) (currentTask : Task)
    (r : completion (list Task)) : list effect * option pending :=
  let ws := call_clientId c in
  let parsedMessage := call_message c in
  try_catch ws
    (rows ← r;
     let updatedTask := head rows in
     taskId ← get parsedMessage "taskId";
     changes ← get parsedMessage "changes";
     status ← get changes "status";
     mret ([Query (InsertTaskActivity taskId (client_userId (call_client c))
                     ("Status changed from " ++ task_status currentTask
                      ++ " to " ++ to_string status)
                     NewDateNow)],
           Some (AwaitInsert c updatedTask))).

(** The task update after [await db.insert()...]. *)
Definition afterInsert (s : server) (c : TaskUpdateCall) (updatedTask : option Task)
    (r : completion (list TaskActivity)) : list effect * option pending :=
  let ws := call_clientId c in
  let client := call_client c in
  try_catch ws
    (rows ← r;
     match updatedTask with
     | Some updatedTask =>
         (* [activity.id] throws when the insert returned no row *)
         activity ← match head rows with Some a => Normal a | None => Throw end;
         let info :=
           {| info_id := activity_id activity;
              info_action := activity_action activity;
              info_createdAt := activity_createdAt activity;
              info_user_id := client_userId client;
              info_user_username := client_username client |} in
         mret ((broadcastToClients s (MsgTaskUpdate updatedTask info) (Some (call_clientId c))
                ++ [Send ws (MsgTaskUpdateSuccess updatedTask info)])%list,
               None)
     | None => mret ([], None)
     end).

Definition spawn (s : server) (p : pending) : server :=
  {| clients := clients s;
     performanceSubscribers := performanceSubscribers s;
     sockets := sockets s;
     suspended := suspended s ++ [p] |}.

(** The listener [ws.on('message', async (data) => ...)], up to its first
    await.  [data] is what [JSON.parse(data.toString())] gives. *)
Definition onMessage (s : server) (clientId : string) (data : option value)
  : server * list effect :=
  match data with
  | None =>
      (s, [Send clientId (MsgError "MESSAGE_PARSE_ERROR" (Some "Invalid message format"))])
  | Some parsedMessage =>
      match Map_get clientId (clients s) with
      | None => (s, [])
      | Some client =>
          match get parsedMessage "type" with
          | Throw => (s, [UnhandledRejection])
          | Normal type =>
              let (s1, e1) :=
                if strict_eq_str type "subscribe_team_performance" then
                  broadcastTeamPerformance
                    {| clients := clients s;
                       performanceSubscribers := Set_add clientId (performanceSubscribers s);
                       sockets := sockets s;
                       suspended := suspended s |}
                else (s, []) in
              match get parsedMessage "taskId", get parsedMessage "changes" with
              | Normal taskId, Normal changes =>
                  if strict_eq_str type "task_update" && truthy taskId && truthy changes
                  then
                    (spawn s1 (AwaitSelect {| call_clientId := clientId;
                                              call_client := client;
                                              call_message := parsedMessage |}),
                     (e1 ++ [Query (SelectTask taskId)])%list)
                  else (s1, e1)
              | _, _ => (s1, e1)
              end
          end
      end
  end.

Definition set_socket (s : server) (clientId : string) (sock : Socket) : server :=
  {| clients := clients s;
     performanceSubscribers := performanceSubscribers s;
     sockets := <[clientId := sock]> (sockets s);
     suspended := suspended s |}.

(** [ws.close()]: an open socket starts its closing handshake. *)
Definition ws_close (s : server) (clientId : string) : server :=
  match sockets s !! clientId with
  | Some sock =>
      match readyState sock with
      | OPEN => set_socket s clientId {| readyState := CLOSING; authPending := authPending sock |}
      | _ => s
      end
  | None => s
  end.

(** The listener [ws.once('message', (data) => ...)]: client
    authentication. *)
Definition onFirstMessage (s : server) (clientId : string) (data : option value)
  : server * list effect :=
  match (parsed ← match data with Some v => Normal v | None => Throw end;
         userId ← get parsed "userId";
         username ← get parsed "username";
         mret (userId, username)) with
  | Normal (userId, username) =>
      if truthy userId && truthy username then
        ({| clients := Map_set clientId
                         {| client_id := clientId; client_ws := clientId;
                            client_userId := userId; client_username := username |}
                         (clients s);
            performanceSubscribers := performanceSubscribers s;
            sockets := sockets s;
            suspended := suspended s |},
         [Send clientId (MsgConnected "Successfully connected to real-time updates")])
      else (s, [])
  | Throw => (ws_close s clientId, [CloseSocket clientId])
  end.

(** The listener [ws.on('close', ...)]. *)
Definition onClose (s : server) (clientId : string) : server :=
  {| clients := Map_delete clientId (clients s);
     performanceSubscribers := Set_delete clientId (performanceSubscribers s);
     sockets := sockets s;
     suspended := suspended s |}.

(** The callback of [setInterval]. *)
Definition onTick (s : server) : server * list effect :=
  if (0 <? Z.of_nat (length (performanceSubscribers s)))
  then broadcastTeamPerformance s
  else (s, []).

(** ** The hub as a transition system *)

(** What can happen to the server: a client connects (the hub names the
    connection with a fresh UUID), a message arrives on a socket, a socket
    reports that it has closed, the timer fires, or the data store answers
    the [n]-th suspended function. *)
Inductive event : Type :=
| Connection (clientId : string)
| Message (clientId : string) (data : option value)
| Close (clientId : string)
| Tick
| Answer (n : nat) (r : reply).

Definition resume (s : server) (p : pending) (r : reply)
  : option (list effect * option pending) :=
  match p, r with
  | AwaitSelect c, TaskRows rows => Some (afterSelect c rows)
  | AwaitUpdate c currentTask, TaskRows rows => Some (afterUpdate c currentTask rows)
  | AwaitInsert c updatedTask, ActivityRows rows => Some (afterInsert s c updatedTask rows)
  | AwaitTeamPerformance, Performance members => Some (afterTeamPerformance s members, None)
  | _, _ => None
  end.

Definition step (s : server) (e : event) : option (server * list effect) :=
  match e with
  | Connection clientId =>
      match sockets s !! clientId with
      | None =>
          if String.eqb clientId "" then None
          else Some (set_socket s clientId {| readyState := OPEN; authPending := true |}, [])
      | Some _ => None
      end
  | Message clientId data =>
      match sockets s !! clientId with
      | Some sock =>
          match readyState sock with
          | OPEN | CLOSING =>
              let (s1, e1) := onMessage s clientId data in
              if authPending sock then
                let (s2, e2) :=
                  onFirstMessage
                    (set_socket s1 clientId
                       {| readyState := readyState sock; authPending := false |})
                    clientId data in
                Some (s2, (e1 ++ e2)%list)
              else Some (s1, e1)
          | _ => None
          end
      | None => None
      end
  | Close clientId =>
      match sockets s !! clientId with
      | Some sock =>
          match readyState sock with
          | CLOSED => None
          | _ =>
              Some (onClose (set_socket s clientId
                               {| readyState := CLOSED; authPending := authPending sock |})
                            clientId,
                    [])
          end
      | None => None
      end
  | Tick => Some (onTick s)
  | Answer n r =>
      match suspended s !! n with
      | Some p =>
          match resume s p r with
          | Some (effects, next) =>
              Some ({| clients := clients s;
                       performanceSubscribers := performanceSubscribers s;
                       sockets := sockets s;
                       suspended := (delete n (suspended s) ++ option_list next)%list |},
                    effects)
          | None => None
          end
      | None => None
      end
  end.

Inductive reachable : server -> Prop :=
| reachable_initial : reachable initial
| reachable_step s e s' effects :
    reachable s -> step s e = Some (s', effects) -> reachable s'.

(** Runs a list of events, collecting the effects. *)
Fixpoint run (s : server) (es : list event) : option (server * list effect) :=
  match es with
  | [] => Some (s, [])
  | e :: r =>
      match step s e with
      | Some (s1, e1) =>
          match run s1 r with
          | Some (s2, e2) => Some (s2, (e1 ++ e2)%list)
          | None => None
          end
      | None => None
      end
  end.

(** ** Vocabulary of the properties *)

Definition registered (s : server) (clientId : string) : Prop :=
  is_Some (Map_get clientId (clients s)).

Definition subscribed (s : server) (clientId : string) : Prop :=
  clientId ∈ performanceSubscribers s.

(** The socket of a connection has reported its close. *)
Definition closed (s : server) (clientId : string) : Prop :=
  readyState <$> sockets s !! clientId = Some CLOSED.

(** The sockets an effect list sends to. *)
Definition recipients (effects : list effect) : list string :=
  flat_map (fun e => match e with Send ws _ => [ws] | _ => [] end) effects.

(** The condition under which the message listener treats a parsed
    message as a task update. *)
Definition handled_as_task_update (parsedMessage : value) : bool :=
  match get parsedMessage "type", get parsedMessage "taskId", get parsedMessage "changes" with
  | Normal type, Normal taskId, Normal changes =>
      strict_eq_str type "task_update" && truthy taskId && truthy changes
  | _, _, _ => false
  end.

(** The fields of a message, [undefined] where they cannot be read. *)
Definition field (v : value) (k : string) : value :=
  match get v k with
  | Normal x => x
  | Throw => VUndefined
  end.

(** ** The metrics as the specification defines them *)

Definition assigned_to (u : Z) (t : Task) : Prop := task_assignedTo t = Some u.

Definition is_completed (t : Task) : Prop := task_status t = "completed".

#[global] Instance assigned_to_dec u t : Decision (assigned_to u t).
Proof. unfold assigned_to. apply _. Defined.

#[global] Instance is_completed_dec t : Decision (is_completed t).
Proof. unfold is_completed. apply _. Defined.

(** Completed, and the completion timestamp is at most the deadline. *)
Definition on_time (t : Task) : Prop :=
  is_completed t /\
  match task_completedAt t, task_deadline t with
  | Some c, Some d => c <= d
  | _, _ => False
  end.

#[global] Instance on_time_dec t : Decision (on_time t).
Proof.
  unfold on_time, is_completed.
  destruct (task_completedAt t), (task_deadline t); apply _.
Defined.

Definition tasks_completed (db : database) (u : Z) : Z :=
  Z.of_nat (length (filter (fun t => assigned_to u t /\ is_completed t) (tasks db))).

Definition total_assigned (db : database) (u : Z) : Z :=
  Z.of_nat (length (filter (assigned_to u) (tasks db))).

Definition on_time_completed (db : database) (u : Z) : Z :=
  Z.of_nat (length (filter (fun t => assigned_to u t /\ on_time t) (tasks db))).

Definition comments_authored (db : database) (u : Z) : Z :=
  Z.of_nat (length (filter (fun c => comment_userId c = u) (documentComments db))).

Definition activity_records (db : database) (u : Z) : Z :=
  Z.of_nat (length (filter (fun a => activity_userId a = u) (taskActivities db))).

(** [round(x)] of a quotient [p / q] of integers, [q] positive: the
    nearest integer, in exact arithmetic.  The specification does not say
    where a half goes; here it goes up, as it does for [Math.round], and
    the halves that matter below (57.5, 26.5) go up under every common
    convention. *)
Definition round_half_up (p q : Z) : Z := (2 * p + q) / (2 * q).

(** [round(onTimeCompleted / totalAssigned * 100)]; if
    [totalAssigned == 0], defined as 100. *)
Definition spec_onTimeCompletion (onTimeCompleted totalAssigned : Z) : Z :=
  if totalAssigned =? 0 then 100
  else round_half_up (onTimeCompleted * 100) totalAssigned.

(** [min(100, count of task-activity records authored by the user)]. *)
Definition spec_collaborationScore (activityRecords : Z) : Z :=
  Z.min 100 activityRecords.

(** [round((tasksCompleted*40 + onTimeCompletionRate*30
           + min(documentComments*10,100)*15 + collaborationScore*15) / 100)]. *)
Definition spec_totalScore
    (tasksCompleted onTimeCompletionRate documentComments collaborationScore : Z) : Z :=
  round_half_up
    (tasksCompleted * 40 + onTimeCompletionRate * 30
     + Z.min (documentComments * 10) 100 * 15 + collaborationScore * 15)
    100.

(** The five metrics of a user as the specification defines them, as the
    numbers the snapshot would carry. *)
Definition spec_metrics (db : database) (u : Z) : Metrics :=
  let onTimeCompletionRate :=
    spec_onTimeCompletion (on_time_completed db u) (total_assigned db u) in
  let collaborationScore := spec_collaborationScore (activity_records db u) in
  {| tasksCompleted := num (tasks_completed db u);
     onTimeCompletion := num onTimeCompletionRate;
     metrics_documentComments := num (comments_authored db u);
     collaborationScore := num collaborationScore;
     totalScore :=
       num (spec_totalScore (tasks_completed db u) onTimeCompletionRate
                            (comments_authored db u) collaborationScore) |}.

(** ** The source's expressions as functions of the counts *)

(** [onTimeCompletionRate] (lines 80-82) as a function of the two counts
    it is computed from. *)
Definition onTimeCompletionRate (onTimeTasks totalTasks : Z) : number :=
  if 0 <? totalTasks
  then Math_round (js_mul (js_div (num onTimeTasks) (num totalTasks)) (num 100))
  else num 100.

(** [totalScore] (lines 99-104) as a function of the two counts and the
    two scores it is computed from. *)
Definition weightedScore (tasksCompleted : Z) (onTimeCompletionRate : number)
    (comments : Z) (collaborationScore : number) : number :=
  Math_round
    (js_div
       (js_add
          (js_add
             (js_add (js_mul (num tasksCompleted) (num 40))
                     (js_mul onTimeCompletionRate (num 30)))
             (js_mul (Math_min (js_mul (num comments) (num 10)) (num 100))
                     (num 15)))
          (js_mul collaborationScore (num 15)))
       (num 100)).

(** A positive shifted to the left. *)
Definition shl (p : positive) (k : Z) : positive :=
  match k with
  | Zpos j => Pos.iter xO p j
  | _ => p
  end.

(** The percentage is an exact half: [100 * a / b = n + 1/2]. *)
Definition exact_half (onTimeCompleted totalAssigned : Z) : bool :=
  (200 * onTimeCompleted) mod (2 * totalAssigned) =? totalAssigned.

(** The double computation of the on-time rate gives the specification's
    value, or one less at an exact half. *)
Definition percentage_agrees (onTimeCompleted totalAssigned : Z) : bool :=
  let r := spec_onTimeCompletion onTimeCompleted totalAssigned in
  number_eqb (onTimeCompletionRate onTimeCompleted totalAssigned) (num r)
  || exact_half onTimeCompleted totalAssigned
     && number_eqb (onTimeCompletionRate onTimeCompleted totalAssigned) (num (r - 1)).

(** The double quotient by 100, rounded by [Math.round], is the exact
    quotient rounded. *)
Definition quotient_agrees (n : Z) : bool :=
  number_eqb (Math_round (js_div (num n) (num 100))) (num (round_half_up n 100)).

Definition is_team_member (u : User) : Prop := user_role u = "team_member".

#[global] Instance is_team_member_dec u : Decision (is_team_member u).
Proof. unfold is_team_member. apply _. Defined.

(** The targets the specification's table allows from a status. *)
Definition allowed_next (current : string) : list string :=
  map snd (filter (fun p => p.1 = current) transition_table).

(** What a task update asks for: [parsedMessage.changes.status] and its
    neighbours. *)
Definition requested_status (m : value) : value :=
  field (field m "changes") "status".

(** The connection ids of the registry, in insertion order. *)
Definition connection_ids (s : server) : list string := (clients s).*1.

(** What holds of the registry, the subscription set and the sockets in
    every state the server can reach. *)
Record hub_invariant (s : server) : Prop := {
  inv_subscribed : forall k, k ∈ performanceSubscribers s -> registered s k;
  inv_client : forall k c, (k, c) ∈ clients s -> client_id c = k /\ client_ws c = k;
  inv_socket : forall k, registered s k ->
    exists sock, sockets s !! k = Some sock /\
                 (readyState sock = OPEN \/ readyState sock = CLOSING) /\
                 authPending sock = false;
  inv_ids : forall k, is_Some (sockets s !! k) -> k <> "";
  inv_keys : NoDup (connection_ids s);
  inv_subscribers_nodup : NoDup (performanceSubscribers s)
}.

(** The state of the server after a history of events. *)
Definition after (history : list event) : server :=
  match run initial history with
  | Some (s, _) => s
  | None => initial
  end.

(** ** Sample data *)

Definition handshake (userId : Z) (username : string) : value :=
  VObj [("userId", VNum userId); ("username", VStr username)].

Definition subscribe_message : value :=
  VObj [("type", VStr "subscribe_team_performance")].

Definition task_update_message (taskId : Z) (status : string) (completedAt : value)
  : value :=
  VObj [("type", VStr "task_update"); ("taskId", VNum taskId);
        ("changes", VObj [("status", VStr status);
                          ("completedAt", completedAt);
                          ("updatedAt", VStr "2024-05-02T10:00:00.000Z")])].

Definition sample_task (id : Z) (status : string) : Task :=
  {| task_id := id; task_assignedTo := Some 1; task_status := status;
     task_deadline := None; task_completedAt := None; task_updatedAt := None |}.

Definition sample_activity : TaskActivity :=
  {| activity_id := 10; activity_taskId := 7; activity_userId := 1;
     activity_action := "Status changed from pending to in_progress";
     activity_createdAt := 1714644000000 |}.

Definition sample_client : Client :=
  {| client_id := "c1"; client_ws := "c1";
     client_userId := VNum 1; client_username := VStr "ann" |}.


(** A team member with five assigned tasks, all completed by their
    deadline, three comments and two activity records, next to an
    administrator. *)
Definition on_time_task (id : Z) : Task :=
  {| task_id := id; task_assignedTo := Some 1; task_status := "completed";
     task_deadline := Some 1714644000000; task_completedAt := Some 1714640000000;
     task_updatedAt := Some 1714640000000 |}.

Definition sample_database : database :=
  {| users := [ {| user_id := 1; user_username := "ann"; user_fullName := "Ann Lee";
                   user_role := "team_member" |};
                {| user_id := 2; user_username := "bob"; user_fullName := "Bob Ray";
                   user_role := "admin" |} ];
     tasks := map on_time_task [1; 2; 3; 4; 5];
     taskActivities :=
       [ {| activity_id := 1; activity_taskId := 1; activity_userId := 1;
            activity_action := "Status changed from pending to completed";
            activity_createdAt := 1714640000000 |};
         {| activity_id := 2; activity_taskId := 2; activity_userId := 1;
            activity_action := "Status changed from pending to completed";
            activity_createdAt := 1714640000000 |};
         {| activity_id := 3; activity_taskId := 2; activity_userId := 2;
            activity_action := "Status changed from pending to in_progress";
            activity_createdAt := 1714630000000 |} ];
     documentComments :=
       [ {| comment_id := 1; comment_userId := 1 |};
         {| comment_id := 2; comment_userId := 1 |};
         {| comment_id := 3; comment_userId := 2 |};
         {| comment_id := 4; comment_userId := 1 |} ] |}.

(** Two authenticated connections, the first subscribed to team
    performance; a third connection that has closed. *)
Definition sample_history : list event :=
  [ Connection "c1"; Message "c1" (Some (handshake 1 "ann"));
    Connection "c2"; Message "c2" (Some (handshake 2 "bob"));
    Connection "c3"; Message "c3" (Some (handshake 3 "cy"));
    Message "c1" (Some subscribe_message);
    Message "c3" (Some subscribe_message);
    Close "c3" ].

(** ** Suspended task updates *)

(** The connection a suspended function works for; the performance
    broadcast works for none. *)
Definition requester (p : pending) : option string :=
  match p with
  | AwaitSelect c | AwaitUpdate c _ | AwaitInsert c _ => Some (call_clientId c)
  | AwaitTeamPerformance => None
  end.

(** The connection an event's effects are caused by. *)
Definition origin (s : server) (e : event) : option string :=
  match e with
  | Message clientId _ => Some clientId
  | Answer n _ => suspended s !! n ≫= requester
  | Connection _ | Close _ | Tick => None
  end.

(** What the listener has checked before it suspends a task update. *)
Record call_invariant (c : TaskUpdateCall) : Prop := {
  call_nonempty : call_clientId c <> "";
  call_handled : handled_as_task_update (call_message c) = true;
  call_identity :
    client_id (call_client c) = call_clientId c /\
    client_ws (call_client c) = call_clientId c;
  call_credentials :
    truthy (client_userId (call_client c)) = true /\
    truthy (client_username (call_client c)) = true
}.

Definition pending_invariant (p : pending) : Prop :=
  match p with
  | AwaitSelect c | AwaitInsert c _ => call_invariant c
  | AwaitUpdate c currentTask =>
      call_invariant c /\
      exists next, requested_status (call_message c) = VStr next /\
                   In (task_status currentTask, next) transition_table
  | AwaitTeamPerformance => True
  end.

(** What holds of the registered credentials and of the suspended
    functions in every state the server can reach. *)
Record requests_invariant (s : server) : Prop := {
  inv_credentials : forall k c, (k, c) ∈ clients s ->
    truthy (client_userId c) = true /\ truthy (client_username c) = true;
  inv_suspended : Forall pending_invariant (suspended s)
}.

(** The first message of the connection has been received: its
    authentication listener is spent. *)
Definition spent (s : server) (clientId : string) : Prop :=
  exists sock, sockets s !! clientId = Some sock /\ authPending sock = false.

(** The task update a suspended function belongs to. *)
Definition call_of (p : pending) : option TaskUpdateCall :=
  match p with
  | AwaitSelect c | AwaitUpdate c _ | AwaitInsert c _ => Some c
  | AwaitTeamPerformance => None
  end.

(** The sender of a suspended task update has authenticated, and as long
    as it is registered its registry entry is the [client] that the
    listener read when the message arrived. *)
Definition registration_kept (s : server) (c : TaskUpdateCall) : Prop :=
  spent s (call_clientId c) /\
  forall client, Map_get (call_clientId c) (clients s) = Some client ->
                 client = call_client c.

(** The messages that answer one connection, and those that are fanned
    out. *)
Definition is_private (m : outbound) : bool :=
  match m with
  | MsgConnected _ | MsgError _ _ | MsgTaskUpdateSuccess _ _ => true
  | MsgTaskUpdate _ _ | MsgTeamPerformance _ => false
  end.

(** Why an event has an effect: the cases in which the listeners, the
    timer and the resumed functions send, close or query. *)
Inductive caused (s : server) : event -> effect -> Prop :=
| caused_parse_error clientId :
    caused s (Message clientId None)
      (Send clientId (MsgError "MESSAGE_PARSE_ERROR" (Some "Invalid message format")))
| caused_connected clientId data :
    caused s (Message clientId data)
      (Send clientId (MsgConnected "Successfully connected to real-time updates"))
| caused_bad_handshake clientId data sock :
    data = None \/ data = Some VNull \/ data = Some VUndefined ->
    sockets s !! clientId = Some sock -> authPending sock = true ->
    caused s (Message clientId data) (CloseSocket clientId)
| caused_unreadable clientId m :
    registered s clientId -> get m "type" = Throw ->
    caused s (Message clientId (Some m)) UnhandledRejection
| caused_subscription clientId m :
    registered s clientId -> field m "type" = VStr "subscribe_team_performance" ->
    caused s (Message clientId (Some m)) (Query TeamPerformanceQueries)
| caused_request clientId m :
    registered s clientId -> handled_as_task_update m = true ->
    caused s (Message clientId (Some m)) (Query (SelectTask (field m "taskId")))
| caused_tick :
    performanceSubscribers s <> [] ->
    caused s Tick (Query TeamPerformanceQueries)
| caused_error n r p c code text :
    suspended s !! n = Some p -> requester p = Some (call_clientId c) ->
    caused s (Answer n r) (Send (call_clientId c) (MsgError code text))
| caused_update n c currentTask rows target changes :
    suspended s !! n = Some (AwaitSelect c) ->
    In (task_status currentTask, target) transition_table ->
    set_status changes = VStr target ->
    truthy (field (call_message c) "taskId") = true ->
    caused s (Answer n (TaskRows (Normal (currentTask :: rows))))
      (Query (UpdateTask changes (field (call_message c) "taskId")))
| caused_insert n c currentTask rows target :
    suspended s !! n = Some (AwaitUpdate c currentTask) ->
    In (task_status currentTask, target) transition_table ->
    truthy (client_userId (call_client c)) = true ->
    caused s (Answer n (TaskRows (Normal rows)))
      (Query (InsertTaskActivity (field (call_message c) "taskId")
                (client_userId (call_client c))
                ("Status changed from " ++ task_status currentTask ++ " to " ++ target)
                NewDateNow))
| caused_broadcast n r c task info k :
    suspended s !! n = Some (AwaitInsert c (Some task)) ->
    k <> call_clientId c -> registered s k -> is_open s k = true ->
    caused s (Answer n r) (Send k (MsgTaskUpdate task info))
| caused_success n r c task info :
    suspended s !! n = Some (AwaitInsert c (Some task)) ->
    caused s (Answer n r) (Send (call_clientId c) (MsgTaskUpdateSuccess task info))
| caused_snapshot n r members k :
    suspended s !! n = Some AwaitTeamPerformance ->
    subscribed s k -> registered s k -> is_open s k = true ->
    caused s (Answer n r) (Send k (MsgTeamPerformance members))
| caused_failed_recomputation n :
    suspended s !! n = Some AwaitTeamPerformance ->
    caused s (Answer n (Performance Throw)) UnhandledRejection.

(** The effects of an event that follows a history. *)
Definition effects_after (history : list event) (e : event) : list effect :=
  match step (after history) e with
  | Some (_, effects) => effects
  | None => []
  end.

Definition two_connections : list event :=
  [ Connection "c1"; Message "c1" (Some (handshake 1 "ann"));
    Connection "c2"; Message "c2" (Some (handshake 2 "bob")) ].

(** Two authenticated connections; the first asks to move task 7 to
    in_progress, the store returns the pending task, then the updated
    task. *)
Definition update_requested : list event :=
  [ Connection "c1"; Message "c1" (Some (handshake 1 "ann"));
    Connection "c2"; Message "c2" (Some (handshake 2 "bob"));
    Message "c1" (Some (task_update_message 7 "in_progress" VNull)) ].

Definition task_read : list event :=
  (update_requested ++ [Answer 0 (TaskRows (Normal [sample_task 7 "pending"]))])%list.

Definition task_updated : list event :=
  (task_read ++ [Answer 0 (TaskRows (Normal [sample_task 7 "in_progress"]))])%list.

Definition sample_info : ActivityInfo :=
  {| info_id := 10;
     info_action := "Status changed from pending to in_progress";
     info_createdAt := 1714644000000;
     info_user_id := VNum 1;
     info_user_username := VStr "ann" |}.

Definition sample_changes : TaskChanges :=
  {| set_status := VStr "in_progress";
     set_completedAt := None;
     set_updatedAt := NewDate (VStr "2024-05-02T10:00:00.000Z") |}.

(** A team member whom no row of the tables names. *)
Definition new_member : User :=
  {| user_id := 3; user_username := "cy"; user_fullName := "Cy Moe";
     user_role := "team_member" |}.

Definition first_member : User :=
  {| user_id := 1; user_username := "ann"; user_fullName := "Ann Lee";
     user_role := "team_member" |}.

(** The sample tables with 150 activity records of user 1, one open task
    of user 1 in place of the completed ones, and in front of them a task
    of user 2. *)
Definition busy_database : database :=
  {| users := users sample_database;
     tasks := [ {| task_id := 9; task_assignedTo := Some 2; task_status := "pending";
                   task_deadline := None; task_completedAt := None;
                   task_updatedAt := None |};
                sample_task 7 "pending" ];
     taskActivities :=
       map (fun i => {| activity_id := i; activity_taskId := 7; activity_userId := 1;
                        activity_action := "Status changed from pending to in_progress";
                        activity_createdAt := 1714640000000 |})
           (seqZ 1 150);
     documentComments := documentComments sample_database |}.

(** The sample tables with a task of user 2 added, the comment of user 2
    removed and the activity records in reverse order. *)
Definition reordered_database : database :=
  {| users := users sample_database;
     tasks := {| task_id := 8; task_assignedTo := Some 2; task_status := "pending";
                 task_deadline := None; task_completedAt := None;
                 task_updatedAt := None |}
              :: map on_time_task [1; 2; 3; 4; 5];
     taskActivities :=
       [ {| activity_id := 3; activity_taskId := 2; activity_userId := 2;
            activity_action := "Status changed from pending to in_progress";
            activity_createdAt := 1714630000000 |};
         {| activity_id := 2; activity_taskId := 2; activity_userId := 1;
            activity_action := "Status changed from pending to completed";
            activity_createdAt := 1714640000000 |};
         {| activity_id := 1; activity_taskId := 1; activity_userId := 1;
            activity_action := "Status changed from pending to completed";
            activity_createdAt := 1714640000000 |} ];
     documentComments :=
       [ {| comment_id := 1; comment_userId := 1 |};
         {| comment_id := 2; comment_userId := 1 |};
         {| comment_id := 4; comment_userId := 1 |} ] |}.

(** No comments and no activity records; 40 tasks of user 1, of which 23
    were completed by their deadline and 17 are open. *)
Definition half_database : database :=
  {| users := users sample_database;
     tasks := (map on_time_task (seqZ 1 23)
               ++ map (fun i => sample_task i "pending") (seqZ 24 17))%list;
     taskActivities := [];
     documentComments := [] |}.

(** * Properties *)

(** ** The transition table *)

Lemma validTransitions_get_own current :
  In current task_statuses ->
  validTransitions_get current = OwnArray (allowed_next current).
Proof.
  unfold task_statuses; simpl.
  intros [<- | [<- | [<- | [<- | []]]]]; reflexivity.
Qed.

Lemma validTransitions_get_not_own current :
  ~ In current task_statuses ->
  validTransitions_get current =
    if existsb (String.eqb current) Object_prototype then Inherited else Missing.
Proof.
  intros H. unfold validTransitions_get, validTransitions, assoc.
  destruct (String.eqb_spec "pending" current) as [<- | _];
    [exfalso; apply H; simpl; tauto |].
  destruct (String.eqb_spec "in_progress" current) as [<- | _];
    [exfalso; apply H; simpl; tauto |].
  destruct (String.eqb_spec "completed" current) as [<- | _];
    [exfalso; apply H; simpl; tauto |].
  destruct (String.eqb_spec "cancelled" current) as [<- | _];
    [exfalso; apply H; simpl; tauto |].
  reflexivity.
Qed.

Lemma includes_In targets next :
  includes targets (VStr next) = true <-> In next targets.
Proof.
  unfold includes. rewrite existsb_exists. split.
  - intros (x & Hx & Heq). simpl in Heq. apply String.eqb_eq in Heq. now subst.
  - intros H. exists next. split; [assumption |]. simpl. apply String.eqb_refl.
Qed.

Lemma allowed_next_table current next :
  In next (allowed_next current) <-> In (current, next) transition_table.
Proof.
  unfold allowed_next. rewrite in_map_iff. split.
  - intros ([c n] & <- & H). apply list_elem_of_In, list_elem_of_filter in H.
    destruct H as [Hc H]. simpl in Hc. subst c. now apply list_elem_of_In.
  - intros H. exists (current, next). split; [reflexivity |].
    apply list_elem_of_In, list_elem_of_filter. split; [reflexivity |].
    now apply list_elem_of_In.
Qed.



(** A listed current status with an unlisted target is rejected, and the
    message enumerates the targets of that status. *)
Lemma validateTaskUpdate_unlisted_next current next :
  In current task_statuses ->
  includes (allowed_next current) next = false ->
  validateTaskUpdate current next =
    Normal {| isValid := false;
              message := Some ("Cannot change task status from '" ++ current
                               ++ "' to '" ++ to_string next
                               ++ "'. Valid transitions are: "
                               ++ join ", " (allowed_next current)) |}.
Proof.
  intros Hin Hnot. unfold validateTaskUpdate.
  rewrite (validTransitions_get_own _ Hin), Hnot. reflexivity.
Qed.


(** A current status naming a property inherited from [Object.prototype]
    makes the validation throw. *)
Lemma validateTaskUpdate_inherited_current current next :
  In current Object_prototype ->
  validateTaskUpdate current next = Throw.
Proof.
  unfold Object_prototype; simpl.
  intuition (subst; reflexivity).
Qed.

(** C1.  The table is reproduced for every listed pair
    ([validateTaskUpdate_valid_iff], [validateTaskUpdate_unlisted_next]),
    but not every current status outside the four keys is rejected with
    'Invalid current status: <current>': for the current status
    "constructor", which is none of the four keys, the lookup finds the
    inherited [Object.prototype.constructor], and the validation throws a
    TypeError instead of returning a rejection. *)
Theorem validateTaskUpdate_constructor_throws :
  ~ In "constructor" task_statuses /\
  validateTaskUpdate "constructor" (VStr "pending") = Throw /\
  validateTaskUpdate "constructor" (VStr "pending") <>
    Normal {| isValid := false;
              message := Some "Invalid current status: constructor" |}.
Proof.
  split; [| split].
  - unfold task_statuses; simpl. intuition discriminate.
  - reflexivity.
  - discriminate.
Qed.

(** ** Insertion-ordered maps and sets *)

Lemma assoc_Some_elem {V : Type} k (v : V) m : assoc k m = Some v -> (k, v) ∈ m.
Proof.
  induction m as [| [k' v'] m IH]; simpl; [discriminate |].
  destruct (String.eqb_spec k' k) as [-> | Hne].
  - intros [= ->]. apply list_elem_of_here.
  - intros H. apply list_elem_of_further. auto.
Qed.

Lemma assoc_is_Some {V : Type} k (m : list (string * V)) :
  is_Some (assoc k m) <-> k ∈ m.*1.
Proof.
  induction m as [| [k' v'] m IH]; simpl.
  - split; [intros [? [=]] | intros H; inversion H].
  - rewrite elem_of_cons. destruct (String.eqb_spec k' k) as [-> | Hne]; simpl.
    + split; eauto.
    + rewrite IH. split; [tauto | intros [-> | ?]; [contradiction | assumption]].
Qed.

Lemma assoc_None {V : Type} k (m : list (string * V)) :
  assoc k m = None <-> k ∉ m.*1.
Proof.
  rewrite <- assoc_is_Some, <- eq_None_not_Some. reflexivity.
Qed.

Lemma assoc_Map_set {V : Type} k (v : V) m k' :
  assoc k' (Map_set k v m) = if String.eqb k k' then Some v else assoc k' m.
Proof.
  induction m as [| [k0 v0] m IH]; simpl.
  - reflexivity.
  - destruct (String.eqb_spec k0 k) as [-> | Hne]; simpl.
    + destruct (String.eqb_spec k k'); reflexivity.
    + rewrite IH. destruct (String.eqb_spec k0 k') as [-> | Hne'];
        [| reflexivity].
      destruct (String.eqb_spec k k'); [congruence | reflexivity].
Qed.

Lemma elem_of_Map_set {V : Type} k (v : V) m x :
  x ∈ Map_set k v m -> x = (k, v) \/ x ∈ m.
Proof.
  induction m as [| [k0 v0] m IH]; simpl.
  - rewrite list_elem_of_singleton. tauto.
  - destruct (String.eqb_spec k0 k) as [-> | Hne]; rewrite !elem_of_cons;
      [tauto |].
    intros [-> | H]; [tauto |]. destruct (IH H); tauto.
Qed.

Lemma keys_Map_set {V : Type} k (v : V) m :
  (Map_set k v m).*1 = if decide (k ∈ m.*1) then m.*1 else (m.*1 ++ [k])%list.
Proof.
  induction m as [| [k0 v0] m IH].
  - reflexivity.
  - cbn [Map_set]. destruct (String.eqb_spec k0 k) as [-> | Hne];
      rewrite !fmap_cons; cbn [fst].
    + rewrite decide_True by apply list_elem_of_here. reflexivity.
    + rewrite IH. destruct (decide (k ∈ m.*1)) as [Hin | Hout].
      * rewrite decide_True by (now apply list_elem_of_further). reflexivity.
      * rewrite decide_False; [reflexivity |].
        rewrite elem_of_cons. intros [-> | ?]; contradiction.
Qed.

Lemma NoDup_keys_Map_set {V : Type} k (v : V) m :
  NoDup m.*1 -> NoDup (Map_set k v m).*1.
Proof.
  intros H. rewrite keys_Map_set.
  destruct (decide (k ∈ m.*1)) as [Hin | Hout]; [assumption |].
  apply NoDup_app. split; [assumption |]. split; [| apply NoDup_singleton].
  intros x Hx. rewrite list_elem_of_singleton. intros ->. contradiction.
Qed.

Lemma elem_of_Map_delete {V : Type} k (m : list (string * V)) x :
  x ∈ Map_delete k m <-> x.1 <> k /\ x ∈ m.
Proof. unfold Map_delete. now rewrite list_elem_of_filter. Qed.

Lemma keys_Map_delete {V : Type} k (m : list (string * V)) :
  (Map_delete k m).*1 = filter (fun x => x <> k) m.*1.
Proof.
  unfold Map_delete. induction m as [| [k0 v0] m IH]; [reflexivity |].
  rewrite fmap_cons. cbn [fst].
  destruct (decide (k0 = k)) as [-> | Hne].
  - rewrite !filter_cons_False by (cbn; intros H; now apply H). exact IH.
  - rewrite !filter_cons_True by (cbn; assumption).
    rewrite fmap_cons. cbn [fst]. now rewrite IH.
Qed.

Lemma elem_of_Set_add k s x : x ∈ Set_add k s <-> x = k \/ x ∈ s.
Proof.
  unfold Set_add, Set_has. destruct (existsb (String.eqb k) s) eqn:E.
  - apply existsb_exists in E. destruct E as (y & Hy & Heq).
    apply String.eqb_eq in Heq. subst y. apply list_elem_of_In in Hy.
    split; [tauto | intros [-> | ?]; assumption].
  - rewrite elem_of_app, list_elem_of_singleton. tauto.
Qed.

Lemma NoDup_Set_add k s : NoDup s -> NoDup (Set_add k s).
Proof.
  intros H. unfold Set_add, Set_has.
  destruct (existsb (String.eqb k) s) eqn:E; [assumption |].
  apply NoDup_app. split; [assumption |]. split; [| apply NoDup_singleton].
  intros x Hx. rewrite list_elem_of_singleton. intros ->.
  assert (existsb (String.eqb k) s = true); [| congruence].
  apply existsb_exists. exists k. split; [now apply list_elem_of_In |].
  apply String.eqb_refl.
Qed.

Lemma elem_of_Set_delete k s x : x ∈ Set_delete k s <-> x <> k /\ x ∈ s.
Proof. unfold Set_delete. now rewrite list_elem_of_filter. Qed.

(** ** The invariant of the hub *)

Lemma hub_invariant_ext s s' :
  clients s' = clients s ->
  performanceSubscribers s' = performanceSubscribers s ->
  sockets s' = sockets s ->
  hub_invariant s -> hub_invariant s'.
Proof.
  intros Hc Hp Hs [H1 H2 H3 H4 H5 H6].
  constructor; unfold registered, connection_ids in *; rewrite ?Hc, ?Hp, ?Hs; assumption.
Qed.

Lemma hub_invariant_initial : hub_invariant initial.
Proof.
  constructor; unfold registered, connection_ids; simpl.
  - intros k H. inversion H.
  - intros k c H. inversion H.
  - intros k [c [=]].
  - intros k [sock H]. rewrite lookup_empty in H. discriminate.
  - constructor.
  - constructor.
Qed.

Lemma hub_invariant_subscribe s k :
  registered s k -> hub_invariant s ->
  hub_invariant {| clients := clients s;
                   performanceSubscribers := Set_add k (performanceSubscribers s);
                   sockets := sockets s;
                   suspended := suspended s |}.
Proof.
  intros Hk [H1 H2 H3 H4 H5 H6].
  constructor; unfold registered, connection_ids in *; simpl; try assumption.
  - intros x Hx. apply elem_of_Set_add in Hx. destruct Hx as [-> | Hx]; auto.
  - now apply NoDup_Set_add.
Qed.

Lemma hub_invariant_set_socket s k sock :
  (registered s k ->
   (readyState sock = OPEN \/ readyState sock = CLOSING) /\ authPending sock = false) ->
  k <> "" ->
  hub_invariant s -> hub_invariant (set_socket s k sock).
Proof.
  intros Hk Hne [H1 H2 H3 H4 H5 H6].
  constructor; unfold registered, connection_ids in *; simpl; try assumption.
  - intros x Hx. destruct (decide (k = x)) as [-> | Hkx].
    + exists sock. rewrite lookup_insert_eq. split; [reflexivity |]. now apply Hk.
    + rewrite lookup_insert_ne by assumption. now apply H3.
  - intros x Hx. destruct (decide (k = x)) as [-> | Hkx]; [assumption |].
    rewrite lookup_insert_ne in Hx by assumption. now apply H4.
Qed.

Lemma hub_invariant_ws_close s k :
  hub_invariant s -> hub_invariant (ws_close s k).
Proof.
  intros Hinv. unfold ws_close.
  destruct (sockets s !! k) as [sock |] eqn:E; [| assumption].
  destruct (readyState sock) eqn:R; try assumption.
  apply hub_invariant_set_socket; [| | assumption].
  - intros Hk. destruct (inv_socket s Hinv k Hk) as (sock' & Hs & _ & Ha).
    rewrite E in Hs. injection Hs as <-. simpl. split; [tauto | assumption].
  - apply (inv_ids s Hinv). rewrite E. eauto.
Qed.

Lemma hub_invariant_register s k userId username sock :
  sockets s !! k = Some sock ->
  (readyState sock = OPEN \/ readyState sock = CLOSING) -> authPending sock = false ->
  hub_invariant s ->
  hub_invariant
    {| clients := Map_set k {| client_id := k; client_ws := k;
                               client_userId := userId;
                               client_username := username |} (clients s);
       performanceSubscribers := performanceSubscribers s;
       sockets := sockets s;
       suspended := suspended s |}.
Proof.
  intros Hs Hr Ha [H1 H2 H3 H4 H5 H6].
  constructor; unfold registered, connection_ids, Map_get in *; simpl; try assumption.
  - intros x Hx. rewrite assoc_Map_set. destruct (String.eqb k x); eauto.
  - intros x c Hx. apply elem_of_Map_set in Hx. destruct Hx as [[= -> ->] | Hx]; auto.
  - intros x. rewrite assoc_Map_set. destruct (String.eqb_spec k x) as [<- | Hne]; eauto.
  - now apply NoDup_keys_Map_set.
Qed.

Lemma hub_invariant_onClose s k sock :
  k <> "" ->
  hub_invariant s ->
  hub_invariant (onClose (set_socket s k sock) k).
Proof.
  intros Hk [H1 H2 H3 H4 H5 H6].
  assert (Hreg : forall x, is_Some (assoc x (Map_delete k (clients s))) ->
                           x <> k /\ is_Some (assoc x (clients s))).
  { intros x Hx. apply assoc_is_Some in Hx. rewrite keys_Map_delete in Hx.
    apply list_elem_of_filter in Hx. destruct Hx as [Hne Hx].
    split; [assumption |]. now apply assoc_is_Some. }
  constructor; unfold registered, connection_ids, Map_get, onClose in *; simpl.
  - intros x Hx. apply elem_of_Set_delete in Hx. destruct Hx as [Hne Hx].
    apply assoc_is_Some. rewrite keys_Map_delete. apply list_elem_of_filter.
    split; [assumption |]. apply assoc_is_Some. auto.
  - intros x c Hx. apply elem_of_Map_delete in Hx. destruct Hx as [_ Hx]. auto.
  - intros x Hx. destruct (Hreg x Hx) as [Hne Hx'].
    rewrite lookup_insert_ne by congruence. auto.
  - intros x Hx. destruct (decide (k = x)) as [<- | Hne]; [assumption |].
    rewrite lookup_insert_ne in Hx by assumption. auto.
  - rewrite keys_Map_delete. now apply NoDup_filter.
  - now apply NoDup_filter.
Qed.

Lemma onMessage_frame s clientId data s' effects :
  onMessage s clientId data = (s', effects) ->
  clients s' = clients s /\ sockets s' = sockets s /\
  (performanceSubscribers s' = performanceSubscribers s \/
   (registered s clientId /\
    performanceSubscribers s' = Set_add clientId (performanceSubscribers s))).
Proof.
  unfold onMessage, registered.
  destruct data as [parsedMessage |]; [| intros [= <- <-]; auto].
  destruct (Map_get clientId (clients s)) as [client |] eqn:E;
    [| intros [= <- <-]; auto].
  destruct (get parsedMessage "type") as [type |]; [| intros [= <- <-]; auto].
  destruct (strict_eq_str type "subscribe_team_performance");
    unfold broadcastTeamPerformance, spawn;
    destruct (get parsedMessage "taskId") as [taskId |];
    destruct (get parsedMessage "changes") as [changes |];
    try destruct (strict_eq_str type "task_update" && truthy taskId && truthy changes);
    intros [= <- <-]; simpl; eauto 6.
Qed.

Lemma hub_invariant_onMessage s clientId data s' effects :
  hub_invariant s ->
  onMessage s clientId data = (s', effects) ->
  hub_invariant s'.
Proof.
  intros Hinv H. apply onMessage_frame in H.
  destruct H as (Hc & Hs & [Hp | [Hreg Hp]]).
  - now apply (hub_invariant_ext s).
  - eapply hub_invariant_ext; [| | | apply (hub_invariant_subscribe s clientId Hreg Hinv)];
      simpl; assumption.
Qed.

Lemma hub_invariant_onFirstMessage s clientId data s' effects sock :
  sockets s !! clientId = Some sock ->
  (readyState sock = OPEN \/ readyState sock = CLOSING) -> authPending sock = false ->
  hub_invariant s ->
  onFirstMessage s clientId data = (s', effects) ->
  hub_invariant s'.
Proof.
  intros Hs Hr Ha Hinv. unfold onFirstMessage.
  destruct (_ ≫= _) as [[userId username] |].
  - destruct (truthy userId && truthy username); intros [= <- <-];
      [| assumption].
    now apply (hub_invariant_register s clientId userId username sock).
  - intros [= <- <-]. now apply hub_invariant_ws_close.
Qed.

Lemma step_invariant s e s' effects :
  hub_invariant s -> step s e = Some (s', effects) -> hub_invariant s'.
Proof.
  intros Hinv. destruct e as [clientId | clientId data | clientId | | n r]; simpl.
  - destruct (sockets s !! clientId) as [sock |] eqn:E; [discriminate |].
    destruct (String.eqb_spec clientId "") as [| Hne]; [discriminate |].
    intros [= <- <-]. apply hub_invariant_set_socket; [| assumption | assumption].
    intros Hreg. destruct (inv_socket s Hinv clientId Hreg) as (sock & Hs & _).
    congruence.
  - destruct (sockets s !! clientId) as [sock |] eqn:E; [| discriminate].
    assert (Hne : clientId <> "") by (apply (inv_ids s Hinv); rewrite E; eauto).
    assert (Hgo : (readyState sock = OPEN \/ readyState sock = CLOSING) ->
      match (let (s1, e1) := onMessage s clientId data in
             if authPending sock then
               let (s2, e2) :=
                 onFirstMessage
                   (set_socket s1 clientId
                      {| readyState := readyState sock; authPending := false |})
                   clientId data in
               Some (s2, (e1 ++ e2)%list)
             else Some (s1, e1)) with
      | Some (s'', _) => hub_invariant s''
      | None => True
      end).
    { intros Hr. destruct (onMessage s clientId data) as [s1 e1] eqn:E1.
      pose proof (hub_invariant_onMessage _ _ _ _ _ Hinv E1) as Hinv1.
      destruct (authPending sock); [| assumption].
      destruct (onFirstMessage _ clientId data) as [s2 e2] eqn:E2.
      eapply hub_invariant_onFirstMessage; [| | | | exact E2]; simpl.
      - apply lookup_insert_eq.
      - assumption.
      - reflexivity.
      - apply hub_invariant_set_socket; simpl; auto. }
    destruct (readyState sock); try discriminate;
      (intros H; rewrite H in Hgo; apply Hgo; tauto).
  - destruct (sockets s !! clientId) as [sock |] eqn:E; [| discriminate].
    assert (Hne : clientId <> "") by (apply (inv_ids s Hinv); rewrite E; eauto).
    destruct (readyState sock); try discriminate;
      intros [= <- <-]; now apply hub_invariant_onClose.
  - unfold onTick, broadcastTeamPerformance.
    destruct (0 <? _); intros [= <- <-]; [| assumption].
    now apply (hub_invariant_ext s).
  - destruct (suspended s !! n) as [p |]; [| discriminate].
    destruct (resume s p r) as [[effs next] |]; [| discriminate].
    intros [= <- <-]. now apply (hub_invariant_ext s).
Qed.

Lemma reachable_invariant s : reachable s -> hub_invariant s.
Proof.
  induction 1 as [| s e s' effects _ IH Hstep].
  - apply hub_invariant_initial.
  - exact (step_invariant s e s' effects IH Hstep).
Qed.

(** ** Fan-out in a reachable state *)

Lemma recipients_Send (f : string -> outbound) l :
  recipients (map (fun k => Send k (f k)) l) = l.
Proof.
  induction l as [| k l IH]; [reflexivity |]. simpl. now rewrite IH.
Qed.

(** Every subscriber that is registered through its own socket gets the
    snapshot when that socket is open. *)
Lemma afterTeamPerformance_sends s members :
  hub_invariant s ->
  afterTeamPerformance s (Normal members) =
    map (fun k => Send k (MsgTeamPerformance members))
        (filter (fun k => is_open s k = true) (performanceSubscribers s)).
Proof.
  intros Hinv. unfold afterTeamPerformance.
  assert (Hall : forall k, k ∈ performanceSubscribers s ->
            exists c, Map_get k (clients s) = Some c /\ client_ws c = k).
  { intros k Hk. destruct (inv_subscribed s Hinv k Hk) as [c Hc].
    exists c. split; [assumption |].
    apply (inv_client s Hinv). now apply assoc_Some_elem. }
  induction (performanceSubscribers s) as [| k l IH]; [reflexivity |].
  cbn [flat_map]. destruct (Hall k) as (c & -> & ->); [apply list_elem_of_here |].
  rewrite IH by (intros x Hx; apply Hall; now apply list_elem_of_further).
  destruct (is_open s k) eqn:E.
  - rewrite filter_cons_True by assumption. reflexivity.
  - rewrite filter_cons_False by congruence. reflexivity.
Qed.

(** A broadcast that excludes a connection reaches every other registered
    connection whose socket is open, once, in registration order. *)
Lemma broadcastToClients_sends s m clientId :
  hub_invariant s -> clientId <> "" ->
  broadcastToClients s m (Some clientId) =
    map (fun k => Send k m)
        (filter (fun k => k <> clientId /\ is_open s k = true) (connection_ids s)).
Proof.
  intros Hinv Hne. unfold broadcastToClients, connection_ids.
  assert (Hall : forall k c, (k, c) ∈ clients s -> client_ws c = k).
  { intros k c H. now apply (inv_client s Hinv). }
  apply String.eqb_neq in Hne. rewrite Hne. cbn [negb andb].
  induction (clients s) as [| [k c] l IH]; [reflexivity |].
  cbn [flat_map]. rewrite fmap_cons. cbn [fst].
  rewrite IH by (intros x y Hx; apply Hall; now apply list_elem_of_further).
  rewrite (Hall k c) by apply list_elem_of_here.
  destruct (String.eqb_spec k clientId) as [-> | Hk].
  - rewrite filter_cons_False by tauto. reflexivity.
  - destruct (is_open s k) eqn:E.
    + rewrite filter_cons_True by tauto. reflexivity.
    + rewrite filter_cons_False by (intros [_ ?]; congruence). reflexivity.
Qed.

(** ** Connections that have closed *)

Lemma run_reachable s es s' effects :
  reachable s -> run s es = Some (s', effects) -> reachable s'.
Proof.
  revert s effects. induction es as [| e es IH]; simpl; intros s effects Hs.
  - now intros [= <- <-].
  - destruct (step s e) as [[s1 e1] |] eqn:E; [| discriminate].
    destruct (run s1 es) as [[s2 e2] |] eqn:E2; [| discriminate].
    intros [= <- <-]. eapply IH; [| exact E2].
    eapply reachable_step; eassumption.
Qed.

Lemma onMessage_sockets s clientId data :
  sockets (onMessage s clientId data).1 = sockets s.
Proof.
  destruct (onMessage s clientId data) as [s' e] eqn:E.
  apply onMessage_frame in E. simpl. tauto.
Qed.

Lemma ws_close_closed s clientId k :
  closed s k -> closed (ws_close s clientId) k.
Proof.
  unfold closed, ws_close. intros H.
  destruct (sockets s !! clientId) as [sock |] eqn:E; [| assumption].
  destruct (readyState sock) eqn:R; try assumption.
  simpl. destruct (decide (clientId = k)) as [-> | Hne].
  - rewrite E in H. simpl in H. congruence.
  - now rewrite lookup_insert_ne.
Qed.

Lemma onFirstMessage_closed s clientId data k :
  closed s k -> closed (onFirstMessage s clientId data).1 k.
Proof.
  intros H. unfold onFirstMessage.
  destruct (_ ≫= _) as [[userId username] |]; simpl.
  - destruct (truthy userId && truthy username); assumption.
  - now apply ws_close_closed.
Qed.

(** A closed socket stays closed: its id is never given to another
    connection and no event reopens it. *)
Lemma step_closed s e s' effects k :
  closed s k -> step s e = Some (s', effects) -> closed s' k.
Proof.
  unfold closed at 1. intros Hk.
  destruct e as [clientId | clientId data | clientId | | n r]; simpl.
  - destruct (sockets s !! clientId) as [sock |] eqn:E; [discriminate |].
    destruct (String.eqb clientId ""); [discriminate |].
    intros [= <- <-]. unfold closed. simpl.
    rewrite lookup_insert_ne; [assumption |]. intros ->. rewrite E in Hk. discriminate.
  - destruct (sockets s !! clientId) as [sock |] eqn:E; [| discriminate].
    assert (Hne : readyState sock <> CLOSED -> clientId <> k).
    { intros Hr ->. rewrite E in Hk. simpl in Hk. congruence. }
    pose proof (onMessage_sockets s clientId data) as Hs.
    destruct (onMessage s clientId data) as [s1 e1]. simpl in Hs.
    assert (Hgo : readyState sock <> CLOSED ->
              (if authPending sock then
                 let (s2, e2) :=
                   onFirstMessage
                     (set_socket s1 clientId
                        {| readyState := readyState sock; authPending := false |})
                     clientId data in
                 Some (s2, (e1 ++ e2)%list)
               else Some (s1, e1)) = Some (s', effects) -> closed s' k).
    { intros Hr. specialize (Hne Hr). destruct (authPending sock).
      - pose proof (onFirstMessage_closed
                      (set_socket s1 clientId
                         {| readyState := readyState sock; authPending := false |})
                      clientId data k) as Hc.
        destruct (onFirstMessage _ clientId data) as [s2 e2]. simpl in Hc.
        intros [= <- <-]. apply Hc. unfold closed. simpl.
        rewrite lookup_insert_ne by assumption. now rewrite Hs.
      - intros [= <- <-]. unfold closed. now rewrite Hs. }
    destruct (readyState sock); try discriminate; apply Hgo; discriminate.
  - destruct (sockets s !! clientId) as [sock |] eqn:E; [| discriminate].
    assert (Hgo : forall st, closed (onClose (set_socket s clientId st) clientId) k \/
                             clientId = k).
    { intros st. destruct (decide (clientId = k)) as [-> | Hne]; [tauto |].
      left. unfold closed. simpl. now rewrite lookup_insert_ne. }
    destruct (readyState sock) eqn:R; try discriminate; intros [= <- <-];
      (destruct (Hgo {| readyState := CLOSED; authPending := authPending sock |})
         as [? | ->]; [assumption |]);
      unfold closed; simpl; now rewrite lookup_insert_eq.
  - unfold onTick, broadcastTeamPerformance.
    destruct (0 <? _); intros [= <- <-]; assumption.
  - destruct (suspended s !! n) as [p |]; [| discriminate].
    destruct (resume s p r) as [[effs next] |]; [| discriminate].
    intros [= <- <-]. assumption.
Qed.

Lemma run_closed s es s' effects k :
  closed s k -> run s es = Some (s', effects) -> closed s' k.
Proof.
  revert s effects. induction es as [| e es IH]; simpl; intros s effects Hs.
  - now intros [= <- <-].
  - destruct (step s e) as [[s1 e1] |] eqn:E; [| discriminate].
    destruct (run s1 es) as [[s2 e2] |] eqn:E2; [| discriminate].
    intros [= <- <-]. eapply IH; [| exact E2].
    eapply step_closed; eassumption.
Qed.

Lemma closed_not_registered s k : hub_invariant s -> closed s k -> ~ registered s k.
Proof.
  intros Hinv Hc Hreg. destruct (inv_socket s Hinv k Hreg) as (sock & Hs & Hr & _).
  unfold closed in Hc. rewrite Hs in Hc. simpl in Hc.
  destruct Hr; congruence.
Qed.

Lemma after_reachable history : reachable (after history).
Proof.
  unfold after. destruct (run initial history) as [[s e] |] eqn:E.
  - eapply run_reachable; [apply reachable_initial | exact E].
  - apply reachable_initial.
Qed.

Lemma onFirstMessage_subscribers s clientId data :
  performanceSubscribers (onFirstMessage s clientId data).1 = performanceSubscribers s.
Proof.
  unfold onFirstMessage, ws_close.
  destruct (_ ≫= _) as [[userId username] |]; simpl.
  - destruct (truthy userId && truthy username); reflexivity.
  - destruct (sockets s !! clientId) as [sock |]; [| reflexivity].
    destruct (readyState sock); reflexivity.
Qed.

Lemma recipients_afterTeamPerformance s r k :
  hub_invariant s ->
  k ∈ recipients (afterTeamPerformance s r) ->
  subscribed s k /\ registered s k /\ is_open s k = true.
Proof.
  intros Hinv. destruct r as [members |]; [| intros H; inversion H].
  rewrite (afterTeamPerformance_sends s members Hinv), recipients_Send.
  intros H. apply list_elem_of_filter in H. destruct H as [Ho Hk].
  split; [assumption |]. split; [| assumption]. now apply (inv_subscribed s Hinv).
Qed.

(** C8.  In every reachable state each subscribed connection id is a key
    of the registry, and every event keeps it so.  A message can only
    subscribe its own, registered sender; the close event removes the id
    from both collections, and in every later state the id is still in
    neither and no team-performance broadcast sends to it; a
    team-performance broadcast only sends to registered connections whose
    socket is open. *)
Theorem subscriptions_are_registered s :
  reachable s ->
  (forall k, subscribed s k -> registered s k) /\
  (forall e s' effects,
     step s e = Some (s', effects) ->
     forall k, subscribed s' k -> registered s' k) /\
  (forall clientId data s' effects,
     step s (Message clientId data) = Some (s', effects) ->
     forall k, subscribed s' k ->
               subscribed s k \/ (k = clientId /\ registered s clientId)) /\
  (forall clientId s' effects,
     step s (Close clientId) = Some (s', effects) ->
     ~ subscribed s' clientId /\ ~ registered s' clientId /\
     forall later s'' effects' r,
       run s' later = Some (s'', effects') ->
       ~ subscribed s'' clientId /\ ~ registered s'' clientId /\
       clientId ∉ recipients (afterTeamPerformance s'' r)) /\
  (forall r k, k ∈ recipients (afterTeamPerformance s r) ->
               registered s k /\ is_open s k = true).
Proof.
  intros Hreach. pose proof (reachable_invariant s Hreach) as Hinv.
  split; [exact (inv_subscribed s Hinv) |]. split; [| split; [| split]].
  - intros e s' effects Hstep.
    exact (inv_subscribed s' (step_invariant s e s' effects Hinv Hstep)).
  - intros clientId data s' effects. simpl.
    destruct (sockets s !! clientId) as [sock |]; [| discriminate].
    pose proof (onMessage_frame s clientId data) as Hf.
    destruct (onMessage s clientId data) as [s1 e1].
    destruct (Hf s1 e1 eq_refl) as (_ & _ & Hp).
    assert (Hgo : (if authPending sock then
                     let (s2, e2) :=
                       onFirstMessage
                         (set_socket s1 clientId
                            {| readyState := readyState sock; authPending := false |})
                         clientId data in
                     Some (s2, (e1 ++ e2)%list)
                   else Some (s1, e1)) = Some (s', effects) ->
                  performanceSubscribers s' = performanceSubscribers s1).
    { destruct (authPending sock); [| now intros [= <- <-]].
      pose proof (onFirstMessage_subscribers
                    (set_socket s1 clientId
                       {| readyState := readyState sock; authPending := false |})
                    clientId data) as Hs.
      destruct (onFirstMessage _ clientId data) as [s2 e2].
      intros [= <- <-]. exact Hs. }
    intros Hstep k Hk.
    assert (Heq : performanceSubscribers s' = performanceSubscribers s1)
      by (destruct (readyState sock); try discriminate; now apply Hgo).
    unfold subscribed in *. rewrite Heq in Hk.
    destruct Hp as [Hp | [Hreg Hp]]; rewrite Hp in Hk; [tauto |].
    apply elem_of_Set_add in Hk. destruct Hk as [-> | Hk]; tauto.
  - intros clientId s' effects Hstep.
    assert (Hclosed : closed s' clientId).
    { simpl in Hstep. destruct (sockets s !! clientId) as [sock |]; [| discriminate].
      destruct (readyState sock); try discriminate; injection Hstep as <- <-;
        unfold closed; simpl; now rewrite lookup_insert_eq. }
    assert (Hlater : forall s'', reachable s'' -> closed s'' clientId ->
              ~ subscribed s'' clientId /\ ~ registered s'' clientId /\
              forall r, clientId ∉ recipients (afterTeamPerformance s'' r)).
    { intros s'' Hr Hc. pose proof (reachable_invariant s'' Hr) as Hinv''.
      pose proof (closed_not_registered s'' clientId Hinv'' Hc) as Hnr.
      split; [| split].
      - intros Hsub. apply Hnr. now apply (inv_subscribed s'' Hinv'').
      - assumption.
      - intros r Hin. apply Hnr.
        now apply (recipients_afterTeamPerformance s'' r clientId Hinv''). }
    assert (Hreach' : reachable s') by (eapply reachable_step; eassumption).
    destruct (Hlater s' Hreach' Hclosed) as (H1 & H2 & _).
    split; [assumption |]. split; [assumption |].
    intros later s'' effects' r Hrun.
    destruct (Hlater s'' (run_reachable _ _ _ _ Hreach' Hrun)
                (run_closed _ _ _ _ _ Hclosed Hrun)) as (H3 & H4 & H5).
    auto.
  - intros r k Hk.
    now apply (recipients_afterTeamPerformance s r k Hinv).
Qed.

(** The sample history is one such state. *)
Lemma subscriptions_are_registered_witness :
  reachable (after sample_history) /\
  (forall k, subscribed (after sample_history) k -> registered (after sample_history) k).
Proof.
  split; [apply after_reachable |].
  apply (subscriptions_are_registered (after sample_history) (after_reachable _)).
Defined.

(** ** Task updates *)

Lemma append_assoc (a b c : string) : (a ++ b) ++ c = a ++ (b ++ c).
Proof.
  induction a as [| x a IH]; [reflexivity |].
  change (String x ((a ++ b) ++ c) = String x (a ++ (b ++ c))). now rewrite IH.
Qed.


Lemma get_field m k k' :
  (exists x, get m k' = Normal x) -> get m k = Normal (field m k).
Proof. unfold field. destruct m; simpl; intros [x H]; try discriminate; reflexivity. Qed.

Lemma handled_fields m :
  handled_as_task_update m = true ->
  (forall k, get m k = Normal (field m k)) /\
  strict_eq_str (field m "type") "task_update" = true /\
  truthy (field m "taskId") = true /\
  truthy (field m "changes") = true.
Proof.
  unfold handled_as_task_update.
  destruct (get m "type") as [type |] eqn:Et; [| discriminate].
  assert (Hget : forall k, get m k = Normal (field m k))
    by (intros k; apply (get_field m k "type"); eauto).
  rewrite !Hget. rewrite Hget in Et. injection Et as <-.
  intros H. apply andb_prop in H. destruct H as [H H3].
  apply andb_prop in H. destruct H as [H1 H2]. auto.
Qed.


Lemma task_update_not_subscribe type :
  strict_eq_str type "task_update" = true ->
  strict_eq_str type "subscribe_team_performance" = false.
Proof.
  destruct type; simpl; try discriminate.
  intros H. apply String.eqb_eq in H. now subst.
Qed.

Lemma includes_not_string targets v :
  (forall next, v <> VStr next) -> includes targets v = false.
Proof.
  intros H. unfold includes. induction targets as [| t l IH]; [reflexivity |].
  simpl. rewrite IH. destruct v; try reflexivity. now destruct (H s).
Qed.

(** A requested status that the table does not list after [current] is
    not found by [includes]. *)
Lemma not_in_table_includes current v :
  (forall next, v = VStr next -> ~ In (current, next) transition_table) ->
  includes (allowed_next current) v = false.
Proof.
  intros H. destruct (includes (allowed_next current) v) eqn:E; [| reflexivity].
  destruct v; try (rewrite includes_not_string in E; [discriminate | congruence]).
  apply includes_In, allowed_next_table in E. now destruct (H s eq_refl).
Qed.

Lemma registered_nonempty s clientId :
  hub_invariant s -> registered s clientId -> clientId <> "".
Proof.
  intros Hinv Hreg. destruct (inv_socket s Hinv clientId Hreg) as (sock & Hs & _).
  apply (inv_ids s Hinv). rewrite Hs. eauto.
Qed.

(** The message listener starts a task update by reading the task. *)
Lemma onMessage_task_update s clientId client m :
  Map_get clientId (clients s) = Some client ->
  handled_as_task_update m = true ->
  onMessage s clientId (Some m) =
    (spawn s (AwaitSelect {| call_clientId := clientId; call_client := client;
                             call_message := m |}),
     [Query (SelectTask (field m "taskId"))]).
Proof.
  intros Hc Hm. destruct (handled_fields m Hm) as (Hget & Ht & Hid & Hch).
  unfold onMessage. rewrite Hc, !Hget.
  rewrite (task_update_not_subscribe _ Ht), Ht, Hid, Hch. reflexivity.
Qed.







(** ** Messages that are not requests *)

Lemma strict_eq_str_false v t : v <> VStr t -> strict_eq_str v t = false.
Proof.
  destruct v; simpl; try reflexivity. intros H.
  destruct (String.eqb_spec s t); [subst; contradiction | reflexivity].
Qed.

Lemma step_message_authenticated s clientId data :
  hub_invariant s -> registered s clientId ->
  step s (Message clientId data) = Some (onMessage s clientId data).
Proof.
  intros Hinv Hreg. destruct (inv_socket s Hinv clientId Hreg) as (sock & Hs & Hr & Ha).
  simpl. rewrite Hs, Ha.
  destruct (onMessage s clientId data) as [s1 e1].
  destruct Hr as [-> | ->]; reflexivity.
Qed.

(** C6, as the code has it.  On an authenticated connection a message that
    is not JSON is answered with one [MESSAGE_PARSE_ERROR] error to the
    sender, and a JSON object whose type tag is not one of the two
    recognised kinds is ignored without any reply; in both cases the
    connection is not closed, no query is issued and the state of the hub
    is unchanged. *)
Theorem unparseable_and_unknown_messages s clientId :
  reachable s -> registered s clientId ->
  step s (Message clientId None) =
    Some (s, [Send clientId
                (MsgError "MESSAGE_PARSE_ERROR" (Some "Invalid message format"))]) /\
  (forall fields,
     field (VObj fields) "type" <> VStr "subscribe_team_performance" ->
     field (VObj fields) "type" <> VStr "task_update" ->
     step s (Message clientId (Some (VObj fields))) = Some (s, [])).
Proof.
  intros Hreach Hreg. pose proof (reachable_invariant s Hreach) as Hinv.
  split.
  - now rewrite (step_message_authenticated s clientId None Hinv Hreg).
  - intros fields H1 H2.
    rewrite (step_message_authenticated s clientId _ Hinv Hreg).
    destruct Hreg as [client Hc]. unfold onMessage. rewrite Hc.
    unfold field in H1, H2. cbn [get] in *.
    rewrite (strict_eq_str_false _ _ H1), (strict_eq_str_false _ _ H2).
    reflexivity.
Qed.

(** The first connection of the sample history sends what is not JSON. *)
Lemma unparseable_and_unknown_messages_witness :
  reachable (after sample_history) /\
  registered (after sample_history) "c1" /\
  step (after sample_history) (Message "c1" None) =
    Some (after sample_history,
          [Send "c1" (MsgError "MESSAGE_PARSE_ERROR" (Some "Invalid message format"))]).
Proof.
  split; [apply after_reachable |].
  split; [vm_compute; eauto |].
  apply (unparseable_and_unknown_messages (after sample_history) "c1"
           (after_reachable _)).
  vm_compute; eauto.
Defined.

(** C6, as stated, fails: a well-formed JSON object with an unknown type
    tag gets no [MESSAGE_PARSE_ERROR] reply, and no reply at all. *)
Lemma unknown_type_unanswered :
  Map_get "c1" (clients (after sample_history)) = Some sample_client /\
  step (after sample_history) (Message "c1" (Some (VObj [("type", VStr "ping")])))
    = Some (after sample_history, []).
Proof. vm_compute. split; reflexivity. Qed.

(** ** The handshake *)

(** A first message that is not JSON, or is the JSON value [null], is
    answered by closing the socket, and registers nothing. *)
Lemma handshake_unparseable_closes s clientId data :
  data = None \/ data = Some VNull ->
  onFirstMessage s clientId data = (ws_close s clientId, [CloseSocket clientId]).
Proof. intros [-> | ->]; reflexivity. Qed.

(** A first message in which [userId] or [username] is missing or falsy
    registers nothing. *)
Lemma handshake_missing_field_not_registered s clientId v :
  truthy (field v "userId") && truthy (field v "username") = false ->
  clients (onFirstMessage s clientId (Some v)).1 = clients s.
Proof.
  unfold onFirstMessage, field, ws_close.
  destruct v; cbn [get mbind completion_bind mret completion_ret fst];
    try (intros ->; reflexivity);
    intros _; destruct (sockets s !! clientId) as [sock |]; try reflexivity;
    destruct (readyState sock); reflexivity.
Qed.

(** ... but when the first message is a JSON object, the socket is not
    closed either. *)
Lemma handshake_missing_field_not_closed s clientId fields :
  truthy (field (VObj fields) "userId") && truthy (field (VObj fields) "username") = false ->
  onFirstMessage s clientId (Some (VObj fields)) = (s, []).
Proof.
  unfold onFirstMessage, field.
  cbn [get mbind completion_bind mret completion_ret]. now intros ->.
Qed.

(** C5.  A first message that cannot be parsed closes the channel and
    registers nothing ([handshake_unparseable_closes]), and a first
    message without [userId] or [username] registers nothing
    ([handshake_missing_field_not_registered]); but the channel of the
    latter is not closed: after the handshake [{"userId": 1}] nothing was
    sent or closed, the socket is still open and the registry is empty. *)
Theorem handshake_without_username_stays_open :
  exists s,
    run initial [Connection "c1"; Message "c1" (Some (VObj [("userId", VNum 1)]))]
      = Some (s, []) /\
    is_open s "c1" = true /\
    Map_get "c1" (clients s) = None.
Proof. eexists. vm_compute. repeat split; reflexivity. Qed.

(** ** Subscribing to team performance *)



(** ** Team performance *)

(** *** Integers as doubles *)

Lemma digits2_pos_iter p n :
  digits2_pos (Pos.iter xO p n) = (digits2_pos p + n)%positive.
Proof.
  induction n as [| n IH] using Pos.peano_ind.
  - cbn. lia.
  - rewrite Pos.iter_succ. cbn [digits2_pos]. rewrite IH. lia.
Qed.

Lemma digits2_pos_bounds p :
  2 ^ (Zpos (digits2_pos p) - 1) <= Zpos p < 2 ^ Zpos (digits2_pos p).
Proof.
  induction p as [p IH | p IH |]; cbn [digits2_pos].
  - rewrite Pos2Z.inj_succ.
    replace (Z.succ (Zpos (digits2_pos p)) - 1) with (Zpos (digits2_pos p)) by lia.
    rewrite Z.pow_succ_r by lia.
    replace (2 ^ Zpos (digits2_pos p)) with (2 * 2 ^ (Zpos (digits2_pos p) - 1)) in *
      by (rewrite <- Z.pow_succ_r by lia; f_equal; lia).
    lia.
  - rewrite Pos2Z.inj_succ.
    replace (Z.succ (Zpos (digits2_pos p)) - 1) with (Zpos (digits2_pos p)) by lia.
    rewrite Z.pow_succ_r by lia.
    replace (2 ^ Zpos (digits2_pos p)) with (2 * 2 ^ (Zpos (digits2_pos p) - 1)) in *
      by (rewrite <- Z.pow_succ_r by lia; f_equal; lia).
    lia.
  - cbn. lia.
Qed.

Lemma digits2_pos_le p : Zpos p < 2 ^ 53 -> Zpos (digits2_pos p) <= 53.
Proof.
  intros Hp. pose proof (digits2_pos_bounds p) as [Hlo _].
  destruct (Z.le_gt_cases (Zpos (digits2_pos p)) 53) as [H | H]; [exact H |].
  assert (2 ^ 53 <= 2 ^ (Zpos (digits2_pos p) - 1)) by (apply Z.pow_le_mono_r; lia).
  lia.
Qed.

Lemma digits2_pos_lt p q :
  Zpos (digits2_pos p) < Zpos (digits2_pos q) -> (p < q)%positive.
Proof.
  intros H. pose proof (digits2_pos_bounds p) as [_ Hp].
  pose proof (digits2_pos_bounds q) as [Hq _].
  assert (2 ^ Zpos (digits2_pos p) <= 2 ^ (Zpos (digits2_pos q) - 1))
    by (apply Z.pow_le_mono_r; lia).
  lia.
Qed.

(** A mantissa of 53 bits with an exponent in range is not rounded. *)
Lemma binary_round_aux_canonical s m e :
  Zpos (digits2_pos m) = 53 -> -1074 <= e <= 971 ->
  binary_round_aux prec emax s (Zpos m) e loc_Exact = S754_finite s m e.
Proof.
  intros Hd He. unfold binary_round_aux, shr_fexp.
  cbn [Zdigits2 shr_record_of_loc]. rewrite Hd.
  assert (Hf : fexp prec emax (53 + e) - e = 0).
  { unfold fexp, emin, prec, emax. lia. }
  rewrite Hf.
  cbn [shr shr_m loc_of_shr_record round_nearest_even Zdigits2 shr_record_of_loc].
  rewrite Hd, Hf. cbn [shr shr_m].
  unfold prec, emax. destruct (Z.leb_spec e (1024 - 53)); [reflexivity | lia].
Qed.

(** The double of a positive integer below 2^53: the integer shifted to 53
    bits. *)
Lemma num_pos p :
  Zpos (digits2_pos p) <= 53 ->
  num (Zpos p) =
    S754_finite false
      (match (53 - Zpos (digits2_pos p))%Z with
       | Zpos k => Pos.iter xO p k
       | _ => p
       end)
      (Zpos (digits2_pos p) - 53).
Proof.
  intros Hd. unfold num, binary_normalize, binary_round, shl_align.
  assert (Hf : fexp prec emax (Zpos (digits2_pos p) + 0) = Zpos (digits2_pos p) - 53).
  { unfold fexp, emin, prec, emax. lia. }
  rewrite Hf. rewrite Z.sub_0_r.
  destruct (Zpos (digits2_pos p) - 53) as [| k | k] eqn:Ek; [| lia |].
  - replace (53 - Zpos (digits2_pos p)) with 0 by lia.
    apply binary_round_aux_canonical; lia.
  - replace (53 - Zpos (digits2_pos p)) with (Zpos k) by lia.
    apply binary_round_aux_canonical; [| lia].
    rewrite digits2_pos_iter. lia.
Qed.

Lemma compare_iter p q k :
  Pos.compare (Pos.iter xO p k) (Pos.iter xO q k) = Pos.compare p q.
Proof.
  induction k as [| k IH] using Pos.peano_ind.
  - reflexivity.
  - rewrite !Pos.iter_succ. exact IH.
Qed.

(** Doubles of integers below 2^53 compare as the integers do. *)
Lemma SFcompare_num p q :
  Zpos p < 2 ^ 53 -> Zpos q < 2 ^ 53 ->
  SFcompare (num (Zpos p)) (num (Zpos q)) = Some (Pos.compare p q).
Proof.
  intros Hp Hq. apply digits2_pos_le in Hp, Hq.
  rewrite (num_pos p Hp), (num_pos q Hq). cbn [SFcompare]. f_equal.
  destruct (Z.compare_spec (Zpos (digits2_pos p) - 53) (Zpos (digits2_pos q) - 53))
    as [He | Hl | Hg].
  - assert (Hd : digits2_pos p = digits2_pos q) by lia. rewrite Hd.
    destruct (53 - Zpos (digits2_pos q)); try reflexivity.
    apply compare_iter.
  - symmetry. apply Pos.compare_lt_iff. apply digits2_pos_lt. lia.
  - symmetry. apply Pos.compare_gt_iff. apply digits2_pos_lt. lia.
Qed.

Lemma Math_min_num a b :
  0 <= a < 2 ^ 53 -> 0 <= b < 2 ^ 53 ->
  Math_min (num a) (num b) = num (Z.min a b).
Proof.
  intros Ha Hb.
  destruct a as [| p | p]; [| | lia]; destruct b as [| q | q]; try lia.
  - reflexivity.
  - rewrite (num_pos q (digits2_pos_le q (proj2 Hb))). reflexivity.
  - rewrite (num_pos p (digits2_pos_le p (proj2 Ha))). reflexivity.
  - pose proof (SFcompare_num q p (proj2 Hb) (proj2 Ha)) as Hc.
    pose proof (num_pos p (digits2_pos_le p (proj2 Ha))) as Hx.
    pose proof (num_pos q (digits2_pos_le q (proj2 Hb))) as Hy.
    assert (Hmin : num (Z.min (Zpos p) (Zpos q)) =
                   if match Pos.compare q p with Lt => true | _ => false end
                   then num (Zpos q) else num (Zpos p)).
    { unfold Z.min. cbn [Z.compare]. rewrite (Pos.compare_antisym q p).
      destruct (Pos.compare q p); reflexivity. }
    rewrite Hmin.
    destruct (num (Zpos p)) as [| | | sx mx ex]; try discriminate.
    destruct (num (Zpos q)) as [| | | sy my ey]; try discriminate.
    unfold Math_min, SFltb. rewrite Hc.
    destruct (Pos.compare q p); reflexivity.
Qed.

Lemma div_eucl_shiftl m k :
  Z.div_eucl (Z.shiftl (Zpos m) (Zpos k)) (Zpos m) = (2 ^ Zpos k, 0).
Proof.
  assert (Hq : Z.shiftl (Zpos m) (Zpos k) / Zpos m = 2 ^ Zpos k).
  { rewrite Z.shiftl_mul_pow2 by lia. rewrite Z.mul_comm. apply Z.div_mul. lia. }
  assert (Hr : Z.shiftl (Zpos m) (Zpos k) mod Zpos m = 0).
  { rewrite Z.shiftl_mul_pow2 by lia. rewrite Z.mul_comm. apply Z.mod_mul. lia. }
  unfold Z.div, Z.modulo in Hq, Hr.
  destruct (Z.div_eucl (Z.shiftl (Zpos m) (Zpos k)) (Zpos m)) as [q r].
  cbn [fst snd] in *. congruence.
Qed.

(** An integer below 2^53 divided by itself is 1. *)
Lemma js_div_same p :
  Zpos p < 2 ^ 53 -> js_div (num (Zpos p)) (num (Zpos p)) = num 1.
Proof.
  intros Hp. rewrite (num_pos p (digits2_pos_le p Hp)).
  set (m := match (53 - Zpos (digits2_pos p))%Z with
            | Zpos k => Pos.iter xO p k
            | _ => p
            end).
  set (e := Zpos (digits2_pos p) - 53).
  unfold js_div, SFdiv, SFdiv_core_binary.
  replace (Zdigits2 (Zpos m) + e - (Zdigits2 (Zpos m) + e)) with 0 by lia.
  replace (e - e) with 0 by lia.
  change (Z.min (fexp prec emax 0) 0) with (-53).
  change (0 - -53) with 53.
  cbv beta iota zeta.
  rewrite div_eucl_shiftl.
  assert (Hl : new_location (Zpos m) 0 = loc_Exact).
  { unfold new_location. destruct (Z.even (Zpos m)); reflexivity. }
  rewrite Hl. reflexivity.
Qed.

Lemma js_div_zero p :
  Zpos p < 2 ^ 53 -> js_div (num 0) (num (Zpos p)) = num 0.
Proof.
  intros Hp. rewrite (num_pos p (digits2_pos_le p Hp)). reflexivity.
Qed.

Lemma Zpos_iter_xO p j : Zpos (Pos.iter xO p j) = Zpos p * 2 ^ Zpos j.
Proof.
  induction j as [| j IH] using Pos.peano_ind.
  - cbn. lia.
  - rewrite Pos.iter_succ, Pos2Z.inj_xO, IH, Pos2Z.inj_succ, Z.pow_succ_r by lia. lia.
Qed.

Lemma Zpos_shl p k : 0 <= k -> Zpos (shl p k) = Zpos p * 2 ^ k.
Proof.
  intros Hk. destruct k as [| j | j]; [cbn; lia | apply Zpos_iter_xO | lia].
Qed.

Lemma digits2_pos_shl p k :
  0 <= k -> Zpos (digits2_pos (shl p k)) = Zpos (digits2_pos p) + k.
Proof.
  intros Hk. destruct k as [| j | j]; [cbn; lia | | lia].
  cbn [shl]. rewrite digits2_pos_iter. lia.
Qed.

Lemma shl_unique M p k : 0 <= k -> Zpos M = Zpos p * 2 ^ k -> M = shl p k.
Proof.
  intros Hk H. rewrite <- (Zpos_shl p k Hk) in H. congruence.
Qed.

Lemma num_pos_shl p :
  Zpos p < 2 ^ 53 ->
  num (Zpos p) = S754_finite false (shl p (53 - Zpos (digits2_pos p)))
                             (Zpos (digits2_pos p) - 53).
Proof. intros Hp. apply num_pos. now apply digits2_pos_le. Qed.

Lemma iter_pos_eq {A : Type} (f : A -> A) p x : @SpecFloat.iter_pos A f p x = Pos.iter f x p.
Proof.
  revert x. induction p as [p IH | p IH |]; intros x; cbn [SpecFloat.iter_pos Pos.iter].
  - rewrite !IH. rewrite <- !Pos.iter_swap. reflexivity.
  - rewrite !IH. reflexivity.
  - reflexivity.
Qed.

Lemma iter_shr_1 m n :
  @SpecFloat.iter_pos shr_record shr_1 n
    {| shr_m := Zpos (Pos.iter xO m n); shr_r := false; shr_s := false |}
  = {| shr_m := Zpos m; shr_r := false; shr_s := false |}.
Proof.
  rewrite iter_pos_eq. induction n as [| n IH] using Pos.peano_ind.
  - reflexivity.
  - rewrite Pos.iter_succ_r, Pos.iter_succ. cbn [shr_1 orb]. exact IH.
Qed.

Lemma binary_round_aux_shifted s m n e :
  Zpos (digits2_pos m) = 53 -> -1074 <= e + Zpos n <= 971 ->
  binary_round_aux prec emax s (Zpos (Pos.iter xO m n)) e loc_Exact
  = S754_finite s m (e + Zpos n).
Proof.
  intros Hd He. unfold binary_round_aux, shr_fexp.
  cbn [Zdigits2 shr_record_of_loc]. rewrite digits2_pos_iter.
  assert (Hf : fexp prec emax (Zpos (digits2_pos m + n) + e) - e = Zpos n).
  { unfold fexp, emin, prec, emax. lia. }
  rewrite Hf. cbn [shr]. rewrite iter_shr_1.
  cbn [shr_m loc_of_shr_record round_nearest_even Zdigits2 shr_record_of_loc].
  rewrite Hd.
  assert (Hg : fexp prec emax (53 + (e + Zpos n)) - (e + Zpos n) = 0).
  { unfold fexp, emin, prec, emax. lia. }
  rewrite Hg. cbn [shr shr_m].
  unfold prec, emax. destruct (Z.leb_spec (e + Zpos n) (1024 - 53)); [reflexivity | lia].
Qed.

(** An integer below 2^53, given with a mantissa that is too long, is
    rounded to itself. *)
Lemma binary_round_aux_int p M k :
  Zpos p < 2 ^ 53 -> 53 - Zpos (digits2_pos p) <= k <= 1000 ->
  Zpos M = Zpos p * 2 ^ k ->
  binary_round_aux prec emax false (Zpos M) (- k) loc_Exact = num (Zpos p).
Proof.
  intros Hp Hk HM. pose proof (digits2_pos_le p Hp) as Hd.
  rewrite (num_pos_shl p Hp).
  set (m := shl p (53 - Zpos (digits2_pos p))).
  assert (Hm : Zpos (digits2_pos m) = 53).
  { unfold m. rewrite digits2_pos_shl by lia. lia. }
  destruct (Z.eq_dec k (53 - Zpos (digits2_pos p))) as [-> | Hne].
  - assert (M = m) as ->.
    { apply shl_unique; [lia | exact HM]. }
    replace (- (53 - Zpos (digits2_pos p))) with (Zpos (digits2_pos p) - 53) by lia.
    apply binary_round_aux_canonical; [exact Hm | lia].
  - destruct (k - (53 - Zpos (digits2_pos p))) as [| n | n] eqn:En; try lia.
    assert (M = Pos.iter xO m n) as ->.
    { apply Pos2Z.inj. rewrite Zpos_iter_xO. unfold m. rewrite Zpos_shl by lia.
      rewrite HM, <- Z.mul_assoc, <- Z.pow_add_r by lia. do 2 f_equal. lia. }
    replace (Zpos (digits2_pos p) - 53) with (- k + Zpos n) by lia.
    apply binary_round_aux_shifted; [exact Hm | lia].
Qed.

Lemma digits2_pos_mul p q :
  Zpos (digits2_pos p) + Zpos (digits2_pos q) - 1 <= Zpos (digits2_pos (p * q)).
Proof.
  pose proof (digits2_pos_bounds p) as [Hp _].
  pose proof (digits2_pos_bounds q) as [Hq _].
  pose proof (digits2_pos_bounds (p * q)) as [_ Hpq].
  destruct (Z.le_gt_cases (Zpos (digits2_pos p) + Zpos (digits2_pos q) - 1)
              (Zpos (digits2_pos (p * q)))) as [H | H]; [exact H | exfalso].
  assert (H1 : 2 ^ (Zpos (digits2_pos p) - 1) * 2 ^ (Zpos (digits2_pos q) - 1)
               <= Zpos p * Zpos q) by (apply Z.mul_le_mono_nonneg; lia).
  rewrite <- Z.pow_add_r in H1 by lia.
  assert (H2 : 2 ^ Zpos (digits2_pos (p * q))
               <= 2 ^ (Zpos (digits2_pos p) - 1 + (Zpos (digits2_pos q) - 1)))
    by (apply Z.pow_le_mono_r; lia).
  rewrite Pos2Z.inj_mul in Hpq. lia.
Qed.

Lemma js_mul_num a b :
  0 <= a < 2 ^ 53 -> 0 <= b < 2 ^ 53 -> a * b < 2 ^ 53 ->
  js_mul (num a) (num b) = num (a * b).
Proof.
  intros Ha Hb Hab.
  destruct a as [| p | p]; [| | lia]; destruct b as [| q | q]; try lia.
  - reflexivity.
  - rewrite Z.mul_0_l. rewrite (num_pos_shl q (proj2 Hb)). reflexivity.
  - rewrite Z.mul_0_r. rewrite (num_pos_shl p (proj2 Ha)). reflexivity.
  - destruct Ha as [_ Hp], Hb as [_ Hq].
    pose proof (digits2_pos_le p Hp). pose proof (digits2_pos_le q Hq).
    pose proof (digits2_pos_mul p q).
    rewrite (num_pos_shl p Hp), (num_pos_shl q Hq).
    unfold js_mul, SFmul. cbn [xorb].
    change (Zpos p * Zpos q) with (Zpos (p * q)).
    replace (Zpos (digits2_pos p) - 53 + (Zpos (digits2_pos q) - 53))
      with (- (106 - Zpos (digits2_pos p) - Zpos (digits2_pos q))) by lia.
    apply binary_round_aux_int; [exact Hab | lia |].
    rewrite !Pos2Z.inj_mul, !Zpos_shl by lia.
    replace (106 - Zpos (digits2_pos p) - Zpos (digits2_pos q))
      with ((53 - Zpos (digits2_pos p)) + (53 - Zpos (digits2_pos q))) by lia.
    rewrite Z.pow_add_r by lia. ring.
Qed.

Lemma shl_align_value m e e' :
  e' <= e ->
  snd (shl_align m e e') = e' /\ Zpos (fst (shl_align m e e')) = Zpos m * 2 ^ (e - e').
Proof.
  intros He. unfold shl_align.
  destruct (e' - e) as [| d | d] eqn:Ed; try lia.
  - assert (e' = e) as -> by lia. cbn [fst snd]. rewrite Z.sub_diag. split; lia.
  - cbn [fst snd]. split; [reflexivity |]. rewrite Zpos_iter_xO. do 2 f_equal. lia.
Qed.

Lemma js_add_num a b :
  0 <= a -> 0 <= b -> a + b < 2 ^ 53 ->
  js_add (num a) (num b) = num (a + b).
Proof.
  intros Ha Hb Hab.
  destruct a as [| p | p]; [| | lia]; destruct b as [| q | q]; try lia.
  - reflexivity.
  - assert (Hq : Zpos q < 2 ^ 53) by lia.
    rewrite Z.add_0_l. rewrite (num_pos_shl q Hq). reflexivity.
  - assert (Hp : Zpos p < 2 ^ 53) by lia.
    rewrite Z.add_0_r. rewrite (num_pos_shl p Hp). reflexivity.
  - assert (Hp : Zpos p < 2 ^ 53) by lia. assert (Hq : Zpos q < 2 ^ 53) by lia.
    pose proof (digits2_pos_le p Hp) as Hdp. pose proof (digits2_pos_le q Hq) as Hdq.
    change (Zpos p + Zpos q) with (Zpos (p + q)) in *.
    pose proof (digits2_pos_le (p + q) Hab) as Hd.
    assert (Hdp' : Zpos (digits2_pos p) <= Zpos (digits2_pos (p + q))).
    { destruct (Z.le_gt_cases (Zpos (digits2_pos p)) (Zpos (digits2_pos (p + q))));
        [assumption |].
      assert ((p + q < p)%positive) by (apply digits2_pos_lt; lia). lia. }
    assert (Hdq' : Zpos (digits2_pos q) <= Zpos (digits2_pos (p + q))).
    { destruct (Z.le_gt_cases (Zpos (digits2_pos q)) (Zpos (digits2_pos (p + q))));
        [assumption |].
      assert ((p + q < q)%positive) by (apply digits2_pos_lt; lia). lia. }
    rewrite (num_pos_shl p Hp), (num_pos_shl q Hq).
    set (mp := shl p (53 - Zpos (digits2_pos p))).
    set (mq := shl q (53 - Zpos (digits2_pos q))).
    set (ep := Zpos (digits2_pos p) - 53). set (eq := Zpos (digits2_pos q) - 53).
    unfold js_add, SFadd. cbn [cond_Zopp].
    set (ez := Z.min ep eq).
    destruct (shl_align_value mp ep ez ltac:(lia)) as [_ H1].
    destruct (shl_align_value mq eq ez ltac:(lia)) as [_ H2].
    set (x := fst (shl_align mp ep ez)) in *. set (y := fst (shl_align mq eq ez)) in *.
    change (Zpos x + Zpos y) with (Zpos (x + y)).
    assert (HS : Zpos (x + y) = Zpos (p + q) * 2 ^ (- ez)).
    { rewrite !Pos2Z.inj_add, H1, H2. unfold mp, mq. rewrite !Zpos_shl by lia.
      rewrite <- !Z.mul_assoc, <- !Z.pow_add_r by lia.
      replace (53 - Zpos (digits2_pos p) + (ep - ez)) with (- ez) by lia.
      replace (53 - Zpos (digits2_pos q) + (eq - ez)) with (- ez) by lia. ring. }
    assert (HD : Zpos (digits2_pos (x + y)) = Zpos (digits2_pos (p + q)) - ez).
    { rewrite (shl_unique _ _ (- ez) ltac:(lia) HS), digits2_pos_shl by lia. lia. }
    unfold binary_normalize, binary_round, shl_align.
    assert (Hf : fexp prec emax (Zpos (digits2_pos (x + y)) + ez) - ez
                 = Zpos (digits2_pos (p + q)) - 53 - ez).
    { rewrite HD. unfold fexp, emin, prec, emax. lia. }
    rewrite Hf.
    destruct (Zpos (digits2_pos (p + q)) - 53 - ez) as [| d | d] eqn:Ed; try lia.
    + replace ez with (- (- ez)) at 1 by lia.
      apply binary_round_aux_int; [exact Hab | lia | exact HS].
    + replace ez with (- (- ez)) at 1 by lia.
      apply binary_round_aux_int; [exact Hab | lia | exact HS].
Qed.

(** *** The counts and the source's expressions *)

Lemma count_filter {A : Type} (p : A -> bool) (P : A -> Prop)
    `{forall x, Decision (P x)} (l : list A) :
  (forall x, p x = true <-> P x) ->
  count p l = Z.of_nat (length (filter P l)).
Proof.
  intros Hp. unfold count. f_equal. f_equal. now apply list_filter_iff.
Qed.

Lemma count_nonneg {A : Type} (p : A -> bool) (l : list A) : 0 <= count p l.
Proof. unfold count. lia. Qed.

Lemma sql_eq_Some column x : sql_eq column x = true <-> column = Some x.
Proof.
  unfold sql_eq. destruct column as [y |]; [| split; discriminate].
  rewrite Z.eqb_eq. split; congruence.
Qed.

(** The SQL counts are the counts of the specification, and the metrics
    are the source's expressions applied to them. *)
Lemma memberPerformance_metrics db member :
  metrics (memberPerformance db member) =
    {| tasksCompleted := num (tasks_completed db (user_id member));
       onTimeCompletion :=
         onTimeCompletionRate (on_time_completed db (user_id member))
                              (total_assigned db (user_id member));
       metrics_documentComments := num (comments_authored db (user_id member));
       collaborationScore :=
         Math_min (num 100) (num (activity_records db (user_id member)));
       totalScore :=
         weightedScore (tasks_completed db (user_id member))
           (onTimeCompletionRate (on_time_completed db (user_id member))
                                 (total_assigned db (user_id member)))
           (comments_authored db (user_id member))
           (Math_min (num 100) (num (activity_records db (user_id member)))) |}.
Proof.
  unfold memberPerformance, onTimeCompletionRate, weightedScore,
    tasks_completed, total_assigned, on_time_completed, comments_authored,
    activity_records.
  cbn [metrics].
  rewrite <- (count_filter
                (fun t => sql_eq (task_assignedTo t) (user_id member)
                          && String.eqb (task_status t) "completed")
                (fun t => assigned_to (user_id member) t /\ is_completed t)).
  2:{ intros t. rewrite andb_true_iff, sql_eq_Some, String.eqb_eq. reflexivity. }
  rewrite <- (count_filter
                (fun t => sql_eq (task_assignedTo t) (user_id member))
                (assigned_to (user_id member))).
  2:{ intros t. apply sql_eq_Some. }
  rewrite <- (count_filter
                (fun t => sql_eq (task_assignedTo t) (user_id member)
                          && String.eqb (task_status t) "completed"
                          && sql_le (task_completedAt t) (task_deadline t))
                (fun t => assigned_to (user_id member) t /\ on_time t)).
  2:{ intros t. rewrite !andb_true_iff, sql_eq_Some, String.eqb_eq.
      unfold on_time, is_completed, assigned_to, sql_le.
      destruct (task_completedAt t), (task_deadline t);
        rewrite ?Z.leb_le; intuition discriminate. }
  rewrite <- (count_filter
                (fun c => comment_userId c =? user_id member)
                (fun c => comment_userId c = user_id member)).
  2:{ intros c. apply Z.eqb_eq. }
  rewrite <- (count_filter
                (fun a => activity_userId a =? user_id member)
                (fun a => activity_userId a = user_id member)).
  2:{ intros a. apply Z.eqb_eq. }
  reflexivity.
Qed.

Lemma number_eqb_eq x y : number_eqb x y = true -> x = y.
Proof.
  destruct x as [a | a | | a m e], y as [b | b | | b m' e']; simpl; try discriminate.
  - intros H. apply Bool.eqb_prop in H. now subst.
  - intros H. apply Bool.eqb_prop in H. now subst.
  - reflexivity.
  - intros H. apply andb_prop in H. destruct H as [H He].
    apply andb_prop in H. destruct H as [Hs Hm].
    apply Bool.eqb_prop in Hs. apply Pos.eqb_eq in Hm. apply Z.eqb_eq in He.
    now subst.
Qed.

Lemma filter_and_length {A : Type} (P Q : A -> Prop)
    `{forall x, Decision (P x)} `{forall x, Decision (Q x)} (l : list A) :
  (length (filter (fun x => P x /\ Q x) l) <= length (filter P l))%nat.
Proof.
  induction l as [| x l IH]; [reflexivity |].
  destruct (decide (P x)) as [Hp | Hp].
  - rewrite (filter_cons_True P x l Hp).
    destruct (decide (Q x)) as [Hq | Hq].
    + rewrite (filter_cons_True _ x l (conj Hp Hq)). cbn [length]. lia.
    + rewrite (filter_cons_False (fun x => P x /\ Q x) x l) by tauto. cbn [length]. lia.
  - rewrite (filter_cons_False P x l Hp).
    rewrite (filter_cons_False (fun x => P x /\ Q x) x l) by tauto. exact IH.
Qed.

Lemma filter_and_filter {A : Type} (P Q : A -> Prop)
    `{forall x, Decision (P x)} `{forall x, Decision (Q x)} (l : list A) :
  filter (fun x => P x /\ Q x) l = filter Q (filter P l).
Proof. rewrite list_filter_filter. apply list_filter_iff. tauto. Qed.

(** *** The doubles against the exact arithmetic *)

Lemma percentages_checked :
  forallb (fun b => forallb (fun a => percentage_agrees a b) (seqZ 0 (b + 1)))
          (seqZ 1 200) = true.
Proof. vm_cast_no_check (eq_refl true). Qed.

Lemma quotients_checked : forallb quotient_agrees (seqZ 0 14001) = true.
Proof. vm_cast_no_check (eq_refl true). Qed.

(** With at most 200 assigned tasks the on-time rate that the source
    computes in doubles is the exactly rounded percentage, or one less when
    the percentage is an exact half. *)
Lemma onTimeCompletionRate_agrees onTimeCompleted totalAssigned :
  0 <= onTimeCompleted <= totalAssigned -> 1 <= totalAssigned <= 200 ->
  onTimeCompletionRate onTimeCompleted totalAssigned
    = num (spec_onTimeCompletion onTimeCompleted totalAssigned) \/
  (exact_half onTimeCompleted totalAssigned = true /\
   onTimeCompletionRate onTimeCompleted totalAssigned
     = num (spec_onTimeCompletion onTimeCompleted totalAssigned - 1)).
Proof.
  intros Ha Hb. pose proof percentages_checked as Hall.
  rewrite forallb_forall in Hall.
  specialize (Hall totalAssigned). rewrite forallb_forall in Hall.
  assert (Hin : percentage_agrees onTimeCompleted totalAssigned = true).
  { apply Hall; apply list_elem_of_In, elem_of_seqZ; lia. }
  unfold percentage_agrees in Hin. apply orb_prop in Hin.
  destruct Hin as [Hin | Hin]; [left; now apply number_eqb_eq |].
  apply andb_prop in Hin. destruct Hin as [Hh Hin].
  right. split; [exact Hh | now apply number_eqb_eq].
Qed.

Lemma round_half_up_range p q :
  0 < q -> 0 <= p <= 100 * q -> 0 <= round_half_up p q <= 100.
Proof.
  intros Hq Hp. unfold round_half_up. split.
  - apply Z.div_pos; lia.
  - apply Z.lt_succ_r. apply Z.div_lt_upper_bound; lia.
Qed.

Lemma spec_onTimeCompletion_range onTimeCompleted totalAssigned :
  0 <= onTimeCompleted <= totalAssigned ->
  0 <= spec_onTimeCompletion onTimeCompleted totalAssigned <= 100.
Proof.
  intros Ha. unfold spec_onTimeCompletion.
  destruct (Z.eqb_spec totalAssigned 0); [lia |].
  apply round_half_up_range; lia.
Qed.

Lemma exact_half_positive onTimeCompleted totalAssigned :
  0 <= onTimeCompleted -> 0 < totalAssigned ->
  exact_half onTimeCompleted totalAssigned = true ->
  1 <= spec_onTimeCompletion onTimeCompleted totalAssigned.
Proof.
  intros Ha Hb Hh. unfold exact_half in Hh. apply Z.eqb_eq in Hh.
  unfold spec_onTimeCompletion, round_half_up.
  destruct (Z.eqb_spec totalAssigned 0); [lia |].
  pose proof (Z.mod_le (200 * onTimeCompleted) (2 * totalAssigned)
                ltac:(lia) ltac:(lia)).
  apply Z.div_le_lower_bound; lia.
Qed.

Lemma quotient_by_100 n :
  0 <= n <= 14000 ->
  Math_round (js_div (num n) (num 100)) = num (round_half_up n 100).
Proof.
  intros Hn. pose proof quotients_checked as Hall.
  rewrite forallb_forall in Hall. apply number_eqb_eq.
  apply (Hall n). apply list_elem_of_In, elem_of_seqZ. lia.
Qed.

(** On integers in range the total score that the source computes in
    doubles is the exactly rounded weighted sum: the products and the sums
    are exact, and so is the rounded quotient by 100. *)
Lemma weightedScore_exact tasksCompleted rate comments score :
  0 <= tasksCompleted <= 200 -> 0 <= rate <= 100 ->
  0 <= comments < 2 ^ 49 -> 0 <= score <= 100 ->
  weightedScore tasksCompleted (num rate) comments (num score)
    = num (spec_totalScore tasksCompleted rate comments score).
Proof.
  intros Ht Hr Hc Hs. unfold weightedScore, spec_totalScore.
  assert (H53 : 2 ^ 53 = 9007199254740992) by reflexivity.
  assert (H49 : 2 ^ 49 = 562949953421312) by reflexivity.
  rewrite (js_mul_num tasksCompleted 40) by lia.
  rewrite (js_mul_num rate 30) by lia.
  rewrite (js_mul_num comments 10) by lia.
  rewrite (Math_min_num (comments * 10) 100) by lia.
  rewrite (js_mul_num (Z.min (comments * 10) 100) 15) by lia.
  rewrite (js_mul_num score 15) by lia.
  rewrite (js_add_num (tasksCompleted * 40) (rate * 30)) by lia.
  rewrite (js_add_num (tasksCompleted * 40 + rate * 30)
             (Z.min (comments * 10) 100 * 15)) by lia.
  rewrite (js_add_num (tasksCompleted * 40 + rate * 30
                       + Z.min (comments * 10) 100 * 15) (score * 15)) by lia.
  apply quotient_by_100. lia.
Qed.

(** The part of C7 that holds.  For a team member with at most 200
    assigned tasks the five metrics are the doubles of the specification's
    integers, computed in exact arithmetic, with one exception: when the
    on-time percentage is an exact half, the on-time rate may be one less
    than the specification's, and the total score is then the
    specification's formula applied to that rate. *)
Lemma memberPerformance_agrees db member :
  total_assigned db (user_id member) <= 200 ->
  comments_authored db (user_id member) < 2 ^ 49 ->
  activity_records db (user_id member) < 2 ^ 53 ->
  exists rate,
    (rate = spec_onTimeCompletion (on_time_completed db (user_id member))
                                  (total_assigned db (user_id member)) \/
     (exact_half (on_time_completed db (user_id member))
                 (total_assigned db (user_id member)) = true /\
      rate = spec_onTimeCompletion (on_time_completed db (user_id member))
                                   (total_assigned db (user_id member)) - 1)) /\
    metrics (memberPerformance db member) =
      {| tasksCompleted := num (tasks_completed db (user_id member));
         onTimeCompletion := num rate;
         metrics_documentComments := num (comments_authored db (user_id member));
         collaborationScore :=
           num (spec_collaborationScore (activity_records db (user_id member)));
         totalScore :=
           num (spec_totalScore
                  (tasks_completed db (user_id member)) rate
                  (comments_authored db (user_id member))
                  (spec_collaborationScore
                     (activity_records db (user_id member)))) |}.
Proof.
  intros Ht Hc Ha. rewrite memberPerformance_metrics.
  set (u := user_id member) in *.
  assert (Htc : 0 <= tasks_completed db u <= total_assigned db u).
  { unfold tasks_completed, total_assigned.
    pose proof (filter_and_length (assigned_to u) is_completed (tasks db)). lia. }
  assert (Hot : 0 <= on_time_completed db u <= total_assigned db u).
  { unfold on_time_completed, total_assigned.
    pose proof (filter_and_length (assigned_to u) on_time (tasks db)). lia. }
  assert (Hco : 0 <= comments_authored db u) by (unfold comments_authored; lia).
  assert (Hac : 0 <= activity_records db u) by (unfold activity_records; lia).
  assert (H53 : 2 ^ 53 = 9007199254740992) by reflexivity.
  assert (Hmin : Math_min (num 100) (num (activity_records db u))
                 = num (spec_collaborationScore (activity_records db u))).
  { unfold spec_collaborationScore. apply Math_min_num; lia. }
  assert (Hrate : exists rate,
    0 <= rate <= 100 /\
    (rate = spec_onTimeCompletion (on_time_completed db u) (total_assigned db u) \/
     (exact_half (on_time_completed db u) (total_assigned db u) = true /\
      rate = spec_onTimeCompletion (on_time_completed db u) (total_assigned db u) - 1)) /\
    onTimeCompletionRate (on_time_completed db u) (total_assigned db u) = num rate).
  { pose proof (spec_onTimeCompletion_range _ _ Hot) as Hrange.
    destruct (Z.eq_dec (total_assigned db u) 0) as [H0 | H0].
    - exists (spec_onTimeCompletion (on_time_completed db u) (total_assigned db u)).
      split; [exact Hrange |]. split; [now left |].
      unfold onTimeCompletionRate, spec_onTimeCompletion. rewrite H0. reflexivity.
    - assert (Hb : 1 <= total_assigned db u <= 200) by lia.
      destruct (onTimeCompletionRate_agrees _ _ Hot Hb) as [H | [Hh H]].
      + eexists. split; [exact Hrange |]. split; [now left | exact H].
      + assert (Hpos : 0 < total_assigned db u) by lia.
        pose proof (exact_half_positive _ _ (proj1 Hot) Hpos Hh).
        eexists. split; [| split; [right; split; [exact Hh | reflexivity] | exact H]].
        lia. }
  destruct Hrate as (rate & Hr & Hcase & Hrate).
  exists rate. split; [exact Hcase |].
  rewrite Hrate, Hmin.
  rewrite (weightedScore_exact (tasks_completed db u) rate (comments_authored db u)
             (spec_collaborationScore (activity_records db u)));
    [reflexivity | lia | exact Hr | lia | unfold spec_collaborationScore; lia].
Qed.

(** Away from the exact halves the snapshot is the specification's: one
    entry per team-member user, in the order of the users, with the
    specification's metrics. *)
Lemma calculateTeamPerformance_spec db :
  (forall u, u ∈ users db -> is_team_member u ->
     total_assigned db (user_id u) <= 200 /\
     comments_authored db (user_id u) < 2 ^ 49 /\
     activity_records db (user_id u) < 2 ^ 53 /\
     exact_half (on_time_completed db (user_id u)) (total_assigned db (user_id u))
       = false) ->
  calculateTeamPerformance db =
    map (fun u => {| member_id := user_id u;
                     member_username := user_username u;
                     member_fullName := user_fullName u;
                     member_role := user_role u;
                     metrics := spec_metrics db (user_id u) |})
        (filter is_team_member (users db)).
Proof.
  intros Hall. unfold calculateTeamPerformance.
  assert (Hf : filter (fun u => String.eqb (user_role u) "team_member" = true) (users db)
               = filter is_team_member (users db)).
  { apply list_filter_iff. intros u. unfold is_team_member. apply String.eqb_eq. }
  rewrite Hf. apply map_ext_in. intros u Hu.
  apply list_elem_of_In, list_elem_of_filter in Hu. destruct Hu as [Hm Hu].
  destruct (Hall u Hu Hm) as (Ht & Hc & Ha & Hh).
  destruct (memberPerformance_agrees db u Ht Hc Ha) as (rate & [-> | [Hh' _]] & Hmet);
    [| congruence].
  unfold spec_metrics.
  unfold memberPerformance in *. cbn [metrics] in Hmet. now rewrite Hmet.
Qed.

(** The example of the specification: 5 completed of 5 assigned tasks, all
    on time, 3 comments and 2 activity records give 100, 2 and 37, in the
    source as in the specification. *)
Lemma team_performance_example :
  spec_onTimeCompletion 5 5 = 100 /\
  spec_collaborationScore 2 = 2 /\
  spec_totalScore 5 100 3 2 = 37 /\
  calculateTeamPerformance sample_database =
    [ {| member_id := 1; member_username := "ann"; member_fullName := "Ann Lee";
         member_role := "team_member";
         metrics := {| tasksCompleted := num 5;
                       onTimeCompletion := num 100;
                       metrics_documentComments := num 3;
                       collaborationScore := num 2;
                       totalScore := num 37 |} |} ] /\
  spec_metrics sample_database 1 =
    {| tasksCompleted := num 5;
       onTimeCompletion := num 100;
       metrics_documentComments := num 3;
       collaborationScore := num 2;
       totalScore := num 37 |}.
Proof. vm_compute. repeat split; reflexivity. Qed.

(** C7.  The metrics are not always the reference definitions: for a team
    member with 40 assigned tasks of which 23 were completed on time, and
    no comment or activity record, the specification's
    [round(23 / 40 * 100)] is [round(57.5) = 58] and its total score is
    [round((23*40 + 58*30) / 100) = round(26.6) = 27], but
    [calculateTeamPerformance] reports an on-time rate of 57 and a total
    score of 26: the source rounds the quotient 23/40 to a double before it
    scales it, and the product is just below 57.5. *)
Theorem onTimeCompletion_of_23_in_40 :
  tasks_completed half_database 1 = 23 /\
  total_assigned half_database 1 = 40 /\
  on_time_completed half_database 1 = 23 /\
  comments_authored half_database 1 = 0 /\
  activity_records half_database 1 = 0 /\
  spec_onTimeCompletion 23 40 = 58 /\
  spec_collaborationScore 0 = 0 /\
  spec_totalScore 23 58 0 0 = 27 /\
  calculateTeamPerformance half_database =
    [ {| member_id := 1; member_username := "ann"; member_fullName := "Ann Lee";
         member_role := "team_member";
         metrics := {| tasksCompleted := num 23;
                       onTimeCompletion := num 57;
                       metrics_documentComments := num 0;
                       collaborationScore := num 0;
                       totalScore := num 26 |} |} ] /\
  num 57 <> num 58 /\ num 26 <> num 27.
Proof. vm_compute. repeat split; try reflexivity; discriminate. Qed.

(** * Further properties of the hub *)

(** ** The transition table, continued *)

Lemma validateTaskUpdate_valid_listed current newStatus r :
  validateTaskUpdate current newStatus = Normal r ->
  isValid r = true ->
  exists next, newStatus = VStr next /\ In (current, next) transition_table.
Proof.
  unfold validateTaskUpdate.
  destruct (in_dec String.string_dec current task_statuses) as [Hin | Hout].
  - rewrite (validTransitions_get_own _ Hin).
    destruct (includes (allowed_next current) newStatus) eqn:E; simpl;
      intros [= <-]; [intros _ | discriminate].
    destruct newStatus; try (rewrite includes_not_string in E; [discriminate | congruence]).
    exists s. split; [reflexivity |]. now apply allowed_next_table, includes_In.
  - rewrite (validTransitions_get_not_own _ Hout).
    destruct (existsb _ _); [discriminate | intros [= <-]; discriminate].
Qed.

(** X1.  Only a string that the table lists after the current status is
    accepted: a requested status of any other type, or any other string,
    is never judged valid. *)
Theorem validateTaskUpdate_accepts_only_listed current newStatus r :
  validateTaskUpdate current newStatus = Normal r ->
  isValid r = true ->
  exists next, newStatus = VStr next /\ In (current, next) transition_table.
Proof. exact (validateTaskUpdate_valid_listed current newStatus r). Qed.

Lemma validateTaskUpdate_accepts_only_listed_witness :
  validateTaskUpdate "pending" (VStr "completed") =
    Normal {| isValid := true; message := None |} /\
  isValid {| isValid := true; message := None |} = true /\
  exists next, VStr "completed" = VStr next /\ In ("pending", next) transition_table.
Proof.
  split; [reflexivity |]. split; [reflexivity |].
  apply (validateTaskUpdate_accepts_only_listed "pending" (VStr "completed")
           {| isValid := true; message := None |}); reflexivity.
Defined.

(** X2.  No status can be changed to itself: for each of the four
    statuses the same status as target is rejected, with the message that
    lists the alternatives. *)
Theorem validateTaskUpdate_rejects_same_status status :
  In status task_statuses ->
  validateTaskUpdate status (VStr status) =
    Normal {| isValid := false;
              message := Some ("Cannot change task status from '" ++ status
                               ++ "' to '" ++ status
                               ++ "'. Valid transitions are: "
                               ++ join ", " (allowed_next status)) |}.
Proof.
  intros Hin.
  rewrite (validateTaskUpdate_unlisted_next status (VStr status) Hin); [reflexivity |].
  apply not_in_table_includes. intros next [= <-].
  unfold task_statuses in Hin. simpl in Hin.
  destruct Hin as [<- | [<- | [<- | [<- | []]]]]; simpl;
    intuition (try discriminate).
Qed.

Lemma validateTaskUpdate_rejects_same_status_witness :
  In "completed" task_statuses /\
  validateTaskUpdate "completed" (VStr "completed") =
    Normal {| isValid := false;
              message := Some ("Cannot change task status from '" ++ "completed"
                               ++ "' to '" ++ "completed"
                               ++ "'. Valid transitions are: "
                               ++ join ", " (allowed_next "completed")) |}.
Proof.
  split; [simpl; tauto |].
  apply (validateTaskUpdate_rejects_same_status "completed"). simpl; tauto.
Defined.

(** X3.  The table has no dead end: between two different statuses the
    change is accepted directly, or it is accepted by way of [pending]. *)
Theorem validateTaskUpdate_two_steps a b :
  In a task_statuses -> In b task_statuses -> a <> b ->
  validateTaskUpdate a (VStr b) = Normal {| isValid := true; message := None |} \/
  (validateTaskUpdate a (VStr "pending") = Normal {| isValid := true; message := None |} /\
   validateTaskUpdate "pending" (VStr b) = Normal {| isValid := true; message := None |}).
Proof.
  unfold task_statuses; simpl.
  intros [<- | [<- | [<- | [<- | []]]]] [<- | [<- | [<- | [<- | []]]]] Hne;
    try contradiction; (left; reflexivity) || (right; split; reflexivity).
Qed.

Lemma validateTaskUpdate_two_steps_witness :
  In "completed" task_statuses /\ In "cancelled" task_statuses /\
  "completed" <> "cancelled" /\
  (validateTaskUpdate "completed" (VStr "cancelled") =
     Normal {| isValid := true; message := None |} \/
   (validateTaskUpdate "completed" (VStr "pending") =
      Normal {| isValid := true; message := None |} /\
    validateTaskUpdate "pending" (VStr "cancelled") =
      Normal {| isValid := true; message := None |})).
Proof.
  split; [simpl; tauto |]. split; [simpl; tauto |]. split; [discriminate |].
  apply (validateTaskUpdate_two_steps "completed" "cancelled");
    [simpl; tauto | simpl; tauto | discriminate].
Defined.

(** ** What each listener can do *)

Lemma strict_eq_str_true v t : strict_eq_str v t = true -> v = VStr t.
Proof.
  destruct v; simpl; try discriminate. intros H. apply String.eqb_eq in H. now subst.
Qed.

Lemma field_get m k x : get m k = Normal x -> field m k = x.
Proof. unfold field. now intros ->. Qed.

(** The outcomes of the message listener, case by case. *)
Lemma onMessage_inv s clientId data s' effects :
  onMessage s clientId data = (s', effects) ->
  (data = None /\ s' = s /\
   effects = [Send clientId
                (MsgError "MESSAGE_PARSE_ERROR" (Some "Invalid message format"))]) \/
  (exists m, data = Some m /\ Map_get clientId (clients s) = None /\
             s' = s /\ effects = []) \/
  (exists m client, data = Some m /\ Map_get clientId (clients s) = Some client /\
     get m "type" = Throw /\ s' = s /\ effects = [UnhandledRejection]) \/
  (exists m client, data = Some m /\ Map_get clientId (clients s) = Some client /\
     field m "type" = VStr "subscribe_team_performance" /\
     s' = {| clients := clients s;
             performanceSubscribers := Set_add clientId (performanceSubscribers s);
             sockets := sockets s;
             suspended := (suspended s ++ [AwaitTeamPerformance])%list |} /\
     effects = [Query TeamPerformanceQueries]) \/
  (exists m client, data = Some m /\ Map_get clientId (clients s) = Some client /\
     handled_as_task_update m = true /\
     s' = spawn s (AwaitSelect {| call_clientId := clientId; call_client := client;
                                  call_message := m |}) /\
     effects = [Query (SelectTask (field m "taskId"))]) \/
  (exists m client, data = Some m /\ Map_get clientId (clients s) = Some client /\
     field m "type" <> VStr "subscribe_team_performance" /\
     handled_as_task_update m = false /\ s' = s /\ effects = []).
Proof.
  destruct data as [m |]; [| intros [= <- <-]; left; auto].
  destruct (Map_get clientId (clients s)) as [client |] eqn:Hc.
  2:{ unfold onMessage. rewrite Hc. intros [= <- <-]. right; left. eauto. }
  destruct (get m "type") as [type |] eqn:Ht.
  2:{ unfold onMessage. rewrite Hc, Ht. intros [= <- <-].
      right; right; left. exists m, client. auto. }
  destruct (handled_as_task_update m) eqn:Hm.
  - rewrite (onMessage_task_update s clientId client m Hc Hm). intros [= <- <-].
    do 4 right; left. exists m, client. auto.
  - assert (Hget : forall k, get m k = Normal (field m k))
      by (intros k; apply (get_field m k "type"); eauto).
    unfold onMessage. rewrite Hc, Ht.
    pose proof Hm as Hm'.
    unfold handled_as_task_update in Hm'. rewrite Ht, !Hget in Hm'.
    rewrite !Hget, Hm'.
    destruct (strict_eq_str type "subscribe_team_performance") eqn:Es.
    + apply strict_eq_str_true in Es. subst type.
      unfold broadcastTeamPerformance. cbn [suspended clients performanceSubscribers sockets].
      intros [= <- <-]. do 3 right; left. exists m, client.
      rewrite (field_get _ _ _ Ht). auto.
    + intros [= <- <-]. do 5 right. exists m, client.
      rewrite (field_get _ _ _ Ht). repeat split; auto.
      intros ->. simpl in Es. discriminate.
Qed.

(** The outcomes of the authentication listener. *)
Lemma onFirstMessage_inv s clientId data s' effects :
  onFirstMessage s clientId data = (s', effects) ->
  (exists v, data = Some v /\
     truthy (field v "userId") && truthy (field v "username") = true /\
     s' = {| clients := Map_set clientId
                          {| client_id := clientId; client_ws := clientId;
                             client_userId := field v "userId";
                             client_username := field v "username" |}
                          (clients s);
             performanceSubscribers := performanceSubscribers s;
             sockets := sockets s;
             suspended := suspended s |} /\
     effects = [Send clientId
                  (MsgConnected "Successfully connected to real-time updates")]) \/
  (exists v, data = Some v /\ (exists x, get v "userId" = Normal x) /\
     truthy (field v "userId") && truthy (field v "username") = false /\
     s' = s /\ effects = []) \/
  ((data = None \/ data = Some VNull \/ data = Some VUndefined) /\
   s' = ws_close s clientId /\ effects = [CloseSocket clientId]).
Proof.
  unfold onFirstMessage, field.
  destruct data as [v |]; [| intros [= <- <-]; right; right; auto].
  destruct v as [| | b | n | str | items | fields];
    cbn [get mbind completion_bind mret completion_ret].
  1,2: intros [= <- <-]; right; right; auto.
  1,2,3,4: intros [= <- <-]; right; left; eexists;
    (split; [reflexivity |]); (split; [eexists; reflexivity |]); auto.
  destruct (truthy (default VUndefined (assoc "userId" fields))
            && truthy (default VUndefined (assoc "username" fields))) eqn:E;
    intros [= <- <-].
  - left. eexists. split; [reflexivity |]. cbn [get]. rewrite E. auto.
  - right; left. eexists. split; [reflexivity |]. cbn [get]. rewrite E. eauto.
Qed.

(** The outcomes of a task update after its read. *)
Lemma afterSelect_inv c r effects next :
  afterSelect c r = (effects, next) ->
  (next = None /\
   exists code text, effects = [Send (call_clientId c) (MsgError code text)]) \/
  (exists currentTask rows target changes,
     r = Normal (currentTask :: rows) /\
     requested_status (call_message c) = VStr target /\
     In (task_status currentTask, target) transition_table /\
     set_status changes = VStr target /\
     effects = [Query (UpdateTask changes (field (call_message c) "taskId"))] /\
     next = Some (AwaitUpdate c currentTask)).
Proof.
  unfold afterSelect, requested_status.
  destruct r as [[| currentTask rows] |];
    cbn [mbind completion_bind mret completion_ret head try_catch];
    try (intros [= <- <-]; left; now eauto).
  destruct (get (call_message c) "changes") as [changes |] eqn:Ec;
    cbn [mbind completion_bind try_catch]; [| intros [= <- <-]; left; now eauto].
  destruct (get changes "status") as [status |] eqn:Es;
    cbn [mbind completion_bind try_catch]; [| intros [= <- <-]; left; now eauto].
  destruct (validateTaskUpdate (task_status currentTask) status) as [validation |] eqn:Ev;
    cbn [mbind completion_bind try_catch]; [| intros [= <- <-]; left; now eauto].
  destruct (isValid validation) eqn:Ei; cbn [negb];
    [| cbn [mret completion_ret try_catch]; intros [= <- <-]; left; now eauto].
  destruct (validateTaskUpdate_valid_listed _ _ _ Ev Ei) as (target & -> & Hin).
  destruct (get changes "completedAt") as [completedAt |];
    cbn [mbind completion_bind try_catch]; [| intros [= <- <-]; left; now eauto].
  destruct (get changes "updatedAt") as [updatedAt |];
    cbn [mbind completion_bind try_catch]; [| intros [= <- <-]; left; now eauto].
  destruct (get (call_message c) "taskId") as [taskId |] eqn:Et;
    cbn [mbind completion_bind mret completion_ret try_catch];
    [| intros [= <- <-]; left; now eauto].
  intros [= <- <-]. right.
  exists currentTask, rows, target. eexists.
  rewrite (field_get _ _ _ Ec), (field_get _ _ _ Es), (field_get _ _ _ Et).
  repeat split; [assumption | reflexivity].
Qed.

(** The outcomes of a task update after its update statement. *)
Lemma afterUpdate_inv c currentTask r effects next :
  afterUpdate c currentTask r = (effects, next) ->
  (next = None /\
   effects = [Send (call_clientId c)
                (MsgError "DATABASE_ERROR" (Some "Failed to update task in database"))]) \/
  (exists rows,
     r = Normal rows /\
     effects = [Query (InsertTaskActivity (field (call_message c) "taskId")
                         (client_userId (call_client c))
                         ("Status changed from " ++ task_status currentTask ++ " to "
                          ++ to_string (requested_status (call_message c)))
                         NewDateNow)] /\
     next = Some (AwaitInsert c (head rows))).
Proof.
  unfold afterUpdate, requested_status.
  destruct r as [rows |];
    cbn [mbind completion_bind mret completion_ret try_catch];
    [| intros [= <- <-]; left; now auto].
  destruct (get (call_message c) "taskId") as [taskId |] eqn:Et;
    cbn [mbind completion_bind try_catch]; [| intros [= <- <-]; left; now auto].
  destruct (get (call_message c) "changes") as [changes |] eqn:Ec;
    cbn [mbind completion_bind try_catch]; [| intros [= <- <-]; left; now auto].
  destruct (get changes "status") as [status |] eqn:Es;
    cbn [mbind completion_bind mret completion_ret try_catch];
    [| intros [= <- <-]; left; now auto].
  intros [= <- <-]. right. exists rows.
  rewrite (field_get _ _ _ Ec), (field_get _ _ _ Es), (field_get _ _ _ Et). auto.
Qed.

(** The outcomes of a task update after its insert. *)
Lemma afterInsert_inv s c updatedTask r effects next :
  afterInsert s c updatedTask r = (effects, next) ->
  next = None /\
  (effects = [Send (call_clientId c)
                (MsgError "DATABASE_ERROR" (Some "Failed to update task in database"))] \/
   (updatedTask = None /\ (exists rows, r = Normal rows) /\ effects = []) \/
   (exists task activity rows,
      updatedTask = Some task /\ r = Normal (activity :: rows) /\
      effects =
        (broadcastToClients s
           (MsgTaskUpdate task
              {| info_id := activity_id activity;
                 info_action := activity_action activity;
                 info_createdAt := activity_createdAt activity;
                 info_user_id := client_userId (call_client c);
                 info_user_username := client_username (call_client c) |})
           (Some (call_clientId c))
         ++ [Send (call_clientId c)
               (MsgTaskUpdateSuccess task
                  {| info_id := activity_id activity;
                     info_action := activity_action activity;
                     info_createdAt := activity_createdAt activity;
                     info_user_id := client_userId (call_client c);
                     info_user_username := client_username (call_client c) |})])%list)).
Proof.
  unfold afterInsert.
  destruct r as [rows |];
    cbn [mbind completion_bind mret completion_ret try_catch];
    [| intros [= <- <-]; now auto].
  destruct updatedTask as [task |];
    cbn [mbind completion_bind mret completion_ret try_catch];
    [| intros [= <- <-]; split; [reflexivity |]; right; left; eauto].
  destruct rows as [| activity rows];
    cbn [head mbind completion_bind mret completion_ret try_catch];
    intros [= <- <-]; split; try reflexivity; [now left |].
  right; right. exists task, activity, rows. auto.
Qed.

(** ** The invariant of the suspended task updates *)

Lemma requests_invariant_initial : requests_invariant initial.
Proof.
  constructor; simpl.
  - intros k c H. inversion H.
  - constructor.
Qed.

Lemma requests_invariant_ext s s' :
  clients s' = clients s -> suspended s' = suspended s ->
  requests_invariant s -> requests_invariant s'.
Proof.
  intros Hc Hs [H1 H2]. constructor; rewrite ?Hc, ?Hs; assumption.
Qed.

Lemma requests_invariant_spawn s s' p :
  clients s' = clients s -> suspended s' = (suspended s ++ [p])%list ->
  pending_invariant p ->
  requests_invariant s -> requests_invariant s'.
Proof.
  intros Hc Hs Hp [H1 H2]. constructor; rewrite ?Hc, ?Hs; [assumption |].
  apply Forall_app. split; [assumption |]. now constructor.
Qed.

Lemma call_invariant_registered s clientId client m :
  hub_invariant s -> requests_invariant s ->
  Map_get clientId (clients s) = Some client ->
  handled_as_task_update m = true ->
  call_invariant {| call_clientId := clientId; call_client := client;
                    call_message := m |}.
Proof.
  intros Hinv Hreq Hc Hm.
  pose proof (assoc_Some_elem _ _ _ Hc) as Hin.
  constructor; cbn [call_clientId call_client call_message].
  - apply (registered_nonempty s); [assumption |]. unfold registered. rewrite Hc. eauto.
  - assumption.
  - exact (inv_client s Hinv _ _ Hin).
  - exact (inv_credentials s Hreq _ _ Hin).
Qed.

Lemma requests_invariant_onMessage s clientId data s' effects :
  hub_invariant s -> requests_invariant s ->
  onMessage s clientId data = (s', effects) ->
  requests_invariant s'.
Proof.
  intros Hinv Hreq H. apply onMessage_inv in H.
  destruct H as [(_ & -> & _) | [(m & _ & _ & -> & _) | [(m & client & _ & _ & _ & -> & _)
    | [(m & client & _ & Hc & _ & -> & _) | [(m & client & _ & Hc & Hm & -> & _)
    | (m & client & _ & _ & _ & _ & -> & _)]]]]]; try assumption.
  - now apply (requests_invariant_spawn s _ AwaitTeamPerformance).
  - eapply (requests_invariant_spawn s); [reflexivity | reflexivity | | assumption].
    now apply (call_invariant_registered s).
Qed.

Lemma requests_invariant_onFirstMessage s clientId data s' effects :
  requests_invariant s ->
  onFirstMessage s clientId data = (s', effects) ->
  requests_invariant s'.
Proof.
  intros Hreq H. apply onFirstMessage_inv in H.
  destruct H as [(v & _ & Ht & -> & _) | [(v & _ & _ & _ & -> & _) | (_ & -> & _)]].
  - destruct Hreq as [H1 H2]. constructor; cbn [clients suspended]; [| assumption].
    intros k c Hin. apply elem_of_Map_set in Hin.
    destruct Hin as [[= -> ->] | Hin]; [| now apply (H1 k)].
    cbn [client_userId client_username]. now apply andb_prop in Ht.
  - assumption.
  - apply (requests_invariant_ext s); [| | assumption];
      unfold ws_close; destruct (sockets s !! clientId) as [sock |]; try reflexivity;
      destruct (readyState sock); reflexivity.
Qed.

Lemma resume_pending_invariant s p r effects next :
  pending_invariant p ->
  resume s p r = Some (effects, Some next) ->
  pending_invariant next.
Proof.
  intros Hp. destruct p as [c | c currentTask | c updatedTask |], r as [rows | rows | members];
    cbn [resume]; try discriminate; intros [= H].
  - apply afterSelect_inv in H.
    destruct H as [[[=] _] | (t & rows' & target & changes & _ & Hs & Hin & _ & _ & [= ->])].
    cbn [pending_invariant] in *. eauto.
  - apply afterUpdate_inv in H.
    destruct H as [[[=] _] | (rows' & _ & _ & [= ->])].
    cbn [pending_invariant] in *. tauto.
  - apply afterInsert_inv in H. destruct H as [[=] _].
Qed.

Lemma step_requests_invariant s e s' effects :
  hub_invariant s -> requests_invariant s ->
  step s e = Some (s', effects) -> requests_invariant s'.
Proof.
  intros Hinv Hreq. destruct e as [clientId | clientId data | clientId | | n r]; simpl.
  - destruct (sockets s !! clientId); [discriminate |].
    destruct (String.eqb clientId ""); [discriminate |].
    intros [= <- <-]. now apply (requests_invariant_ext s).
  - destruct (sockets s !! clientId) as [sock |]; [| discriminate].
    assert (Hgo :
      (let (s1, e1) := onMessage s clientId data in
       if authPending sock then
         let (s2, e2) :=
           onFirstMessage
             (set_socket s1 clientId
                {| readyState := readyState sock; authPending := false |})
             clientId data in
         Some (s2, (e1 ++ e2)%list)
       else Some (s1, e1)) = Some (s', effects) -> requests_invariant s').
    { destruct (onMessage s clientId data) as [s1 e1] eqn:E1.
      pose proof (requests_invariant_onMessage _ _ _ _ _ Hinv Hreq E1) as Hreq1.
      destruct (authPending sock); [| now intros [= <- <-]].
      destruct (onFirstMessage _ clientId data) as [s2 e2] eqn:E2.
      intros [= <- <-].
      eapply requests_invariant_onFirstMessage; [| exact E2].
      now apply (requests_invariant_ext s1). }
    destruct (readyState sock); try discriminate; exact Hgo.
  - destruct (sockets s !! clientId) as [sock |]; [| discriminate].
    assert (Hgo : forall st, requests_invariant (onClose (set_socket s clientId st) clientId)).
    { intros st. destruct Hreq as [H1 H2]. constructor; cbn [onClose clients suspended set_socket];
        [| assumption].
      intros k c Hin. apply elem_of_Map_delete in Hin. destruct Hin as [_ Hin]. now apply (H1 k). }
    destruct (readyState sock); try discriminate; intros [= <- <-]; apply Hgo.
  - unfold onTick, broadcastTeamPerformance.
    destruct (0 <? _); intros [= <- <-]; [| assumption].
    now apply (requests_invariant_spawn s _ AwaitTeamPerformance).
  - destruct (suspended s !! n) as [p |] eqn:Ep; [| discriminate].
    destruct (resume s p r) as [[effs next] |] eqn:Er; [| discriminate].
    intros [= <- <-]. destruct Hreq as [H1 H2].
    constructor; cbn [clients suspended]; [assumption |].
    apply Forall_app. split.
    + apply Forall_delete. assumption.
    + destruct next as [next |]; [| constructor].
      constructor; [| constructor].
      apply (resume_pending_invariant s p r effs next); [| assumption].
      rewrite Forall_lookup in H2. exact (H2 n p Ep).
Qed.

Lemma reachable_requests_invariant s : reachable s -> requests_invariant s.
Proof.
  induction 1 as [| s e s' effects Hreach IH Hstep].
  - apply requests_invariant_initial.
  - exact (step_requests_invariant s e s' effects (reachable_invariant s Hreach) IH Hstep).
Qed.

(** ** What each event can cause *)

Lemma step_message_inv s clientId data s' effects :
  step s (Message clientId data) = Some (s', effects) ->
  exists sock s1 e1,
    sockets s !! clientId = Some sock /\
    (readyState sock = OPEN \/ readyState sock = CLOSING) /\
    onMessage s clientId data = (s1, e1) /\
    ((authPending sock = false /\ s' = s1 /\ effects = e1) \/
     (authPending sock = true /\
      exists e2,
        onFirstMessage
          (set_socket s1 clientId
             {| readyState := readyState sock; authPending := false |})
          clientId data = (s', e2) /\
        effects = (e1 ++ e2)%list)).
Proof.
  simpl. destruct (sockets s !! clientId) as [sock |]; [| discriminate].
  destruct (onMessage s clientId data) as [s1 e1].
  intros H. exists sock, s1, e1. split; [reflexivity |].
  assert (Hboth : (readyState sock = OPEN \/ readyState sock = CLOSING) /\
            (if authPending sock then
               let (s2, e2) :=
                 onFirstMessage
                   (set_socket s1 clientId
                      {| readyState := readyState sock; authPending := false |})
                   clientId data in
               Some (s2, (e1 ++ e2)%list)
             else Some (s1, e1)) = Some (s', effects)).
  { revert H. destruct (readyState sock); try discriminate; auto. }
  destruct Hboth as [Hr H'].
  split; [assumption |]. split; [reflexivity |].
  destruct (authPending sock).
  - right. split; [reflexivity |].
    destruct (onFirstMessage _ clientId data) as [s2 e2].
    injection H' as <- <-. eauto.
  - left. injection H' as <- <-. auto.
Qed.

Lemma step_answer_inv s n r s' effects :
  step s (Answer n r) = Some (s', effects) ->
  exists p next,
    suspended s !! n = Some p /\ resume s p r = Some (effects, next) /\
    s' = {| clients := clients s;
            performanceSubscribers := performanceSubscribers s;
            sockets := sockets s;
            suspended := (delete n (suspended s) ++ option_list next)%list |}.
Proof.
  simpl. destruct (suspended s !! n) as [p |]; [| discriminate].
  destruct (resume s p r) as [[effs next] |] eqn:Er; [| discriminate].
  intros [= <- <-]. exists p, next. auto.
Qed.

(** A connection that has not sent its first message is not registered. *)
Lemma authPending_not_registered s clientId sock :
  hub_invariant s -> sockets s !! clientId = Some sock -> authPending sock = true ->
  Map_get clientId (clients s) = None.
Proof.
  intros Hinv Hs Ha. destruct (Map_get clientId (clients s)) as [c |] eqn:E; [| reflexivity].
  destruct (inv_socket s Hinv clientId) as (sock' & Hs' & _ & Ha');
    [unfold registered; rewrite E; eauto |].
  congruence.
Qed.

(** The effects of a message event, one by one. *)
Lemma step_message_effects s clientId data s' effects x :
  hub_invariant s ->
  step s (Message clientId data) = Some (s', effects) ->
  x ∈ effects ->
  (data = None /\
   x = Send clientId (MsgError "MESSAGE_PARSE_ERROR" (Some "Invalid message format"))) \/
  (x = Send clientId (MsgConnected "Successfully connected to real-time updates")) \/
  ((data = None \/ data = Some VNull \/ data = Some VUndefined) /\
   (exists sock, sockets s !! clientId = Some sock /\ authPending sock = true) /\
   x = CloseSocket clientId) \/
  (exists m, data = Some m /\ registered s clientId /\ get m "type" = Throw /\
             x = UnhandledRejection) \/
  (exists m, data = Some m /\ registered s clientId /\
             field m "type" = VStr "subscribe_team_performance" /\
             x = Query TeamPerformanceQueries) \/
  (exists m, data = Some m /\ registered s clientId /\
             handled_as_task_update m = true /\
             x = Query (SelectTask (field m "taskId"))).
Proof.
  intros Hinv Hstep Hx.
  destruct (step_message_inv _ _ _ _ _ Hstep)
    as (sock & s1 & e1 & Hs & Hr & Hon & Hcase).
  assert (He1 : x ∈ e1 ->
    (data = None /\
     x = Send clientId (MsgError "MESSAGE_PARSE_ERROR" (Some "Invalid message format"))) \/
    (exists m, data = Some m /\ registered s clientId /\ get m "type" = Throw /\
               x = UnhandledRejection) \/
    (exists m, data = Some m /\ registered s clientId /\
               field m "type" = VStr "subscribe_team_performance" /\
               x = Query TeamPerformanceQueries) \/
    (exists m, data = Some m /\ registered s clientId /\
               handled_as_task_update m = true /\
               x = Query (SelectTask (field m "taskId")))).
  { intros Hin. apply onMessage_inv in Hon. unfold registered.
    destruct Hon as [(-> & _ & ->) | [(m & _ & _ & _ & ->)
      | [(m & client & -> & Hc & Ht & _ & ->)
      | [(m & client & -> & Hc & Ht & _ & ->) | [(m & client & -> & Hc & Hm & _ & ->)
      | (m & client & _ & _ & _ & _ & _ & ->)]]]]];
      try (now inversion Hin);
      apply list_elem_of_singleton in Hin; subst x; rewrite ?Hc.
    - left. auto.
    - right; left. exists m. eauto.
    - right; right; left. exists m. eauto.
    - right; right; right. exists m. eauto. }
  destruct Hcase as [(_ & _ & ->) | (Ha & e2 & Hfirst & ->)].
  - destruct (He1 Hx) as [H | [H | [H | H]]]; tauto.
  - apply elem_of_app in Hx. destruct Hx as [Hx | Hx].
    + destruct (He1 Hx) as [H | [H | [H | H]]]; tauto.
    + apply onFirstMessage_inv in Hfirst.
      destruct Hfirst as [(v & _ & _ & _ & ->) | [(v & _ & _ & _ & _ & ->)
        | (Hd & _ & ->)]].
      * apply list_elem_of_singleton in Hx. tauto.
      * inversion Hx.
      * apply list_elem_of_singleton in Hx. right; right; left. eauto.
Qed.

(** The effects of the other events that no data-store answer causes. *)
Lemma step_quiet_effects s e s' effects x :
  step s e = Some (s', effects) -> x ∈ effects ->
  match e with
  | Connection _ | Close _ => False
  | Tick => performanceSubscribers s <> [] /\ x = Query TeamPerformanceQueries
  | Message _ _ | Answer _ _ => True
  end.
Proof.
  destruct e as [clientId | clientId data | clientId | | n r]; simpl; try tauto.
  - destruct (sockets s !! clientId); [discriminate |].
    destruct (String.eqb clientId ""); [discriminate |].
    intros [= <- <-] H. inversion H.
  - destruct (sockets s !! clientId) as [sock |]; [| discriminate].
    destruct (readyState sock); try discriminate; intros [= <- <-] H; inversion H.
  - unfold onTick, broadcastTeamPerformance.
    destruct (performanceSubscribers s) as [| k l]; simpl;
      intros [= <- <-] H; [inversion H |].
    apply list_elem_of_singleton in H. split; [discriminate | assumption].
Qed.

(** The effects of a data-store answer are those of the resumed
    function. *)
Lemma step_answer_effects s n r s' effects x :
  step s (Answer n r) = Some (s', effects) -> x ∈ effects ->
  exists p next, suspended s !! n = Some p /\ resume s p r = Some (effects, next).
Proof.
  intros H _. destruct (step_answer_inv _ _ _ _ _ H) as (p & next & Hp & Hr & _). eauto.
Qed.

(** The effects of resuming a suspended function, one by one. *)
Lemma resume_effects s p r effects next x :
  hub_invariant s -> pending_invariant p ->
  resume s p r = Some (effects, next) ->
  x ∈ effects ->
  (exists c code text,
     requester p = Some (call_clientId c) /\
     x = Send (call_clientId c) (MsgError code text)) \/
  (exists c currentTask rows target changes,
     p = AwaitSelect c /\ r = TaskRows (Normal (currentTask :: rows)) /\
     In (task_status currentTask, target) transition_table /\
     set_status changes = VStr target /\
     truthy (field (call_message c) "taskId") = true /\
     x = Query (UpdateTask changes (field (call_message c) "taskId"))) \/
  (exists c currentTask rows target,
     p = AwaitUpdate c currentTask /\ r = TaskRows (Normal rows) /\
     In (task_status currentTask, target) transition_table /\
     truthy (client_userId (call_client c)) = true /\
     x = Query (InsertTaskActivity (field (call_message c) "taskId")
                  (client_userId (call_client c))
                  ("Status changed from " ++ task_status currentTask ++ " to " ++ target)
                  NewDateNow)) \/
  (exists c task info k,
     p = AwaitInsert c (Some task) /\ k <> call_clientId c /\
     registered s k /\ is_open s k = true /\
     x = Send k (MsgTaskUpdate task info)) \/
  (exists c task info,
     p = AwaitInsert c (Some task) /\
     x = Send (call_clientId c) (MsgTaskUpdateSuccess task info)) \/
  (exists members k,
     p = AwaitTeamPerformance /\ subscribed s k /\ registered s k /\
     is_open s k = true /\
     x = Send k (MsgTeamPerformance members)) \/
  (p = AwaitTeamPerformance /\ r = Performance Throw /\ x = UnhandledRejection).
Proof.
  intros Hinv Hp Hres Hx.
  destruct p as [c | c currentTask | c updatedTask |], r as [rows | rows | members];
    cbn [resume] in Hres; try discriminate; injection Hres as Hres.
  - apply afterSelect_inv in Hres.
    destruct Hres as [(_ & code & text & ->)
      | (t & rows' & target & changes & -> & _ & Hin & Hs & -> & _)];
      apply list_elem_of_singleton in Hx; subst x.
    + left. exists c, code, text. auto.
    + right; left. exists c, t, rows', target, changes.
      cbn [pending_invariant] in Hp.
      destruct (handled_fields _ (call_handled c Hp)) as (_ & _ & Hid & _). auto 10.
  - apply afterUpdate_inv in Hres.
    destruct Hres as [(_ & ->) | (rows' & -> & -> & _)];
      apply list_elem_of_singleton in Hx; subst x.
    + left. exists c. eauto.
    + right; right; left. cbn [pending_invariant] in Hp.
      destruct Hp as (Hc & target & Hs & Hin).
      exists c, currentTask, rows', target. rewrite Hs. cbn [to_string].
      repeat split; try assumption. exact (proj1 (call_credentials c Hc)).
  - apply afterInsert_inv in Hres.
    destruct Hres as (_ & [-> | [(_ & _ & ->) | (task & activity & rows' & -> & _ & ->)]]).
    + apply list_elem_of_singleton in Hx; subst x. left. exists c. eauto.
    + inversion Hx.
    + cbn [pending_invariant] in Hp.
      rewrite (broadcastToClients_sends s _ _ Hinv (call_nonempty c Hp)) in Hx.
      apply elem_of_app in Hx. destruct Hx as [Hx | Hx].
      * apply list_elem_of_fmap in Hx. destruct Hx as (k & -> & Hk).
        apply list_elem_of_filter in Hk. destruct Hk as ((Hne & Hopen) & Hk).
        do 3 right; left. exists c, task. eexists. exists k.
        repeat split; try assumption. now apply assoc_is_Some.
      * apply list_elem_of_singleton in Hx; subst x.
        do 4 right; left. exists c, task. eauto.
  - subst effects. destruct members as [members |].
    + rewrite (afterTeamPerformance_sends s members Hinv) in Hx.
      apply list_elem_of_fmap in Hx. destruct Hx as (k & -> & Hk).
      apply list_elem_of_filter in Hk. destruct Hk as (Hopen & Hk).
      do 5 right; left. exists members, k.
      repeat split; try assumption. now apply (inv_subscribed s Hinv).
    + apply list_elem_of_singleton in Hx. do 6 right. auto.
Qed.

(** ** What the hub never does *)

Lemma reachable_pending s n p :
  reachable s -> suspended s !! n = Some p -> pending_invariant p.
Proof.
  intros Hreach Hp.
  pose proof (inv_suspended s (reachable_requests_invariant s Hreach)) as Hall.
  rewrite Forall_lookup in Hall. exact (Hall n p Hp).
Qed.

(** X4.  The only update statements the hub issues come from a task read
    that returned a task: they set a status that the transition table
    lists after the status just read, for a truthy task id. *)
Theorem persisted_status_is_listed s e s' effects changes taskId :
  reachable s ->
  step s e = Some (s', effects) ->
  Query (UpdateTask changes taskId) ∈ effects ->
  exists n currentTask rows target,
    e = Answer n (TaskRows (Normal (currentTask :: rows))) /\
    set_status changes = VStr target /\
    In (task_status currentTask, target) transition_table /\
    truthy taskId = true.
Proof.
  intros Hreach Hstep Hx. pose proof (reachable_invariant s Hreach) as Hinv.
  destruct e as [clientId | clientId data | clientId | | n r].
  - destruct (step_quiet_effects _ _ _ _ _ Hstep Hx).
  - destruct (step_message_effects _ _ _ _ _ _ Hinv Hstep Hx)
      as [(_ & [=]) | [[=] | [(_ & _ & [=]) | [(m & _ & _ & _ & [=])
      | [(m & _ & _ & _ & [=]) | (m & _ & _ & _ & [=])]]]]].
  - destruct (step_quiet_effects _ _ _ _ _ Hstep Hx).
  - destruct (step_quiet_effects _ _ _ _ _ Hstep Hx) as [_ [=]].
  - destruct (step_answer_effects _ _ _ _ _ _ Hstep Hx) as (p & next & Hp & Hres).
    destruct (resume_effects s p r effects next _ Hinv (reachable_pending s n p Hreach Hp)
                Hres Hx)
      as [(c & code & text & _ & [=])
      | [(c & t & rows & target & ch & _ & -> & Hin & Hs & Hid & [= -> ->])
      | [(c & t & rows & target & _ & _ & _ & _ & [=])
      | [(c & task & info & k & _ & _ & _ & _ & [=])
      | [(c & task & info & _ & [=]) | [(members & k & _ & _ & _ & _ & [=])
      | (_ & _ & [=])]]]]]].
    exists n, t, rows, target. auto.
Qed.

Lemma persisted_status_is_listed_witness :
  reachable (after update_requested) /\
  step (after update_requested) (Answer 0 (TaskRows (Normal [sample_task 7 "pending"])))
    = Some (after task_read,
            effects_after update_requested
              (Answer 0 (TaskRows (Normal [sample_task 7 "pending"])))) /\
  Query (UpdateTask sample_changes (VNum 7))
    ∈ effects_after update_requested
        (Answer 0 (TaskRows (Normal [sample_task 7 "pending"]))) /\
  exists n currentTask rows target,
    Answer 0 (TaskRows (Normal [sample_task 7 "pending"]))
      = Answer n (TaskRows (Normal (currentTask :: rows))) /\
    set_status sample_changes = VStr target /\
    In (task_status currentTask, target) transition_table /\
    truthy (VNum 7) = true.
Proof.
  split; [apply after_reachable |].
  split; [vm_compute; reflexivity |].
  split; [vm_compute; apply list_elem_of_here |].
  apply (persisted_status_is_listed (after update_requested)
           (Answer 0 (TaskRows (Normal [sample_task 7 "pending"])))
           (after task_read)
           (effects_after update_requested
              (Answer 0 (TaskRows (Normal [sample_task 7 "pending"]))))
           sample_changes (VNum 7) (after_reachable _));
    [vm_compute; reflexivity | vm_compute; apply list_elem_of_here].
Defined.

(** Every effect of an event in a reachable state has one of the causes
    above. *)
Lemma step_effects_caused s e s' effects x :
  reachable s -> step s e = Some (s', effects) -> x ∈ effects -> caused s e x.
Proof.
  intros Hreach Hstep Hx. pose proof (reachable_invariant s Hreach) as Hinv.
  destruct e as [clientId | clientId data | clientId | | n r].
  - destruct (step_quiet_effects _ _ _ _ _ Hstep Hx).
  - destruct (step_message_effects _ _ _ _ _ _ Hinv Hstep Hx)
      as [(-> & ->) | [-> | [(Hd & (sock & Hs & Ha) & ->) | [(m & -> & Hr & Ht & ->)
      | [(m & -> & Hr & Ht & ->) | (m & -> & Hr & Hm & ->)]]]]].
    + constructor.
    + constructor.
    + now apply (caused_bad_handshake s clientId data sock).
    + now constructor.
    + now constructor.
    + now constructor.
  - destruct (step_quiet_effects _ _ _ _ _ Hstep Hx).
  - destruct (step_quiet_effects _ _ _ _ _ Hstep Hx) as [Hne ->]. now constructor.
  - destruct (step_answer_effects _ _ _ _ _ _ Hstep Hx) as (p & next & Hp & Hres).
    destruct (resume_effects s p r effects next _ Hinv (reachable_pending s n p Hreach Hp)
                Hres Hx)
      as [(c & code & text & Hreq & ->)
      | [(c & t & rows & target & ch & -> & -> & Hin & Hs & Hid & ->)
      | [(c & t & rows & target & -> & -> & Hin & Hu & ->)
      | [(c & task & info & k & -> & Hne & Hr & Ho & ->)
      | [(c & task & info & -> & ->) | [(members & k & -> & Hsub & Hr & Ho & ->)
      | (-> & -> & ->)]]]]]].
    + now apply (caused_error s n r p c).
    + now apply (caused_update s n c t rows target).
    + now apply (caused_insert s n c t rows target).
    + now apply (caused_broadcast s n r c).
    + now apply (caused_success s n r c).
    + now apply (caused_snapshot s n r).
    + now apply caused_failed_recomputation.
Qed.

(** X6.  A task is only read for a registered connection: every task read
    the hub issues answers a message of a registered connection that is
    handled as a task update, and it reads the truthy task id of that
    message. *)
Theorem task_read_only_for_registered s e s' effects taskId :
  reachable s ->
  step s e = Some (s', effects) ->
  Query (SelectTask taskId) ∈ effects ->
  exists clientId m,
    e = Message clientId (Some m) /\ registered s clientId /\
    handled_as_task_update m = true /\
    taskId = field m "taskId" /\ truthy taskId = true.
Proof.
  intros Hreach Hstep Hx.
  pose proof (step_effects_caused s e s' effects _ Hreach Hstep Hx) as Hc.
  inversion Hc; subst. exists clientId, m.
  destruct (handled_fields m) as (_ & _ & Hid & _); auto.
Qed.


Lemma task_read_only_for_registered_witness :
  reachable (after two_connections) /\
  step (after two_connections)
       (Message "c1" (Some (task_update_message 7 "in_progress" VNull)))
    = Some (after update_requested,
            effects_after two_connections
              (Message "c1" (Some (task_update_message 7 "in_progress" VNull)))) /\
  Query (SelectTask (VNum 7))
    ∈ effects_after two_connections
        (Message "c1" (Some (task_update_message 7 "in_progress" VNull))) /\
  exists clientId m,
    Message "c1" (Some (task_update_message 7 "in_progress" VNull))
      = Message clientId (Some m) /\
    registered (after two_connections) clientId /\
    handled_as_task_update m = true /\
    VNum 7 = field m "taskId" /\ truthy (VNum 7) = true.
Proof.
  split; [apply after_reachable |].
  split; [vm_compute; reflexivity |].
  split; [vm_compute; apply list_elem_of_here |].
  apply (task_read_only_for_registered (after two_connections)
           (Message "c1" (Some (task_update_message 7 "in_progress" VNull)))
           (after update_requested)
           (effects_after two_connections
              (Message "c1" (Some (task_update_message 7 "in_progress" VNull))))
           (VNum 7) (after_reachable _));
    [vm_compute; reflexivity | vm_compute; apply list_elem_of_here].
Defined.


(** X7.  The team-performance snapshot is only recomputed for a
    subscription message of a registered connection or for a timer tick
    with at least one subscriber; a task update never recomputes it. *)
Theorem recomputation_only_on_subscribe_or_tick s e s' effects :
  reachable s ->
  step s e = Some (s', effects) ->
  Query TeamPerformanceQueries ∈ effects ->
  (e = Tick /\ performanceSubscribers s <> []) \/
  (exists clientId m,
     e = Message clientId (Some m) /\ registered s clientId /\
     field m "type" = VStr "subscribe_team_performance").
Proof.
  intros Hreach Hstep Hx.
  pose proof (step_effects_caused s e s' effects _ Hreach Hstep Hx) as Hc.
  inversion Hc; subst; [right | left]; eauto.
Qed.


Lemma recomputation_only_on_subscribe_or_tick_witness :
  reachable (after sample_history) /\
  step (after sample_history) Tick
    = Some (after (sample_history ++ [Tick]), effects_after sample_history Tick) /\
  Query TeamPerformanceQueries ∈ effects_after sample_history Tick /\
  ((Tick = Tick /\ performanceSubscribers (after sample_history) <> []) \/
   (exists clientId m,
      Tick = Message clientId (Some m) /\ registered (after sample_history) clientId /\
      field m "type" = VStr "subscribe_team_performance")).
Proof.
  split; [apply after_reachable |].
  split; [vm_compute; reflexivity |].
  split; [vm_compute; apply list_elem_of_here |].
  apply (recomputation_only_on_subscribe_or_tick (after sample_history) Tick
           (after (sample_history ++ [Tick])) (effects_after sample_history Tick)
           (after_reachable _));
    [vm_compute; reflexivity | vm_compute; apply list_elem_of_here].
Defined.


(** X8.  A failure is left uncaught in two cases only: a registered
    connection sends the JSON value [null], whose type tag cannot be read,
    or the data store fails during a recomputation of the snapshot.  A
    task update never ends in an unhandled rejection. *)
Theorem unhandled_rejection_causes s e s' effects :
  reachable s ->
  step s e = Some (s', effects) ->
  UnhandledRejection ∈ effects ->
  (exists clientId m,
     e = Message clientId (Some m) /\ registered s clientId /\
     (m = VNull \/ m = VUndefined)) \/
  (exists n,
     e = Answer n (Performance Throw) /\ suspended s !! n = Some AwaitTeamPerformance).
Proof.
  intros Hreach Hstep Hx.
  pose proof (step_effects_caused s e s' effects _ Hreach Hstep Hx) as Hc.
  inversion Hc; subst; [left | right; eauto].
  exists clientId, m. repeat split; try assumption.
  destruct m; simpl in *; try discriminate; auto.
Qed.


Lemma unhandled_rejection_causes_witness :
  reachable (after two_connections) /\
  step (after two_connections) (Message "c1" (Some VNull))
    = Some (after two_connections,
            effects_after two_connections (Message "c1" (Some VNull))) /\
  UnhandledRejection ∈ effects_after two_connections (Message "c1" (Some VNull)) /\
  ((exists clientId m,
      Message "c1" (Some VNull) = Message clientId (Some m) /\
      registered (after two_connections) clientId /\
      (m = VNull \/ m = VUndefined)) \/
   (exists n,
      Message "c1" (Some VNull) = Answer n (Performance Throw) /\
      suspended (after two_connections) !! n = Some AwaitTeamPerformance)).
Proof.
  split; [apply after_reachable |].
  split; [vm_compute; reflexivity |].
  split; [vm_compute; apply list_elem_of_here |].
  apply (unhandled_rejection_causes (after two_connections) (Message "c1" (Some VNull))
           (after two_connections)
           (effects_after two_connections (Message "c1" (Some VNull)))
           (after_reachable _));
    [vm_compute; reflexivity | vm_compute; apply list_elem_of_here].
Defined.


(** X9.  The hub closes a socket only in answer to the first message of
    that socket, and only when that message is not JSON or is the JSON
    value [null]. *)
Theorem socket_closed_only_on_bad_handshake s e s' effects ws :
  reachable s ->
  step s e = Some (s', effects) ->
  CloseSocket ws ∈ effects ->
  exists data sock,
    e = Message ws data /\
    sockets s !! ws = Some sock /\ authPending sock = true /\
    (data = None \/ data = Some VNull \/ data = Some VUndefined).
Proof.
  intros Hreach Hstep Hx.
  pose proof (step_effects_caused s e s' effects _ Hreach Hstep Hx) as Hc.
  inversion Hc; subst. exists data, sock. auto.
Qed.


Lemma socket_closed_only_on_bad_handshake_witness :
  reachable (after [Connection "c1"]) /\
  step (after [Connection "c1"]) (Message "c1" None)
    = Some (after [Connection "c1"; Message "c1" None],
            effects_after [Connection "c1"] (Message "c1" None)) /\
  CloseSocket "c1" ∈ effects_after [Connection "c1"] (Message "c1" None) /\
  exists data sock,
    Message "c1" None = Message "c1" data /\
    sockets (after [Connection "c1"]) !! "c1" = Some sock /\
    authPending sock = true /\
    (data = None \/ data = Some VNull \/ data = Some VUndefined).
Proof.
  split; [apply after_reachable |].
  split; [vm_compute; reflexivity |].
  split; [vm_compute; apply list_elem_of_further, list_elem_of_here |].
  apply (socket_closed_only_on_bad_handshake (after [Connection "c1"])
           (Message "c1" None) (after [Connection "c1"; Message "c1" None])
           (effects_after [Connection "c1"] (Message "c1" None)) "c1"
           (after_reachable _));
    [vm_compute; reflexivity | vm_compute; apply list_elem_of_further, list_elem_of_here].
Defined.


(** X10.  Acknowledgements, errors and success replies are private: each
    is sent to the connection whose message or whose task update caused
    it, and to no other. *)
Theorem private_replies_go_to_their_origin s e s' effects ws m :
  reachable s ->
  step s e = Some (s', effects) ->
  Send ws m ∈ effects ->
  is_private m = true ->
  origin s e = Some ws.
Proof.
  intros Hreach Hstep Hx Hp.
  pose proof (step_effects_caused s e s' effects _ Hreach Hstep Hx) as Hc.
  inversion Hc; subst; try discriminate; cbn [origin]; try reflexivity.
  - match goal with H : suspended s !! _ = Some _ |- _ => rewrite H end. assumption.
  - match goal with H : suspended s !! _ = Some _ |- _ => rewrite H end. reflexivity.
Qed.


Lemma private_replies_go_to_their_origin_witness :
  reachable (after task_updated) /\
  step (after task_updated) (Answer 0 (ActivityRows (Normal [sample_activity])))
    = Some (after two_connections,
            effects_after task_updated
              (Answer 0 (ActivityRows (Normal [sample_activity])))) /\
  Send "c1" (MsgTaskUpdateSuccess (sample_task 7 "in_progress") sample_info)
    ∈ effects_after task_updated (Answer 0 (ActivityRows (Normal [sample_activity]))) /\
  is_private (MsgTaskUpdateSuccess (sample_task 7 "in_progress") sample_info) = true /\
  origin (after task_updated) (Answer 0 (ActivityRows (Normal [sample_activity])))
    = Some "c1".
Proof.
  split; [apply after_reachable |].
  split; [vm_compute; reflexivity |].
  split; [vm_compute; apply list_elem_of_further, list_elem_of_here |].
  split; [reflexivity |].
  apply (private_replies_go_to_their_origin (after task_updated)
           (Answer 0 (ActivityRows (Normal [sample_activity])))
           (after two_connections)
           (effects_after task_updated
              (Answer 0 (ActivityRows (Normal [sample_activity]))))
           "c1" (MsgTaskUpdateSuccess (sample_task 7 "in_progress") sample_info)
           (after_reachable _));
    [vm_compute; reflexivity | vm_compute; apply list_elem_of_further, list_elem_of_here
    | reflexivity].
Defined.






(** ** The handshake, continued *)

Lemma Map_set_fresh {V : Type} k (v : V) m :
  assoc k m = None -> Map_set k v m = (m ++ [(k, v)])%list.
Proof.
  induction m as [| [k0 v0] m IH]; simpl; [reflexivity |].
  destruct (String.eqb k0 k); [discriminate |]. intros H. now rewrite IH.
Qed.

Lemma assoc_Map_delete_ne {V : Type} k k' (m : list (string * V)) :
  k <> k' -> assoc k (Map_delete k' m) = assoc k m.
Proof.
  intros Hne. unfold Map_delete. induction m as [| [k0 v0] m IH]; [reflexivity |].
  destruct (decide (k0 = k')) as [-> | Hk].
  - rewrite filter_cons_False by (cbn; intros H; now apply H).
    rewrite IH. cbn [assoc]. destruct (String.eqb_spec k' k); [congruence | reflexivity].
  - rewrite filter_cons_True by (cbn; assumption).
    cbn [assoc]. now rewrite IH.
Qed.

(** X12.  The first message of an open connection registers it when it
    carries a truthy [userId] and a truthy [username]: the connection is
    appended to the registry under its own id with these two values and
    gets the one acknowledgement.  Whatever else the message carries is
    not acted upon: nothing is subscribed and no query is issued. *)
Theorem handshake_registers s clientId sock v :
  reachable s ->
  sockets s !! clientId = Some sock ->
  readyState sock = OPEN -> authPending sock = true ->
  truthy (field v "userId") = true -> truthy (field v "username") = true ->
  step s (Message clientId (Some v)) =
    Some ({| clients :=
               (clients s ++
                [(clientId, {| client_id := clientId; client_ws := clientId;
                               client_userId := field v "userId";
                               client_username := field v "username" |})])%list;
             performanceSubscribers := performanceSubscribers s;
             sockets := <[clientId := {| readyState := OPEN; authPending := false |}]>
                          (sockets s);
             suspended := suspended s |},
          [Send clientId (MsgConnected "Successfully connected to real-time updates")]).
Proof.
  intros Hreach Hs Hr Ha Hu Hn.
  pose proof (authPending_not_registered s clientId sock
                (reachable_invariant s Hreach) Hs Ha) as Hc.
  cbn [step]. rewrite Hs, Hr, Ha.
  assert (Hon : onMessage s clientId (Some v) = (s, []))
    by (unfold onMessage; now rewrite Hc).
  rewrite Hon.
  unfold onFirstMessage, field in *.
  destruct v as [| | b | n | str | items | fields]; cbn [get] in *; try discriminate.
  cbn [get mbind completion_bind mret completion_ret]. rewrite Hu, Hn.
  cbn [andb set_socket clients performanceSubscribers sockets suspended app].
  unfold Map_get in Hc. now rewrite (Map_set_fresh _ _ _ Hc).
Qed.

Lemma handshake_registers_witness :
  reachable (after [Connection "c1"]) /\
  sockets (after [Connection "c1"]) !! "c1"
    = Some {| readyState := OPEN; authPending := true |} /\
  readyState {| readyState := OPEN; authPending := true |} = OPEN /\
  authPending {| readyState := OPEN; authPending := true |} = true /\
  truthy (field (handshake 1 "ann") "userId") = true /\
  truthy (field (handshake 1 "ann") "username") = true /\
  step (after [Connection "c1"]) (Message "c1" (Some (handshake 1 "ann"))) =
    Some ({| clients :=
               (clients (after [Connection "c1"]) ++
                [("c1", {| client_id := "c1"; client_ws := "c1";
                           client_userId := field (handshake 1 "ann") "userId";
                           client_username := field (handshake 1 "ann") "username" |})])%list;
             performanceSubscribers := performanceSubscribers (after [Connection "c1"]);
             sockets := <["c1" := {| readyState := OPEN; authPending := false |}]>
                          (sockets (after [Connection "c1"]));
             suspended := suspended (after [Connection "c1"]) |},
          [Send "c1" (MsgConnected "Successfully connected to real-time updates")]).
Proof.
  split; [apply after_reachable |]. split; [vm_compute; reflexivity |].
  split; [reflexivity |]. split; [reflexivity |].
  split; [reflexivity |]. split; [reflexivity |].
  apply (handshake_registers (after [Connection "c1"]) "c1"
           {| readyState := OPEN; authPending := true |} (handshake 1 "ann")
           (after_reachable _));
    [vm_compute; reflexivity | reflexivity | reflexivity | reflexivity | reflexivity].
Defined.

(** X13.  A first message that is not JSON is answered twice: the message
    listener replies with [MESSAGE_PARSE_ERROR], then the authentication
    listener closes the socket, which starts closing; nothing is
    registered. *)
Theorem unparseable_handshake s clientId sock :
  sockets s !! clientId = Some sock ->
  readyState sock = OPEN -> authPending sock = true ->
  step s (Message clientId None) =
    Some ({| clients := clients s;
             performanceSubscribers := performanceSubscribers s;
             sockets := <[clientId := {| readyState := CLOSING; authPending := false |}]>
                          (sockets s);
             suspended := suspended s |},
          [Send clientId (MsgError "MESSAGE_PARSE_ERROR" (Some "Invalid message format"));
           CloseSocket clientId]).
Proof.
  intros Hs Hr Ha. cbn [step]. rewrite Hs, Hr, Ha.
  cbn [onMessage onFirstMessage mbind completion_bind].
  unfold ws_close. cbn [set_socket sockets]. rewrite lookup_insert_eq.
  cbn [readyState authPending set_socket clients performanceSubscribers sockets
       suspended app].
  unfold set_socket. cbn [clients performanceSubscribers sockets suspended].
  now rewrite insert_insert_eq.
Qed.

Lemma unparseable_handshake_witness :
  sockets (after [Connection "c1"]) !! "c1"
    = Some {| readyState := OPEN; authPending := true |} /\
  readyState {| readyState := OPEN; authPending := true |} = OPEN /\
  authPending {| readyState := OPEN; authPending := true |} = true /\
  step (after [Connection "c1"]) (Message "c1" None) =
    Some ({| clients := clients (after [Connection "c1"]);
             performanceSubscribers := performanceSubscribers (after [Connection "c1"]);
             sockets := <["c1" := {| readyState := CLOSING; authPending := false |}]>
                          (sockets (after [Connection "c1"]));
             suspended := suspended (after [Connection "c1"]) |},
          [Send "c1" (MsgError "MESSAGE_PARSE_ERROR" (Some "Invalid message format"));
           CloseSocket "c1"]).
Proof.
  split; [vm_compute; reflexivity |]. split; [reflexivity |]. split; [reflexivity |].
  apply (unparseable_handshake (after [Connection "c1"]) "c1"
           {| readyState := OPEN; authPending := true |});
    [vm_compute; reflexivity | reflexivity | reflexivity].
Defined.

Lemma assoc_Map_delete_eq {V : Type} k (m : list (string * V)) :
  assoc k (Map_delete k m) = None.
Proof.
  apply assoc_None. rewrite keys_Map_delete, list_elem_of_filter. tauto.
Qed.

Lemma ws_close_frame s clientId :
  clients (ws_close s clientId) = clients s /\
  (forall k, k <> clientId -> sockets (ws_close s clientId) !! k = sockets s !! k) /\
  (forall sock, sockets s !! clientId = Some sock ->
     exists sock', sockets (ws_close s clientId) !! clientId = Some sock' /\
                   authPending sock' = authPending sock).
Proof.
  unfold ws_close. destruct (sockets s !! clientId) as [sock |] eqn:E.
  2:{ split; [reflexivity |]. split; [reflexivity |]. intros sock [=]. }
  destruct (readyState sock); cbn [set_socket clients sockets];
    (split; [reflexivity |]); split;
    try (intros k Hk; rewrite ?lookup_insert_ne by congruence; reflexivity);
    intros sock' [= <-]; rewrite ?lookup_insert_eq; eauto.
Qed.

(** The registry entry of a connection changes only when that connection
    closes or sends its first message. *)
Lemma step_registry s e s' effects k :
  hub_invariant s ->
  step s e = Some (s', effects) ->
  Map_get k (clients s') = Map_get k (clients s) \/
  (e = Close k /\ Map_get k (clients s') = None) \/
  (exists data sock,
     e = Message k data /\ sockets s !! k = Some sock /\ authPending sock = true /\
     Map_get k (clients s) = None).
Proof.
  intros Hinv Hstep. unfold Map_get.
  destruct e as [clientId | clientId data | clientId | | n r].
  - simpl in Hstep. destruct (sockets s !! clientId); [discriminate |].
    destruct (String.eqb clientId ""); [discriminate |].
    injection Hstep as <- <-. now left.
  - destruct (step_message_inv _ _ _ _ _ Hstep)
      as (sock & s1 & e1 & Hs & Hr & Hon & Hcase).
    apply onMessage_frame in Hon. destruct Hon as (Hc1 & _ & _).
    destruct Hcase as [(_ & -> & _) | (Ha & e2 & Hfirst & _)];
      [left; now rewrite Hc1 |].
    destruct (decide (clientId = k)) as [-> | Hne].
    { right; right. exists data, sock. repeat split; try assumption.
      exact (authPending_not_registered s k sock Hinv Hs Ha). }
    left. apply onFirstMessage_inv in Hfirst.
    destruct Hfirst as [(v & _ & _ & -> & _) | [(v & _ & _ & _ & -> & _) | (_ & -> & _)]].
    + cbn [clients set_socket]. rewrite assoc_Map_set, Hc1.
      destruct (String.eqb_spec clientId k); [contradiction | reflexivity].
    + cbn [clients set_socket]. now rewrite Hc1.
    + rewrite (proj1 (ws_close_frame _ _)). cbn [clients set_socket]. now rewrite Hc1.
  - simpl in Hstep. destruct (sockets s !! clientId) as [sock |]; [| discriminate].
    assert (Hgo : forall st,
      assoc k (clients (onClose (set_socket s clientId st) clientId)) = assoc k (clients s) \/
      (clientId = k /\ assoc k (clients (onClose (set_socket s clientId st) clientId)) = None)).
    { intros st. cbn [onClose clients set_socket].
      destruct (decide (clientId = k)) as [-> | Hne].
      - right. split; [reflexivity |]. apply assoc_Map_delete_eq.
      - left. apply assoc_Map_delete_ne. congruence. }
    destruct (readyState sock); try discriminate; injection Hstep as <- <-;
      (destruct (Hgo {| readyState := CLOSED; authPending := authPending sock |})
         as [H | [-> H]]; [now left | right; left; now split]).
  - simpl in Hstep. unfold onTick, broadcastTeamPerformance in Hstep.
    destruct (0 <? _); injection Hstep as <- <-; now left.
  - destruct (step_answer_inv _ _ _ _ _ Hstep) as (p & next & _ & _ & ->). now left.
Qed.

(** The authentication listener of a connection is never attached
    again. *)
Lemma step_spent s e s' effects k :
  spent s k -> step s e = Some (s', effects) -> spent s' k.
Proof.
  intros (sock & Hs & Ha) Hstep. unfold spent.
  destruct e as [clientId | clientId data | clientId | | n r].
  - simpl in Hstep. destruct (sockets s !! clientId) eqn:E; [discriminate |].
    destruct (String.eqb clientId ""); [discriminate |].
    injection Hstep as <- <-. exists sock. cbn [set_socket sockets].
    rewrite lookup_insert_ne by congruence. auto.
  - destruct (step_message_inv _ _ _ _ _ Hstep)
      as (sockk & s1 & e1 & Hsk & Hr & Hon & Hcase).
    apply onMessage_frame in Hon. destruct Hon as (_ & Hs1 & _).
    destruct Hcase as [(_ & -> & _) | (Hak & e2 & Hfirst & _)];
      [exists sock; now rewrite Hs1 |].
    assert (Hne : clientId <> k) by (intros ->; congruence).
    apply onFirstMessage_inv in Hfirst.
    destruct Hfirst as [(v & _ & _ & -> & _) | [(v & _ & _ & _ & -> & _) | (_ & -> & _)]].
    + exists sock. cbn [set_socket sockets].
      rewrite lookup_insert_ne by assumption. now rewrite Hs1.
    + exists sock. cbn [set_socket sockets].
      rewrite lookup_insert_ne by assumption. now rewrite Hs1.
    + exists sock. rewrite (proj1 (proj2 (ws_close_frame _ _))) by congruence.
      cbn [set_socket sockets]. rewrite lookup_insert_ne by assumption. now rewrite Hs1.
  - simpl in Hstep. destruct (sockets s !! clientId) as [sockk |] eqn:Hsk; [| discriminate].
    assert (Hgo : exists sock', sockets (onClose (set_socket s clientId
                     {| readyState := CLOSED; authPending := authPending sockk |}) clientId)
                     !! k = Some sock' /\ authPending sock' = false).
    { cbn [onClose set_socket sockets]. destruct (decide (clientId = k)) as [-> | Hne].
      - rewrite lookup_insert_eq. eexists. split; [reflexivity |]. cbn. congruence.
      - rewrite lookup_insert_ne by assumption. eauto. }
    destruct (readyState sockk); try discriminate; injection Hstep as <- <-; exact Hgo.
  - simpl in Hstep. unfold onTick, broadcastTeamPerformance in Hstep.
    destruct (0 <? _); injection Hstep as <- <-; eauto.
  - destruct (step_answer_inv _ _ _ _ _ Hstep) as (p & next & _ & _ & ->). eauto.
Qed.

(** X14.  A connection has one chance to authenticate: once its first
    message has been received without registering it, no later event
    registers or subscribes it. *)
Theorem no_second_handshake s clientId later s' effects :
  reachable s ->
  spent s clientId -> ~ registered s clientId ->
  run s later = Some (s', effects) ->
  ~ registered s' clientId /\ ~ subscribed s' clientId.
Proof.
  intros Hreach Hspent Hnr Hrun.
  assert (H : ~ registered s' clientId).
  { revert s effects Hreach Hspent Hnr Hrun.
    induction later as [| e later IH]; intros s effects Hreach Hspent Hnr; simpl.
    - now intros [= <- <-].
    - destruct (step s e) as [[s1 e1] |] eqn:E; [| discriminate].
      destruct (run s1 later) as [[s2 e2] |] eqn:E2; [| discriminate].
      intros [= <- <-].
      apply (IH s1 e2); [eapply reachable_step; eassumption
                        | eapply step_spent; eassumption | | assumption].
      unfold registered in *.
      destruct (step_registry s e s1 e1 clientId (reachable_invariant s Hreach) E)
        as [H | [(_ & H) | (data & sock & _ & Hs & Ha & _)]].
      + now rewrite H.
      + rewrite H. intros [? [=]].
      + destruct Hspent as (sock' & Hs' & Ha'). congruence. }
  split; [assumption |]. intros Hsub. apply H.
  apply (inv_subscribed s'); [| assumption].
  apply reachable_invariant. eapply run_reachable; eassumption.
Qed.

Lemma no_second_handshake_witness :
  reachable (after [Connection "c1"; Message "c1" (Some (VObj [("userId", VNum 1)]))]) /\
  spent (after [Connection "c1"; Message "c1" (Some (VObj [("userId", VNum 1)]))]) "c1" /\
  ~ registered (after [Connection "c1"; Message "c1" (Some (VObj [("userId", VNum 1)]))])
      "c1" /\
  run (after [Connection "c1"; Message "c1" (Some (VObj [("userId", VNum 1)]))])
      [Message "c1" (Some (handshake 1 "ann")); Message "c1" (Some subscribe_message)]
    = Some (after [Connection "c1"; Message "c1" (Some (VObj [("userId", VNum 1)]))], []) /\
  ~ registered (after [Connection "c1"; Message "c1" (Some (VObj [("userId", VNum 1)]))])
      "c1" /\
  ~ subscribed (after [Connection "c1"; Message "c1" (Some (VObj [("userId", VNum 1)]))])
      "c1".
Proof.
  assert (Hs : spent (after [Connection "c1";
                             Message "c1" (Some (VObj [("userId", VNum 1)]))]) "c1")
    by (eexists; split; vm_compute; reflexivity).
  assert (Hn : ~ registered (after [Connection "c1";
                                    Message "c1" (Some (VObj [("userId", VNum 1)]))]) "c1")
    by (intros [c Hc]; vm_compute in Hc; discriminate).
  split; [apply after_reachable |]. split; [exact Hs |]. split; [exact Hn |].
  split; [vm_compute; reflexivity |].
  apply (no_second_handshake
           (after [Connection "c1"; Message "c1" (Some (VObj [("userId", VNum 1)]))])
           "c1"
           [Message "c1" (Some (handshake 1 "ann")); Message "c1" (Some subscribe_message)]
           (after [Connection "c1"; Message "c1" (Some (VObj [("userId", VNum 1)]))])
           [] (after_reachable _) Hs Hn).
  vm_compute; reflexivity.
Defined.

(** X15.  The identity of a registered connection is fixed: whatever
    happens, its registry entry stays the same until the connection closes,
    which removes it. *)
Theorem registration_is_stable s e s' effects clientId client :
  reachable s ->
  Map_get clientId (clients s) = Some client ->
  step s e = Some (s', effects) ->
  Map_get clientId (clients s') = Some client \/
  (e = Close clientId /\ Map_get clientId (clients s') = None).
Proof.
  intros Hreach Hc Hstep.
  destruct (step_registry s e s' effects clientId (reachable_invariant s Hreach) Hstep)
    as [H | [H | (data & sock & _ & _ & _ & H)]].
  - left. congruence.
  - now right.
  - congruence.
Qed.

Lemma registration_is_stable_witness :
  reachable (after two_connections) /\
  Map_get "c1" (clients (after two_connections)) = Some sample_client /\
  step (after two_connections) (Message "c1" (Some (handshake 9 "eve")))
    = Some (after two_connections, []) /\
  (Map_get "c1" (clients (after two_connections)) = Some sample_client \/
   (Message "c1" (Some (handshake 9 "eve")) = Close "c1" /\
    Map_get "c1" (clients (after two_connections)) = None)).
Proof.
  split; [apply after_reachable |]. split; [vm_compute; reflexivity |].
  split; [vm_compute; reflexivity |].
  apply (registration_is_stable (after two_connections)
           (Message "c1" (Some (handshake 9 "eve"))) (after two_connections) []
           "c1" sample_client (after_reachable _));
    vm_compute; reflexivity.
Defined.

(** ** Whole runs of a task update *)

Lemma run_cons s e s1 e1 es s2 e2 :
  step s e = Some (s1, e1) -> run s1 es = Some (s2, e2) ->
  run s (e :: es) = Some (s2, (e1 ++ e2)%list).
Proof. intros H1 H2. cbn [run]. now rewrite H1, H2. Qed.

(** A message of a registered connection is handled by the message
    listener alone. *)
Lemma step_message_registered s clientId data :
  hub_invariant s -> registered s clientId ->
  step s (Message clientId data) = Some (onMessage s clientId data).
Proof.
  intros Hinv Hreg.
  destruct (inv_socket s Hinv clientId Hreg) as (sock & Hs & Hst & Ha).
  cbn [step]. rewrite Hs, Ha.
  destruct (onMessage s clientId data) as [s1 e1].
  destruct Hst as [-> | ->]; reflexivity.
Qed.









(** ** Subscribing again *)

Lemma Set_add_subscribed k l : k ∈ l -> Set_add k l = l.
Proof.
  intros Hk. unfold Set_add, Set_has.
  destruct (existsb (String.eqb k) l) eqn:E; [reflexivity |].
  assert (H : existsb (String.eqb k) l = true).
  { apply existsb_exists. exists k. split; [now apply list_elem_of_In |].
    apply String.eqb_refl. }
  congruence.
Qed.

(** X18.  A subscription message from a connection that is already
    subscribed leaves the subscription set as it is, so that the
    connection is still sent each snapshot once, and starts one more
    recomputation of the snapshot. *)
Theorem subscribing_again s clientId m :
  reachable s ->
  subscribed s clientId ->
  field m "type" = VStr "subscribe_team_performance" ->
  step s (Message clientId (Some m)) =
    Some (spawn s AwaitTeamPerformance, [Query TeamPerformanceQueries]).
Proof.
  intros Hreach Hsub Ht.
  pose proof (reachable_invariant s Hreach) as Hinv.
  pose proof (inv_subscribed s Hinv clientId Hsub) as Hreg.
  rewrite (step_message_registered s clientId _ Hinv Hreg).
  destruct Hreg as [client Hc]. unfold onMessage. rewrite Hc.
  unfold field in Ht.
  destruct m; cbn [get] in *; try discriminate; rewrite Ht;
    rewrite (Set_add_subscribed clientId _ Hsub); reflexivity.
Qed.

Lemma subscribing_again_witness :
  reachable (after sample_history) /\
  subscribed (after sample_history) "c1" /\
  step (after sample_history) (Message "c1" (Some subscribe_message)) =
    Some (spawn (after sample_history) AwaitTeamPerformance,
          [Query TeamPerformanceQueries]).
Proof.
  assert (Hsub : subscribed (after sample_history) "c1")
    by (vm_compute; apply list_elem_of_here).
  split; [apply after_reachable |]. split; [exact Hsub |].
  apply (subscribing_again (after sample_history) "c1" subscribe_message
           (after_reachable _) Hsub).
  reflexivity.
Defined.



(** ** Team performance, continued *)

(** *** The counts *)

Lemma tasks_completed_le db u : 0 <= tasks_completed db u <= total_assigned db u.
Proof.
  unfold tasks_completed, total_assigned.
  pose proof (filter_and_length (assigned_to u) is_completed (tasks db)). lia.
Qed.

Lemma on_time_completed_le db u : 0 <= on_time_completed db u <= total_assigned db u.
Proof.
  unfold on_time_completed, total_assigned.
  pose proof (filter_and_length (assigned_to u) on_time (tasks db)). lia.
Qed.

(** X20.  The collaboration score of a team member is the number of the
    member's task-activity records, capped at 100: the doubles that the
    code compares order as the counts do. *)
Theorem collaborationScore_is_capped db member :
  activity_records db (user_id member) < 2 ^ 53 ->
  collaborationScore (metrics (memberPerformance db member)) =
    num (Z.min 100 (activity_records db (user_id member))).
Proof.
  intros Hlt. rewrite memberPerformance_metrics. cbn [collaborationScore].
  apply Math_min_num; [lia |].
  split; [unfold activity_records; lia | exact Hlt].
Qed.

Lemma collaborationScore_is_capped_witness :
  activity_records busy_database (user_id first_member) < 2 ^ 53 /\
  activity_records busy_database (user_id first_member) = 150 /\
  collaborationScore (metrics (memberPerformance busy_database first_member)) = num 100.
Proof.
  assert (Hc : activity_records busy_database (user_id first_member) = 150)
    by (vm_compute; reflexivity).
  split; [rewrite Hc; reflexivity |]. split; [exact Hc |].
  rewrite (collaborationScore_is_capped busy_database first_member)
    by (rewrite Hc; reflexivity).
  rewrite Hc. reflexivity.
Defined.

(** X21.  A team member whom no task, comment or activity record names
    is reported with no completed task, an on-time rate of 100, no
    comment, a collaboration score of 0 and a total score of 30. *)
Theorem metrics_of_a_new_member db member :
  total_assigned db (user_id member) = 0 ->
  comments_authored db (user_id member) = 0 ->
  activity_records db (user_id member) = 0 ->
  metrics (memberPerformance db member) =
    {| tasksCompleted := num 0;
       onTimeCompletion := num 100;
       metrics_documentComments := num 0;
       collaborationScore := num 0;
       totalScore := num 30 |}.
Proof.
  intros Ht Hc Ha. rewrite memberPerformance_metrics.
  assert (Hd : tasks_completed db (user_id member) = 0).
  { pose proof (tasks_completed_le db (user_id member)). lia. }
  rewrite Ht, Hc, Ha, Hd. vm_compute. reflexivity.
Qed.

Lemma metrics_of_a_new_member_witness :
  total_assigned sample_database (user_id new_member) = 0 /\
  comments_authored sample_database (user_id new_member) = 0 /\
  activity_records sample_database (user_id new_member) = 0 /\
  metrics (memberPerformance sample_database new_member) =
    {| tasksCompleted := num 0;
       onTimeCompletion := num 100;
       metrics_documentComments := num 0;
       collaborationScore := num 0;
       totalScore := num 30 |}.
Proof.
  split; [vm_compute; reflexivity |]. split; [vm_compute; reflexivity |].
  split; [vm_compute; reflexivity |].
  apply (metrics_of_a_new_member sample_database new_member); vm_compute; reflexivity.
Defined.

(** X22.  A team member with assigned tasks none of which was completed
    by its deadline has an on-time rate of 0. *)
Theorem onTimeCompletion_none_on_time db member :
  0 < total_assigned db (user_id member) < 2 ^ 53 ->
  on_time_completed db (user_id member) = 0 ->
  onTimeCompletion (metrics (memberPerformance db member)) = num 0.
Proof.
  intros Ht Ho. rewrite memberPerformance_metrics.
  cbn [onTimeCompletion]. unfold onTimeCompletionRate. rewrite Ho.
  destruct (Z.ltb_spec 0 (total_assigned db (user_id member))) as [_ | E]; [| lia].
  destruct (total_assigned db (user_id member)) as [| p | p]; try lia.
  rewrite (js_div_zero p (proj2 Ht)). reflexivity.
Qed.

Lemma onTimeCompletion_none_on_time_witness :
  0 < total_assigned busy_database (user_id first_member) < 2 ^ 53 /\
  on_time_completed busy_database (user_id first_member) = 0 /\
  onTimeCompletion (metrics (memberPerformance busy_database first_member)) = num 0.
Proof.
  assert (Ht : total_assigned busy_database (user_id first_member) = 1)
    by (vm_compute; reflexivity).
  split; [rewrite Ht; split; reflexivity |]. split; [vm_compute; reflexivity |].
  apply (onTimeCompletion_none_on_time busy_database first_member);
    [rewrite Ht; split; reflexivity | vm_compute; reflexivity].
Defined.

(** X23.  A team member all of whose assigned tasks were completed by
    their deadline has an on-time rate of 100, however many they are below
    2^53: the quotient of the two counts is the double 1. *)
Theorem onTimeCompletion_all_on_time db member :
  0 < total_assigned db (user_id member) < 2 ^ 53 ->
  on_time_completed db (user_id member) = total_assigned db (user_id member) ->
  onTimeCompletion (metrics (memberPerformance db member)) = num 100.
Proof.
  intros Ht Ho. rewrite memberPerformance_metrics.
  cbn [onTimeCompletion]. unfold onTimeCompletionRate. rewrite Ho.
  destruct (Z.ltb_spec 0 (total_assigned db (user_id member))) as [_ | E]; [| lia].
  destruct (total_assigned db (user_id member)) as [| p | p]; try lia.
  rewrite (js_div_same p (proj2 Ht)). vm_compute. reflexivity.
Qed.

Lemma onTimeCompletion_all_on_time_witness :
  0 < total_assigned sample_database (user_id first_member) < 2 ^ 53 /\
  on_time_completed sample_database (user_id first_member)
    = total_assigned sample_database (user_id first_member) /\
  onTimeCompletion (metrics (memberPerformance sample_database first_member)) = num 100.
Proof.
  assert (Ht : total_assigned sample_database (user_id first_member) = 5)
    by (vm_compute; reflexivity).
  split; [rewrite Ht; split; reflexivity |]. split; [vm_compute; reflexivity |].
  apply (onTimeCompletion_all_on_time sample_database first_member);
    [rewrite Ht; split; reflexivity | vm_compute; reflexivity].
Defined.

(** X24.  The entry of a team member depends only on the rows that name
    the member, and not on their order: two states of the tables that hold
    the same tasks assigned to the member, the same comments and the same
    activity records of the member, in any order and among any other rows,
    give the same entry. *)
Theorem memberPerformance_own_rows db db' member :
  filter (assigned_to (user_id member)) (tasks db)
    ≡ₚ filter (assigned_to (user_id member)) (tasks db') ->
  filter (fun c => comment_userId c = user_id member) (documentComments db)
    ≡ₚ filter (fun c => comment_userId c = user_id member) (documentComments db') ->
  filter (fun a => activity_userId a = user_id member) (taskActivities db)
    ≡ₚ filter (fun a => activity_userId a = user_id member) (taskActivities db') ->
  memberPerformance db member = memberPerformance db' member.
Proof.
  intros Ht Hc Ha.
  assert (Hm : metrics (memberPerformance db member)
               = metrics (memberPerformance db' member)).
  { rewrite !memberPerformance_metrics.
    assert (H1 : total_assigned db (user_id member)
                 = total_assigned db' (user_id member)).
    { unfold total_assigned. now rewrite Ht. }
    assert (H2 : tasks_completed db (user_id member)
                 = tasks_completed db' (user_id member)).
    { unfold tasks_completed.
      rewrite !(filter_and_filter (assigned_to (user_id member)) is_completed).
      now rewrite Ht. }
    assert (H3 : on_time_completed db (user_id member)
                 = on_time_completed db' (user_id member)).
    { unfold on_time_completed.
      rewrite !(filter_and_filter (assigned_to (user_id member)) on_time).
      now rewrite Ht. }
    assert (H4 : comments_authored db (user_id member)
                 = comments_authored db' (user_id member)).
    { unfold comments_authored. now rewrite Hc. }
    assert (H5 : activity_records db (user_id member)
                 = activity_records db' (user_id member)).
    { unfold activity_records. now rewrite Ha. }
    now rewrite H1, H2, H3, H4, H5. }
  unfold memberPerformance in *. cbn [metrics] in Hm. now rewrite Hm.
Qed.

Lemma memberPerformance_own_rows_witness :
  filter (assigned_to (user_id first_member)) (tasks sample_database)
    ≡ₚ filter (assigned_to (user_id first_member)) (tasks reordered_database) /\
  filter (fun c => comment_userId c = user_id first_member)
         (documentComments sample_database)
    ≡ₚ filter (fun c => comment_userId c = user_id first_member)
              (documentComments reordered_database) /\
  filter (fun a => activity_userId a = user_id first_member)
         (taskActivities sample_database)
    ≡ₚ filter (fun a => activity_userId a = user_id first_member)
              (taskActivities reordered_database) /\
  memberPerformance sample_database first_member
    = memberPerformance reordered_database first_member.
Proof.
  assert (Ht : filter (assigned_to (user_id first_member)) (tasks sample_database)
    ≡ₚ filter (assigned_to (user_id first_member)) (tasks reordered_database))
    by (vm_compute; reflexivity).
  assert (Hc : filter (fun c => comment_userId c = user_id first_member)
         (documentComments sample_database)
    ≡ₚ filter (fun c => comment_userId c = user_id first_member)
              (documentComments reordered_database))
    by (vm_compute; reflexivity).
  assert (Ha : filter (fun a => activity_userId a = user_id first_member)
         (taskActivities sample_database)
    ≡ₚ filter (fun a => activity_userId a = user_id first_member)
              (taskActivities reordered_database))
    by (vm_compute; apply perm_swap).
  split; [exact Ht |]. split; [exact Hc |]. split; [exact Ha |].
  exact (memberPerformance_own_rows sample_database reordered_database first_member
           Ht Hc Ha).
Defined.

(** * Task updates, from the message to the replies *)













(** * Where suspended task updates come from *)

Lemma ws_close_suspended s clientId : suspended (ws_close s clientId) = suspended s.
Proof.
  unfold ws_close. destruct (sockets s !! clientId) as [sock |]; [| reflexivity].
  destruct (readyState sock); reflexivity.
Qed.

Lemma onFirstMessage_suspended s clientId data s' effects :
  onFirstMessage s clientId data = (s', effects) -> suspended s' = suspended s.
Proof.
  intros H. apply onFirstMessage_inv in H.
  destruct H as [(v & _ & _ & -> & _) | [(v & _ & _ & _ & -> & _) | (_ & -> & _)]];
    [reflexivity | reflexivity | apply ws_close_suspended].
Qed.

(** A function is suspended after an event if it was suspended before, if
    the event is a message that starts it, or if the event is the answer
    that an earlier function of the same task update was waiting for. *)
Lemma step_suspended_source s e s' effects p :
  step s e = Some (s', effects) ->
  p ∈ suspended s' ->
  p ∈ suspended s \/
  p = AwaitTeamPerformance \/
  (exists clientId m client,
     e = Message clientId (Some m) /\
     Map_get clientId (clients s) = Some client /\
     handled_as_task_update m = true /\
     p = AwaitSelect {| call_clientId := clientId; call_client := client;
                        call_message := m |}) \/
  (exists n r p0 effects0,
     e = Answer n r /\ suspended s !! n = Some p0 /\
     resume s p0 r = Some (effects0, Some p)).
Proof.
  intros Hstep Hp. destruct e as [clientId | clientId data | clientId | | n r].
  - simpl in Hstep. destruct (sockets s !! clientId); [discriminate |].
    destruct (String.eqb clientId ""); [discriminate |].
    injection Hstep as <- <-. now left.
  - destruct (step_message_inv _ _ _ _ _ Hstep)
      as (sock & s1 & e1 & _ & _ & Hon & Hcase).
    assert (Hs' : suspended s' = suspended s1).
    { destruct Hcase as [(_ & -> & _) | (_ & e2 & Hfirst & _)]; [reflexivity |].
      now rewrite (onFirstMessage_suspended _ _ _ _ _ Hfirst). }
    rewrite Hs' in Hp. apply onMessage_inv in Hon.
    destruct Hon as [(_ & -> & _) | [(m & _ & _ & -> & _) | [(m & cl & _ & _ & _ & -> & _)
      | [(m & cl & _ & _ & _ & -> & _) | [(m & cl & -> & Hc & Hm & -> & _)
      | (m & cl & _ & _ & _ & _ & -> & _)]]]]]; try (now left).
    + cbn [suspended] in Hp. apply elem_of_app in Hp.
      destruct Hp as [Hp | Hp]; [now left |].
      apply list_elem_of_singleton in Hp. now right; left.
    + cbn [suspended spawn] in Hp. apply elem_of_app in Hp.
      destruct Hp as [Hp | Hp]; [now left |].
      apply list_elem_of_singleton in Hp. right; right; left.
      exists clientId, m, cl. auto.
  - simpl in Hstep. destruct (sockets s !! clientId) as [sock |]; [| discriminate].
    destruct (readyState sock); try discriminate; injection Hstep as <- <-; now left.
  - simpl in Hstep. unfold onTick, broadcastTeamPerformance in Hstep.
    destruct (0 <? _); injection Hstep as <- <-; [| now left].
    cbn [suspended] in Hp. apply elem_of_app in Hp.
    destruct Hp as [Hp | Hp]; [now left |].
    apply list_elem_of_singleton in Hp. now right; left.
  - destruct (step_answer_inv _ _ _ _ _ Hstep) as (p0 & next & Hp0 & Hr & ->).
    cbn [suspended] in Hp. apply elem_of_app in Hp.
    destruct Hp as [Hp | Hp]; [left; now apply list_elem_of_delete_inv in Hp |].
    destruct next as [p' |]; cbn [option_list] in Hp;
      [| now apply elem_of_nil in Hp].
    apply list_elem_of_singleton in Hp. subst p'.
    right; right; right. exists n, r, p0, effects. auto.
Qed.

(** A resumed function continues the task update of the function that
    was suspended; an update is only suspended by the read that returned
    its task. *)
Lemma resume_call s p0 r effects p :
  resume s p0 r = Some (effects, Some p) ->
  (exists c, call_of p0 = Some c /\ call_of p = Some c) /\
  (forall c currentTask,
     p = AwaitUpdate c currentTask ->
     p0 = AwaitSelect c /\ exists rows, r = TaskRows (Normal (currentTask :: rows))).
Proof.
  destruct p0 as [c | c t | c u |], r as [rows | rows | rows]; cbn [resume];
    try discriminate; intros [= H].
  - destruct (afterSelect_inv _ _ _ _ H)
      as [(? & _) | (t & rows' & target & changes & -> & _ & _ & _ & _ & [= ->])];
      [discriminate |].
    split; [exists c; auto |]. intros c' t' [= <- <-]. eauto.
  - destruct (afterUpdate_inv _ _ _ _ _ H) as [(? & _) | (rows' & _ & _ & [= ->])];
      [discriminate |].
    split; [exists c; auto |]. intros c' t' [=].
  - destruct (afterInsert_inv _ _ _ _ _ _ H) as (? & _). discriminate.
Qed.

Lemma step_registration_kept s e s' effects c :
  hub_invariant s -> registration_kept s c ->
  step s e = Some (s', effects) -> registration_kept s' c.
Proof.
  intros Hinv [Hspent Hreg] Hstep. split.
  - exact (step_spent s e s' effects _ Hspent Hstep).
  - intros client Hc.
    destruct (step_registry s e s' effects (call_clientId c) Hinv Hstep)
      as [H | [(_ & H) | (data & sock & _ & Hs & Ha & _)]].
    + apply Hreg. congruence.
    + congruence.
    + destruct Hspent as (sock' & Hs' & Ha'). congruence.
Qed.

(** In every reachable state the sender of each suspended task update has
    authenticated, and is registered as it was when it sent the message,
    if it is registered at all. *)
Lemma reachable_registration_kept s p c :
  reachable s -> p ∈ suspended s -> call_of p = Some c -> registration_kept s c.
Proof.
  intros Hreach. revert p c.
  induction Hreach as [| s e s' effects Hreach IH Hstep]; intros p c Hp Hcall.
  - now apply elem_of_nil in Hp.
  - pose proof (reachable_invariant s Hreach) as Hinv.
    destruct (step_suspended_source s e s' effects p Hstep Hp)
      as [Hold | [-> | [(clientId & m & client & -> & Hc & _ & ->)
                       | (n & r & p0 & effects0 & -> & Hp0 & Hr)]]].
    + exact (step_registration_kept s e s' effects c Hinv (IH p c Hold Hcall) Hstep).
    + discriminate.
    + injection Hcall as <-.
      eapply (step_registration_kept s); [exact Hinv | | exact Hstep].
      split; cbn [call_clientId call_client].
      * destruct (inv_socket s Hinv clientId) as (sock & Hs & _ & Ha);
          [unfold registered; rewrite Hc; eauto |].
        exists sock. auto.
      * intros client' Hc'. congruence.
    + destruct (resume_call s p0 r effects0 p Hr) as [(c0 & Hc0 & Hc1) _].
      assert (c0 = c) as -> by congruence.
      eapply (step_registration_kept s); [exact Hinv | | exact Hstep].
      apply (IH p0 c); [now apply list_elem_of_lookup_2 in Hp0 | exact Hc0].
Qed.

(** X5.  The only activity records the hub inserts describe a transition
    that the table lists.  Every insert answers the update of a suspended
    task update: its text names the status of the task that the update
    holds and the status that the sender's message requests, which the
    table lists after it; its task id is the one of that message; its user
    id is the truthy user id of the registry entry that the listener read
    when that message arrived, and that entry is still the sender's as long
    as the sender is registered; it is stamped with the time of the
    insert.  The task that an update holds is the one its read returned:
    an update is suspended only by the answer to the read of the same
    message, with the task in the first row of that answer. *)
Theorem activity_describes_listed_transition s e s' effects :
  reachable s ->
  step s e = Some (s', effects) ->
  (forall taskId userId action createdAt,
     Query (InsertTaskActivity taskId userId action createdAt) ∈ effects ->
     exists n rows c currentTask target,
       e = Answer n (TaskRows (Normal rows)) /\
       suspended s !! n = Some (AwaitUpdate c currentTask) /\
       requested_status (call_message c) = VStr target /\
       In (task_status currentTask, target) transition_table /\
       taskId = field (call_message c) "taskId" /\
       action = "Status changed from " ++ task_status currentTask ++ " to " ++ target /\
       userId = client_userId (call_client c) /\
       truthy userId = true /\
       (forall client, Map_get (call_clientId c) (clients s) = Some client ->
                       client = call_client c) /\
       createdAt = NewDateNow) /\
  (forall c currentTask,
     AwaitUpdate c currentTask ∈ suspended s' ->
     AwaitUpdate c currentTask ∈ suspended s \/
     exists n rows,
       e = Answer n (TaskRows (Normal (currentTask :: rows))) /\
       suspended s !! n = Some (AwaitSelect c)) /\
  (forall c, AwaitSelect c ∈ suspended s' ->
     AwaitSelect c ∈ suspended s \/
     (e = Message (call_clientId c) (Some (call_message c)) /\
      Map_get (call_clientId c) (clients s) = Some (call_client c))).
Proof.
  intros Hreach Hstep. split; [| split].
  - intros taskId userId action createdAt Hx.
    pose proof (step_effects_caused s e s' effects _ Hreach Hstep Hx) as Hcaused.
    inversion Hcaused; subst.
    match goal with
    | H : suspended s !! ?k = Some (AwaitUpdate ?c0 ?t) |- _ =>
        rename H into Hp; rename k into n; rename c0 into c; rename t into currentTask
    end.
    match goal with
    | H : step s (Answer n (TaskRows (Normal ?l))) = _ |- _ => rename l into rows
    end.
    destruct (reachable_pending s n _ Hreach Hp) as (Hcall & next & Hs & Hin').
    destruct (step_answer_inv _ _ _ _ _ Hstep) as (p & nx & Hp' & Hr & _).
    assert (p = AwaitUpdate c currentTask) as -> by congruence.
    cbn [resume] in Hr. injection Hr as Hr.
    destruct (afterUpdate_inv _ _ _ _ _ Hr) as [(_ & ->) | (rows' & _ & -> & _)].
    { apply list_elem_of_singleton in Hx. discriminate. }
    apply list_elem_of_singleton in Hx. rewrite Hs in Hx. cbn [to_string] in Hx.
    exists n, rows, c, currentTask, next.
    assert (Hkept : registration_kept s c).
    { apply (reachable_registration_kept s (AwaitUpdate c currentTask) c Hreach);
        [now apply list_elem_of_lookup_2 in Hp | reflexivity]. }
    repeat split; try assumption; try reflexivity; try congruence;
      try exact (proj1 (call_credentials c Hcall)); try exact (proj2 Hkept).
  - intros c currentTask Hp.
    destruct (step_suspended_source s e s' effects _ Hstep Hp)
      as [Hold | [H | [(clientId & m & client & _ & _ & _ & H)
                      | (n & r & p0 & effects0 & -> & Hp0 & Hr)]]];
      [now left | discriminate | discriminate |].
    destruct (proj2 (resume_call s p0 r effects0 _ Hr) c currentTask eq_refl)
      as (-> & rows & ->).
    right. eauto.
  - intros c Hp.
    destruct (step_suspended_source s e s' effects _ Hstep Hp)
      as [Hold | [H | [(clientId & m & client & -> & Hc & _ & H)
                      | (n & r & p0 & effects0 & -> & Hp0 & Hr)]]];
      [now left | discriminate | |].
    + injection H as ->. right. cbn [call_clientId call_message call_client]. auto.
    + exfalso. destruct p0 as [c0 | c0 t | c0 u |], r as [rows | rows | rows];
        cbn [resume] in Hr; try discriminate; injection Hr as Hr.
      * destruct (afterSelect_inv _ _ _ _ Hr)
          as [(? & _) | (t & rows' & target & changes & _ & _ & _ & _ & _ & ?)];
          discriminate.
      * destruct (afterUpdate_inv _ _ _ _ _ Hr) as [(? & _) | (rows' & _ & _ & ?)];
          discriminate.
      * destruct (afterInsert_inv _ _ _ _ _ _ Hr) as (? & _). discriminate.
Qed.

Lemma activity_describes_listed_transition_witness :
  reachable (after task_read) /\
  step (after task_read) (Answer 0 (TaskRows (Normal [sample_task 7 "in_progress"])))
    = Some (after task_updated,
            effects_after task_read
              (Answer 0 (TaskRows (Normal [sample_task 7 "in_progress"])))) /\
  Query (InsertTaskActivity (VNum 7) (VNum 1)
           "Status changed from pending to in_progress" NewDateNow)
    ∈ effects_after task_read
        (Answer 0 (TaskRows (Normal [sample_task 7 "in_progress"]))) /\
  exists n rows c currentTask target,
    Answer 0 (TaskRows (Normal [sample_task 7 "in_progress"]))
      = Answer n (TaskRows (Normal rows)) /\
    suspended (after task_read) !! n = Some (AwaitUpdate c currentTask) /\
    requested_status (call_message c) = VStr target /\
    In (task_status currentTask, target) transition_table /\
    VNum 7 = field (call_message c) "taskId" /\
    "Status changed from pending to in_progress"
      = "Status changed from " ++ task_status currentTask ++ " to " ++ target /\
    VNum 1 = client_userId (call_client c) /\
    truthy (VNum 1) = true /\
    (forall client,
       Map_get (call_clientId c) (clients (after task_read)) = Some client ->
       client = call_client c) /\
    NewDateNow = NewDateNow.
Proof.
  split; [apply after_reachable |].
  split; [vm_compute; reflexivity |].
  split; [vm_compute; apply list_elem_of_here |].
  apply (proj1 (activity_describes_listed_transition (after task_read)
           (Answer 0 (TaskRows (Normal [sample_task 7 "in_progress"])))
           (after task_updated)
           (effects_after task_read
              (Answer 0 (TaskRows (Normal [sample_task 7 "in_progress"]))))
           (after_reachable _) ltac:(vm_compute; reflexivity))).
  vm_compute; apply list_elem_of_here.
Defined.

(** * Number::toString *)

(** Below 2^53 an integer prints in decimal; above, as the shortest
    decimal that reads back as its double, in exponent notation from
    10^21 on. *)
Lemma Number_toString_examples :
  to_string (VNum 7) = "7" /\
  to_string (VNum (-12)) = "-12" /\
  to_string (VNum (2 ^ 53 + 1)) = "9007199254740992" /\
  to_string (VNum (2 ^ 60)) = "1152921504606847000" /\
  to_string (VNum (10 ^ 20)) = "100000000000000000000" /\
  to_string (VNum (10 ^ 21)) = "1e+21" /\
  to_string (VNum (2 ^ 70)) = "1.1805916207174113e+21" /\
  to_string (VNum (- (15 * 10 ^ 20))) = "-1.5e+21" /\
  to_string (VNum (2 ^ 1024)) = "Infinity".
Proof. vm_compute. repeat split; reflexivity. Qed.
